(** * WatermelonDB native database bridge (native/shared/Database.cpp)

    A shallow embedding of [watermelondb::Database]: the statement cache,
    the record identity cache, the binder, the result shapers, the
    transaction helpers, [batch], [unsafeResetDatabase], [migrate] and the
    query methods, over an abstract sqlite3 connection and an abstract
    host number type. *)

From Stdlib Require Import ZArith String Ascii List DecimalString.
From stdpp Require Import base gmap sets list strings.

Local Open Scope string_scope.

(** ** Constants of sqlite3.h *)

Definition SQLITE_OK : Z := 0.
Definition SQLITE_BUSY : Z := 5.
Definition SQLITE_ROW : Z := 100.
Definition SQLITE_DONE : Z := 101.
Definition SQLITE_INTEGER : Z := 1.
Definition SQLITE_FLOAT : Z := 2.
Definition SQLITE_TEXT : Z := 3.
Definition SQLITE_BLOB : Z := 4.
Definition SQLITE_NULL : Z := 5.
Definition SQLITE_DBCONFIG_RESET_DATABASE : Z := 1009.

(** A [sqlite3_stmt *]; the null pointer is [0]. *)
Definition sqlite3_stmt : Type := N.
Definition nullptr : sqlite3_stmt := 0%N.

(** [std::to_string(int)] *)
Definition to_string (n : Z) : string := NilZero.string_of_int (Z.to_int n).

(** [size_t] is 64 bits wide; an [int] compared with a [size_t] is
    converted to it first. *)
Definition size_t_of_int (n : Z) : Z := (n mod 2 ^ 64)%Z.

(** ** Outcomes *)

(** What a C++ call can end in.  [Throw] is a [jsi::JSError] (a
    [std::exception]); [Abort] is the end of the process, by a failed
    [assert] or by behaviour the language leaves undefined; [OutOfFuel]
    is the model's own: the step budget of an unbounded [while (true)]
    ran out. *)
Inductive exception : Type := JSError (message : string).

Inductive outcome (A : Type) : Type :=
| Ret (a : A)
| Throw (ex : exception)
| Abort (what : string)
| OutOfFuel.
Arguments Ret {A} a.
Arguments Throw {A} ex.
Arguments Abort {A} what.
Arguments OutOfFuel {A}.

(** The host number type [double], with the conversion [(double)n] of an
    integer to it. *)
Class HostNumber (double : Type) : Type := { cast_double : Z → double }.

(** Whether the translation unit is compiled with [NDEBUG], which turns
    every [assert] into nothing (its argument is not evaluated). *)
Class Build : Type := { NDEBUG : bool }.

Section Bridge.

Context {double : Type} {host_number : HostNumber double}.

(** ** Host values (jsi) *)

#[warnings="-register-all"] Inductive Value : Type :=
| Undefined
| Null
| Bool (b : bool)
| Number (d : double)
| JsString (s : string)
| Symbol
| Object (props : list (string * Value))
| Array (elems : list Value).

(** [jsi::Object::setProperty]: an own property keeps its place when it is
    assigned again, a new one goes last. *)
Fixpoint setProperty (props : list (string * Value)) (name : string) (v : Value)
  : list (string * Value) :=
  match props with
  | [] => [(name, v)]
  | (n, w) :: rest =>
      if String.eqb n name then (n, v) :: rest else (n, w) :: setProperty rest name v
  end.

Fixpoint getProperty (props : list (string * Value)) (name : string) : option Value :=
  match props with
  | [] => None
  | (n, w) :: rest => if String.eqb n name then Some w else getProperty rest name
  end.

(** [jsi::Array(rt, n)] holds [n] undefined values. *)
Definition newArray (n : nat) : list Value := replicate n Undefined.

(** [jsi::Array::setValueAtIndex] inside the bounds of the array. *)
Definition setValueAtIndex (a : list Value) (i : nat) (v : Value) : list Value :=
  <[i := v]> a.

(** ** The sqlite3 connection *)

(** The calls of the sqlite3 C API that act on the connection, as the
    bridge makes them. *)
Inductive sqlite3_call : Type :=
| call_prepare_v2 (sql : string)
| call_finalize (stmt : sqlite3_stmt)
| call_reset (stmt : sqlite3_stmt)
| call_bind_null (stmt : sqlite3_stmt) (idx : Z)
| call_bind_text (stmt : sqlite3_stmt) (idx : Z) (text : string)
| call_bind_double (stmt : sqlite3_stmt) (idx : Z) (d : double)
| call_bind_int (stmt : sqlite3_stmt) (idx : Z) (v : Z)
| call_step (stmt : sqlite3_stmt)
| call_exec (sql : string)
| call_db_config (op : Z) (v : Z).

(** The underlying engine is a black box: a connection state [E] and the
    functions of the C API over it.  Functions that act on the connection
    return its next state; the column accessors, the counts and the error
    accessors read it. *)
Class Sqlite3 (E : Type) : Type := {
  sqlite3_prepare_v2 : string → E → (Z * sqlite3_stmt) * E;
  sqlite3_finalize : sqlite3_stmt → E → E;
  sqlite3_reset : sqlite3_stmt → E → E;
  sqlite3_bind_parameter_count : sqlite3_stmt → E → Z;
  sqlite3_bind_null : sqlite3_stmt → Z → E → Z * E;
  sqlite3_bind_text : sqlite3_stmt → Z → string → E → Z * E;
  sqlite3_bind_double : sqlite3_stmt → Z → double → E → Z * E;
  sqlite3_bind_int : sqlite3_stmt → Z → Z → E → Z * E;
  sqlite3_step : sqlite3_stmt → E → Z * E;
  sqlite3_exec : string → E → (Z * option string) * E;
  sqlite3_db_config : Z → Z → E → Z * E;
  sqlite3_column_count : sqlite3_stmt → E → Z;
  sqlite3_data_count : sqlite3_stmt → E → Z;
  sqlite3_column_name : sqlite3_stmt → Z → E → option string;
  sqlite3_column_type : sqlite3_stmt → Z → E → Z;
  sqlite3_column_int : sqlite3_stmt → Z → E → Z;
  sqlite3_column_int64 : sqlite3_stmt → Z → E → Z;
  sqlite3_column_double : sqlite3_stmt → Z → E → double;
  sqlite3_column_text : sqlite3_stmt → Z → E → option string;
  sqlite3_errmsg : E → string;
  sqlite3_extended_errcode : E → Z
}.

Context {E : Type} {engine : Sqlite3 E} {build : Build}.

(** ** The Database object *)

(** [db_], [cachedStatements_] and [cachedRecords_] are the members of the
    class; [console] is what [platform::consoleError] has printed and
    [calls] the calls made on the connection, both most recent first. *)
Record Database : Type := mkDatabase {
  db_ : E;
  cachedStatements_ : gmap string sqlite3_stmt;
  cachedRecords_ : gset string;
  console : list string;
  calls : list sqlite3_call
}.

Definition set_db_ (e : E) (d : Database) : Database :=
  mkDatabase e (cachedStatements_ d) (cachedRecords_ d) (console d) (calls d).
Definition set_cachedStatements_ (m : gmap string sqlite3_stmt) (d : Database) : Database :=
  mkDatabase (db_ d) m (cachedRecords_ d) (console d) (calls d).
Definition set_cachedRecords_ (s : gset string) (d : Database) : Database :=
  mkDatabase (db_ d) (cachedStatements_ d) s (console d) (calls d).
Definition set_console (c : list string) (d : Database) : Database :=
  mkDatabase (db_ d) (cachedStatements_ d) (cachedRecords_ d) c (calls d).
Definition set_calls (c : list sqlite3_call) (d : Database) : Database :=
  mkDatabase (db_ d) (cachedStatements_ d) (cachedRecords_ d) (console d) c.

(** ** Methods as state transformers *)

Definition M (A : Type) : Type := Database → outcome A * Database.

Definition ret {A} (a : A) : M A := λ d, (Ret a, d).
Definition bind {A B} (m : M A) (k : A → M B) : M B :=
  λ d, match m d with
       | (Ret a, d') => k a d'
       | (Throw ex, d') => (Throw ex, d')
       | (Abort w, d') => (Abort w, d')
       | (OutOfFuel, d') => (OutOfFuel, d')
       end.

#[global] Instance M_ret : MRet M := @ret.
#[global] Instance M_bind : MBind M := λ A B k m, bind m k.

Definition throw {A} (ex : exception) : M A := λ d, (Throw ex, d).
Definition abort {A} (what : string) : M A := λ d, (Abort what, d).
Definition get : M Database := λ d, (Ret d, d).
Definition modify (f : Database → Database) : M unit := λ d, (Ret tt, f d).

(** [try { body } catch (const std::exception &ex) { handler }] *)
Definition try_catch {A} (body : M A) (handler : exception → M A) : M A :=
  λ d, match body d with
       | (Throw ex, d') => handler ex d'
       | r => r
       end.

(** A call that acts on the connection. *)
Definition call {A} (c : sqlite3_call) (f : E → A * E) : M A :=
  λ d, let '(a, e') := f (db_ d) in
       (Ret a, set_calls (c :: calls d) (set_db_ e' d)).

Definition call_ (c : sqlite3_call) (f : E → E) : M unit :=
  call c (λ e, (tt, f e)).

(** A call that reads the connection. *)
Definition peek {A} (f : E → A) : M A := λ d, (Ret (f (db_ d)), d).

Definition consoleError (message : string) : M unit :=
  λ d, (Ret tt, set_console (message :: console d) d).

(** The assertion a failed [assert] reports. *)
Definition assertion_failed (text : string) : string := "Assertion failed: " ++ text.

(** [assert(cond)] where [cond] is an expression with effects. *)
Definition assertM (cond : M bool) (text : string) : M unit :=
  if NDEBUG then ret tt
  else b ← cond; if b : bool then ret tt else abort (assertion_failed text).

Definition assert (cond : bool) (text : string) : M unit := assertM (ret cond) text.

(** Modelled from the spec: the class [SqliteStatement] (Sqlite.h) is not
    among the sources.  It is the scoped guard of the specification, "a
    prepared statement is always reset after use": its destructor resets
    the statement when the scope is left, by a return or by an exception.
    A process that aborts unwinds nothing. *)
Definition SqliteStatement {A} (stmt : sqlite3_stmt) (scope : M A) : M A :=
  λ d, match scope d with
       | (Ret a, d') => (Ret a, snd (call_ (call_reset stmt) (sqlite3_reset stmt) d'))
       | (Throw ex, d') => (Throw ex, snd (call_ (call_reset stmt) (sqlite3_reset stmt) d'))
       | r => r
       end.

(** *** Identity cache *)

Definition cacheKey (tableName recordId : string) : string :=
  tableName ++ "$" ++ recordId.

Definition isCached (cacheKey : string) : M bool :=
  d ← get; mret (bool_decide (cacheKey ∈ cachedRecords_ d)).

Definition markAsCached (cacheKey : string) : M unit :=
  modify (λ d, set_cachedRecords_ ({[cacheKey]} ∪ cachedRecords_ d) d).

Definition removeFromCache (cacheKey : string) : M unit :=
  modify (λ d, set_cachedRecords_ (cachedRecords_ d ∖ {[cacheKey]}) d).

(** *** Errors *)

Definition dbError (description : string) : M exception :=
  sqliteMessage ← peek sqlite3_errmsg;
  code ← peek sqlite3_extended_errcode;
  let message :=
    description ++ " - sqlite error " ++ to_string code ++ " (" ++ sqliteMessage ++ ")" in
  consoleError message;;
  mret (JSError message).

(** *** Statement cache *)

Definition prepareQuery (sql : string) : M sqlite3_stmt :=
  d ← get;
  (* operator[] value-initialises the entry of a key that is not there *)
  let statement := default nullptr (cachedStatements_ d !! sql) in
  modify (set_cachedStatements_ (<[sql := statement]> (cachedStatements_ d)));;
  statement ←
    (if bool_decide (statement = nullptr) then
       '(resultPrepare, statement) ← call (call_prepare_v2 sql) (sqlite3_prepare_v2 sql);
       if bool_decide (resultPrepare ≠ SQLITE_OK) then
         call_ (call_finalize statement) (sqlite3_finalize statement);;
         ex ← dbError "Failed to prepare query statement";
         throw ex
       else
         modify (λ d, set_cachedStatements_ (<[sql := statement]> (cachedStatements_ d)) d);;
         mret statement
     else
       call_ (call_reset statement) (sqlite3_reset statement);;
       mret statement);
  assert (bool_decide (statement ≠ nullptr)) "statement != nullptr";;
  mret statement.

(** *** Binder *)

Definition ArgMismatch : exception :=
  JSError "Number of args passed to query doesn't match number of arg placeholders".
Definition InvalidArgType_object : exception :=
  JSError "Invalid argument type (object) for query".
Definition InvalidArgType_unknown : exception :=
  JSError "Invalid argument type (unknown) for query".

(** The body of [for (int i = 0; i < argsCount; i++)], over the arguments
    from index [i] on. *)
Fixpoint bindArgs_loop (statement : sqlite3_stmt) (i : Z) (arguments : list Value)
  : M unit :=
  match arguments with
  | [] => mret tt
  | value :: rest =>
      bindResult ←
        match value with
        | Null | Undefined =>
            call (call_bind_null statement (i + 1)) (sqlite3_bind_null statement (i + 1))
        | JsString s =>
            call (call_bind_text statement (i + 1) s) (sqlite3_bind_text statement (i + 1) s)
        | Number d =>
            call (call_bind_double statement (i + 1) d)
                 (sqlite3_bind_double statement (i + 1) d)
        | Bool b =>
            call (call_bind_int statement (i + 1) (if b then 1 else 0))
                 (sqlite3_bind_int statement (i + 1) (if b then 1 else 0))
        | Object _ | Array _ =>
            call_ (call_reset statement) (sqlite3_reset statement);;
            throw InvalidArgType_object
        | Symbol =>
            call_ (call_reset statement) (sqlite3_reset statement);;
            throw InvalidArgType_unknown
        end;
      if bool_decide (bindResult ≠ SQLITE_OK) then
        call_ (call_reset statement) (sqlite3_reset statement);;
        ex ← dbError "Failed to bind an argument for query";
        throw ex
      else bindArgs_loop statement (i + 1) rest
  end%Z.

(** The loop runs [argsCount] times; past the length check that is the
    length of [arguments] unless [argsCount] is negative, when it does not
    run at all. *)
Definition bindArgs (statement : sqlite3_stmt) (arguments : list Value) : M unit :=
  argsCount ← peek (sqlite3_bind_parameter_count statement);
  if bool_decide (size_t_of_int argsCount ≠ Z.of_nat (length arguments)) then
    call_ (call_reset statement) (sqlite3_reset statement);;
    throw ArgMismatch
  else bindArgs_loop statement 0 (take (Z.to_nat argsCount) arguments).

(** [executeQuery] returns the guard; [scope] is the rest of the block that
    holds it. *)
Definition executeQuery {A} (sql : string) (arguments : list Value)
    (scope : sqlite3_stmt → M A) : M A :=
  statement ← prepareQuery sql;
  bindArgs statement arguments;;
  SqliteStatement statement (scope statement).

Definition executeUpdate_stmt (statement : sqlite3_stmt) : M unit :=
  stepResult ← call (call_step statement) (sqlite3_step statement);
  if bool_decide (stepResult ≠ SQLITE_DONE) then
    ex ← dbError "Failed to execute db update"; throw ex
  else mret tt.

Definition executeUpdate_args (sql : string) (args : list Value) : M unit :=
  stmt ← prepareQuery sql;
  bindArgs stmt args;;
  SqliteStatement stmt (executeUpdate_stmt stmt).

Definition executeUpdate (sql : string) : M unit :=
  stmt ← prepareQuery sql;
  SqliteStatement stmt (executeUpdate_stmt stmt).

Definition getRow (stmt : sqlite3_stmt) : M unit :=
  result ← call (call_step stmt) (sqlite3_step stmt);
  if bool_decide (result ≠ SQLITE_ROW) then
    ex ← dbError "Failed to get a row for query"; throw ex
  else mret tt.

Definition getNextRowOrTrue (stmt : sqlite3_stmt) : M bool :=
  result ← call (call_step stmt) (sqlite3_step stmt);
  if bool_decide (result = SQLITE_DONE) then mret true
  else if bool_decide (result ≠ SQLITE_ROW) then
    ex ← dbError "Failed to get a row for query"; throw ex
  else mret false.

Definition executeMultiple (sql : string) : M unit :=
  '(resultExec, errmsg) ← call (call_exec sql) (sqlite3_exec sql);
  match errmsg with
  | Some message => throw (JSError message)
  | None =>
      if bool_decide (resultExec ≠ SQLITE_OK) then
        ex ← dbError "Failed to execute statements"; throw ex
      else mret tt
  end.

(** A [for] loop over [l] that carries the local variables [s]. *)
Fixpoint for_each {A S} (l : list A) (body : A → S → M S) (s : S) : M S :=
  match l with
  | [] => mret s
  | x :: rest => s' ← body x s; for_each rest body s'
  end.

(** *** Result shapers *)

Definition UnsupportedColumnType : exception :=
  JSError "Unable to fetch record from database - unknown column type (WatermelonDB does not support blobs or custom sqlite types".

(** [dictionary.setProperty(rt, column, v)] with [column] a C string: a
    null [column] is undefined behaviour in the host runtime. *)
Definition setProperty_cstr (dictionary : list (string * Value)) (column : option string)
    (v : Value) : M (list (string * Value)) :=
  match column with
  | Some name => mret (setProperty dictionary name v)
  | None => abort "setProperty: null property name"
  end.

Definition resultDictionary_column (statement : sqlite3_stmt) (i : Z)
    (dictionary : list (string * Value)) : M (list (string * Value)) :=
  column ← peek (sqlite3_column_name statement i);
  assert (bool_decide (column ≠ None)) "column";;
  type ← peek (sqlite3_column_type statement i);
  if bool_decide (type = SQLITE_INTEGER) then
    value ← peek (sqlite3_column_int64 statement i);
    setProperty_cstr dictionary column (Number (cast_double value))
  else if bool_decide (type = SQLITE_FLOAT) then
    value ← peek (sqlite3_column_double statement i);
    setProperty_cstr dictionary column (Number value)
  else if bool_decide (type = SQLITE_TEXT) then
    text ← peek (sqlite3_column_text statement i);
    match text with
    | Some text => setProperty_cstr dictionary column (JsString text)
    | None => setProperty_cstr dictionary column Null
    end
  else if bool_decide (type = SQLITE_NULL) then
    setProperty_cstr dictionary column Null
  else throw UnsupportedColumnType.

Definition resultDictionary (statement : sqlite3_stmt) : M Value :=
  len ← peek (sqlite3_column_count statement);
  dictionary ← for_each (seqZ 0 len) (resultDictionary_column statement) [];
  mret (Object dictionary).

Definition resultArray_column (statement : sqlite3_stmt) (i : Z) (result : list Value)
  : M (list Value) :=
  type ← peek (sqlite3_column_type statement i);
  if bool_decide (type = SQLITE_INTEGER) then
    value ← peek (sqlite3_column_int64 statement i);
    mret (setValueAtIndex result (Z.to_nat i) (Number (cast_double value)))
  else if bool_decide (type = SQLITE_FLOAT) then
    value ← peek (sqlite3_column_double statement i);
    mret (setValueAtIndex result (Z.to_nat i) (Number value))
  else if bool_decide (type = SQLITE_TEXT) then
    text ← peek (sqlite3_column_text statement i);
    match text with
    | Some text => mret (setValueAtIndex result (Z.to_nat i) (JsString text))
    | None => mret (setValueAtIndex result (Z.to_nat i) Null)
    end
  else if bool_decide (type = SQLITE_NULL) then
    mret (setValueAtIndex result (Z.to_nat i) Null)
  else throw UnsupportedColumnType.

(** A column count is an [int] that is not negative. *)
Definition resultArray (statement : sqlite3_stmt) : M Value :=
  count ← peek (sqlite3_column_count statement);
  result ← for_each (seqZ 0 count) (resultArray_column statement)
                    (newArray (Z.to_nat count));
  mret (Array result).

Definition resultColumns_column (statement : sqlite3_stmt) (i : Z) (columns : list Value)
  : M (list Value) :=
  column ← peek (sqlite3_column_name statement i);
  assert (bool_decide (column ≠ None)) "column";;
  match column with
  | Some name => mret (setValueAtIndex columns (Z.to_nat i) (JsString name))
  | None => abort "createFromUtf8: null string"
  end.

Definition resultColumns (statement : sqlite3_stmt) : M Value :=
  count ← peek (sqlite3_column_count statement);
  columns ← for_each (seqZ 0 count) (resultColumns_column statement)
                     (newArray (Z.to_nat count));
  mret (Array columns).

Definition arrayFromStd (vector : list Value) : Value :=
  Array (fst (foldl (λ '(array, i) value, (setValueAtIndex array i value, S i))
                    (newArray (length vector), 0%nat) vector)).

(** *** Transactions *)

Definition beginTransaction : M unit := executeUpdate "begin exclusive transaction".

Definition commit : M unit := executeUpdate "commit transaction".

Definition rollback_notice : string :=
  "WatermelonDB sqlite transaction is being rolled back! This is BAD - it means that there's either a "
  ++ "WatermelonDB bug or a user issue (e.g. no empty disk space) that Watermelon may be unable to recover "
  ++ "from safely... Do investigate!".

(** [ex.what()] *)
Definition what (ex : exception) : string := match ex with JSError message => message end.

Definition rollback : M unit :=
  consoleError rollback_notice;;
  try_catch (executeUpdate "rollback transaction")
    (λ ex,
       consoleError ("Error while attempting to roll back transaction, probably harmless: "
                     ++ what ex)).

Definition getUserVersion : M Z :=
  executeQuery "pragma user_version" []
    (λ statement,
       getRow statement;;
       assertM (n ← peek (sqlite3_data_count statement); mret (bool_decide (n = 1%Z)))
               "sqlite3_data_count(statement.stmt) == 1";;
       version ← peek (sqlite3_column_int statement 0);
       mret version).

Definition setUserVersion (newVersion : Z) : M unit :=
  executeUpdate ("pragma user_version = " ++ to_string newVersion).

(** *** Queries *)

Definition MissingId : exception := JSError "Failed to get ID of a record".

Definition find (tableName id : string) : M Value :=
  cached ← isCached (cacheKey tableName id);
  if cached : bool then mret (JsString id)
  else
    executeQuery ("select * from `" ++ tableName ++ "` where id == ? limit 1") [JsString id]
      (λ statement,
         done ← getNextRowOrTrue statement;
         if done : bool then mret Null
         else
           record ← resultDictionary statement;
           markAsCached (cacheKey tableName id);;
           mret record).

(** [assert(std::string(sqlite3_column_name(stmt, 0)) == "id")] *)
Definition assert_first_column_is_id (statement : sqlite3_stmt) : M unit :=
  assertM (column ← peek (sqlite3_column_name statement 0);
           mret (bool_decide (column = Some "id")))
          "std::string(sqlite3_column_name(statement.stmt, 0)) == id".

(** One turn of the [while (true)] of [query]; [None] is the [break]. *)
Definition query_row (tableName : string) (statement : sqlite3_stmt) (records : list Value)
  : M (option (list Value)) :=
  done ← getNextRowOrTrue statement;
  if done : bool then mret None
  else
    assert_first_column_is_id statement;;
    id ← peek (sqlite3_column_text statement 0);
    match id with
    | None => throw MissingId
    | Some id =>
        cached ← isCached (cacheKey tableName id);
        if cached : bool then mret (Some (records ++ [JsString id])%list)
        else
          markAsCached (cacheKey tableName id);;
          record ← resultDictionary statement;
          mret (Some (records ++ [record])%list)
    end.

(** A [while (true)] whose body [turn] says whether to go on. *)
Fixpoint while_true {S} (fuel : nat) (turn : S → M (option S)) (s : S) : M S :=
  match fuel with
  | O => λ d, (OutOfFuel, d)
  | S fuel' =>
      r ← turn s;
      match r with
      | None => mret s
      | Some s' => while_true fuel' turn s'
      end
  end.

Definition query (fuel : nat) (tableName sql : string) (arguments : list Value) : M Value :=
  executeQuery sql arguments
    (λ statement,
       records ← while_true fuel (query_row tableName statement) [];
       mret (arrayFromStd records)).

Definition queryAsArray_row (tableName : string) (statement : sqlite3_stmt)
    (results : list Value) : M (option (list Value)) :=
  done ← getNextRowOrTrue statement;
  if done : bool then mret None
  else
    assert_first_column_is_id statement;;
    id ← peek (sqlite3_column_text statement 0);
    match id with
    | None => throw MissingId
    | Some id =>
        results ←
          (if bool_decide (length results = 0%nat) then
             columns ← resultColumns statement;
             mret (results ++ [columns])%list
           else mret results);
        cached ← isCached (cacheKey tableName id);
        if cached : bool then mret (Some (results ++ [JsString id])%list)
        else
          markAsCached (cacheKey tableName id);;
          record ← resultArray statement;
          mret (Some (results ++ [record])%list)
    end.

Definition queryAsArray (fuel : nat) (tableName sql : string) (arguments : list Value)
  : M Value :=
  executeQuery sql arguments
    (λ statement,
       results ← while_true fuel (queryAsArray_row tableName statement) [];
       mret (arrayFromStd results)).

Definition count (sql : string) (arguments : list Value) : M Value :=
  executeQuery sql arguments
    (λ statement,
       getRow statement;;
       assertM (n ← peek (sqlite3_data_count statement); mret (bool_decide (n = 1%Z)))
               "sqlite3_data_count(statement.stmt) == 1";;
       count ← peek (sqlite3_column_int statement 0);
       mret (Number (cast_double count))).

(** *** Batch *)

(** One element of the array given to [batch]:
    [[cacheBehavior, table, sql, argsBatches]].  [cacheBehavior] is a host
    number that the code only compares with 0, 1 and -1. *)
Record operation : Type := mkOperation {
  op_cacheBehavior : Z;
  op_table : string;
  op_sql : string;
  op_argsBatches : list (list Value)
}.

(** [args.getValueAtIndex(rt, 0).getString(rt).utf8(rt)]: the host runtime
    throws when the array has no element 0, and [getString] on a value
    that is not a string is undefined. *)
Definition first_arg_string (args : list Value) : M string :=
  match args with
  | [] => throw (JSError "getValueAtIndex: index 0 is out of bounds")
  | JsString id :: _ => mret id
  | _ :: _ => abort "getString: not a string"
  end.

Definition batch_args (cacheBehavior : Z) (table sql : string) (args : list Value)
    (ids : list string * list string) : M (list string * list string) :=
  let '(addedIds, removedIds) := ids in
  executeUpdate_args sql args;;
  if bool_decide (cacheBehavior ≠ 0%Z) then
    id ← first_arg_string args;
    if bool_decide (cacheBehavior = 1%Z) then
      mret ((addedIds ++ [cacheKey table id])%list, removedIds)
    else if bool_decide (cacheBehavior = (-1)%Z) then
      mret (addedIds, (removedIds ++ [cacheKey table id])%list)
    else mret (addedIds, removedIds)
  else mret (addedIds, removedIds).

Definition batch_operation (op : operation) (ids : list string * list string)
  : M (list string * list string) :=
  let cacheBehavior := op_cacheBehavior op in
  let table := if bool_decide (cacheBehavior ≠ 0%Z) then op_table op else EmptyString in
  let sql := op_sql op in
  for_each (op_argsBatches op) (batch_args cacheBehavior table sql) ids.

(** The [try] block of [batch]; it leaves [addedIds] and [removedIds]. *)
Definition batch_try (operations : list operation) : M (list string * list string) :=
  ids ← for_each operations batch_operation ([], []);
  commit;;
  mret ids.

Definition batch (operations : list operation) : M unit :=
  beginTransaction;;
  '(addedIds, removedIds) ← try_catch (batch_try operations) (λ ex, rollback;; throw ex);
  for_each addedIds (λ key _, markAsCached key) tt;;
  for_each removedIds (λ key _, removeFromCache key) tt.

(** *** Schema and migration *)

(** The statements of [unsafeResetDatabase] before its [try] block. *)
Definition unsafeResetDatabase_open : M unit :=
  rc ← call (call_db_config SQLITE_DBCONFIG_RESET_DATABASE 1)
            (sqlite3_db_config SQLITE_DBCONFIG_RESET_DATABASE 1);
  (if bool_decide (rc ≠ SQLITE_OK) then
     throw (JSError "Failed to enable reset database mode")
   else mret tt);;
  executeMultiple "vacuum";;
  rc ← call (call_db_config SQLITE_DBCONFIG_RESET_DATABASE 0)
            (sqlite3_db_config SQLITE_DBCONFIG_RESET_DATABASE 0);
  (if bool_decide (rc ≠ SQLITE_OK) then
     throw (JSError "Failed to disable reset database mode")
   else mret tt);;
  beginTransaction.

(** Its [try] block. *)
Definition unsafeResetDatabase_try (schema : string) (schemaVersion : Z) : M unit :=
  modify (set_cachedRecords_ ∅);;
  executeMultiple schema;;
  setUserVersion schemaVersion;;
  commit.

Definition unsafeResetDatabase (schema : string) (schemaVersion : Z) : M unit :=
  unsafeResetDatabase_open;;
  try_catch (unsafeResetDatabase_try schema schemaVersion) (λ ex, rollback;; throw ex).

Definition migrate (migrationSql : string) (fromVersion toVersion : Z) : M unit :=
  beginTransaction;;
  try_catch
    (assertM (version ← getUserVersion; mret (bool_decide (version = fromVersion)))
             "getUserVersion() == fromVersion && Incompatible migration set";;
     executeMultiple migrationSql;;
     setUserVersion toVersion;;
     commit)
    (λ ex, rollback;; throw ex).

(** ** Descriptions used by the statements below *)

(** The keys [batch] appends for the operations whose cacheBehavior is [c]
    (1: [addedIds], -1: [removedIds]), in order. *)
Definition key_of_args (table : string) (args : list Value) : option string :=
  match args with
  | JsString id :: _ => Some (cacheKey table id)
  | _ => None
  end.

Definition keys_of_operation (c : Z) (op : operation) : list string :=
  if bool_decide (op_cacheBehavior op = c)
  then omap (key_of_args (op_table op)) (op_argsBatches op)
  else [].

Definition addedIds_of (operations : list operation) : list string :=
  concat (map (keys_of_operation 1) operations).

Definition removedIds_of (operations : list operation) : list string :=
  concat (map (keys_of_operation (-1)) operations).

(** Every mention of a key in a batch, in order, with the cacheBehavior of
    the operation that mentions it. *)
Definition mentions_of_operation (op : operation) : list (Z * string) :=
  if bool_decide (op_cacheBehavior op = 0%Z) then []
  else omap (λ args, pair (op_cacheBehavior op) <$> key_of_args (op_table op) args)
            (op_argsBatches op).

Definition mentions (operations : list operation) : list (Z * string) :=
  concat (map mentions_of_operation operations).

(** The cacheBehavior of the last mention of [k], if there is one. *)
Definition last_mention (k : string) (ms : list (Z * string)) : option Z :=
  foldl (λ acc m, if String.eqb (snd m) k then Some (fst m) else acc) None ms.

(** The exception [dbError description] makes when the connection is [e]. *)
Definition DbError (description : string) (e : E) : exception :=
  JSError (description ++ " - sqlite error " ++ to_string (sqlite3_extended_errcode e)
           ++ " (" ++ sqlite3_errmsg e ++ ")").

(** The object state after a call [c] that left the connection at [e]. *)
Definition after_call (c : sqlite3_call) (e : E) (d : Database) : Database :=
  set_calls (c :: calls d) (set_db_ e d).

(** The connection after the engine has taken every argument of a list,
    from placeholder [i + 1] on; [None] when an argument is of a kind
    that cannot be bound or when the engine refuses one. *)
Fixpoint bind_arguments (statement : sqlite3_stmt) (i : Z) (arguments : list Value) (e : E)
  : option E :=
  match arguments with
  | [] => Some e
  | value :: rest =>
      r ← match value with
          | Null | Undefined => Some (sqlite3_bind_null statement (i + 1) e)
          | JsString s => Some (sqlite3_bind_text statement (i + 1) s e)
          | Number n => Some (sqlite3_bind_double statement (i + 1) n e)
          | Bool b => Some (sqlite3_bind_int statement (i + 1) (if b then 1 else 0) e)
          | Object _ | Array _ | Symbol => None
          end;
      if bool_decide (fst r = SQLITE_OK)
      then bind_arguments statement (i + 1) rest (snd r)
      else None
  end%Z.

(** The rows a statement yields: stepping from [e] gives [SQLITE_ROW] with
    the connection at each of [rows] in turn, then [SQLITE_DONE] at [e']. *)
Inductive yields (statement : sqlite3_stmt) : E → list E → E → Prop :=
| yields_done e e' :
    sqlite3_step statement e = (SQLITE_DONE, e') → yields statement e [] e'
| yields_row e e1 rows e' :
    sqlite3_step statement e = (SQLITE_ROW, e1) →
    yields statement e1 rows e' →
    yields statement e (e1 :: rows) e'.

(** The column-type mapping of the result shapers, for column [i] of the
    row the statement stands on; [None] for a type that is not supported. *)
Definition column_value (statement : sqlite3_stmt) (e : E) (i : Z) : option Value :=
  let type := sqlite3_column_type statement i e in
  if bool_decide (type = SQLITE_INTEGER) then
    Some (Number (cast_double (sqlite3_column_int64 statement i e)))
  else if bool_decide (type = SQLITE_FLOAT) then
    Some (Number (sqlite3_column_double statement i e))
  else if bool_decide (type = SQLITE_TEXT) then
    Some (match sqlite3_column_text statement i e with
          | Some text => JsString text
          | None => Null
          end)
  else if bool_decide (type = SQLITE_NULL) then Some Null
  else None.

(** The columns of the row, and their names. *)
Definition column_indices (statement : sqlite3_stmt) (e : E) : list Z :=
  seqZ 0 (sqlite3_column_count statement e).

Definition column_names (statement : sqlite3_stmt) (e : E) : list (option string) :=
  (λ i, sqlite3_column_name statement i e) <$> column_indices statement e.

(** The Positional Array of a row: its column values in order. *)
Definition positional_array (statement : sqlite3_stmt) (e : E) : option Value :=
  Array <$> mapM (column_value statement e) (column_indices statement e).

(** The Column Header Array of a row. *)
Definition column_header (statement : sqlite3_stmt) (e : E) : option Value :=
  Array <$> mapM (λ i, JsString <$> sqlite3_column_name statement i e)
                 (column_indices statement e).

(** Sets the properties listed, in order. *)
Definition setProperties (props : list (string * Value)) (nvs : list (string * Value))
  : list (string * Value) :=
  foldl (λ acc nv, setProperty acc (fst nv) (snd nv)) props nvs.

(** What [queryAsArray] pushes first: the header of the first row, when
    there is a row. *)
Definition array_header (statement : sqlite3_stmt) (rows : list E) : option (list Value) :=
  match rows with
  | [] => Some []
  | e :: _ => header ← column_header statement e; Some [header]
  end.

(** What [queryAsArray] pushes for the rows [rows] after the header, and
    the identity cache it leaves, from the cache [cached]. *)
Fixpoint array_rows (tableName : string) (statement : sqlite3_stmt)
    (cached : gset string) (rows : list E) : option (list Value * gset string) :=
  match rows with
  | [] => Some ([], cached)
  | e :: rest =>
      id ← sqlite3_column_text statement 0 e;
      if bool_decide (cacheKey tableName id ∈ cached) then
        '(items, cached') ← array_rows tableName statement cached rest;
        Some (JsString id :: items, cached')
      else
        record ← positional_array statement e;
        '(items, cached') ←
          array_rows tableName statement ({[cacheKey tableName id]} ∪ cached) rest;
        Some (record :: items, cached')
  end.

(** The cache keys of rows, those with a null id left out. *)
Definition row_keys (tableName : string) (statement : sqlite3_stmt) (rows : list E)
  : list string :=
  omap (λ e, cacheKey tableName <$> sqlite3_column_text statement 0 e) rows.

(** The turns of the loop of [query] that each consume a row and go on:
    from the records and object state on the left to those on the right,
    over the rows listed. *)
Inductive query_turns (tableName : string) (statement : sqlite3_stmt)
  : list Value → Database → list E → list Value → Database → Prop :=
| query_turns_nil records d : query_turns tableName statement records d [] records d
| query_turns_cons records d records1 d1 rows records2 d2 :
    query_row tableName statement records d = (Ret (Some records1), d1) →
    query_turns tableName statement records1 d1 rows records2 d2 →
    query_turns tableName statement records d (db_ d1 :: rows) records2 d2.

(** A method [respects] a relation on object states when every run of it,
    whatever its outcome, takes a state to a related one. *)
Definition respects (R : relation Database) {A} (m : M A) : Prop :=
  ∀ d o d', m d = (o, d') → R d d'.

(** The identity cache is the same. *)
Definition same_cache : relation Database :=
  λ d d', cachedRecords_ d' = cachedRecords_ d.

(** The identity cache has not lost a key. *)
Definition cache_grows : relation Database :=
  λ d d', cachedRecords_ d ⊆ cachedRecords_ d'.

(** Only calls that satisfy [P] were made on the connection. *)
Definition calls_added (P : sqlite3_call → Prop) : relation Database :=
  λ d d', ∃ l, calls d' = (l ++ calls d)%list ∧ Forall P l.

(** A call of [sqlite3_exec]. *)
Definition is_exec (c : sqlite3_call) : Prop :=
  match c with call_exec _ => True | _ => False end.

(** ** The other methods of the class *)

(** One turn of the [while (true)] of [queryIds]. *)
Definition queryIds_row (statement : sqlite3_stmt) (ids : list Value)
  : M (option (list Value)) :=
  done ← getNextRowOrTrue statement;
  if done : bool then mret None
  else
    assert_first_column_is_id statement;;
    idText ← peek (sqlite3_column_text statement 0);
    match idText with
    | None => throw MissingId
    | Some idText => mret (Some (ids ++ [JsString idText])%list)
    end.

Definition queryIds (fuel : nat) (sql : string) (arguments : list Value) : M Value :=
  executeQuery sql arguments
    (λ statement,
       ids ← while_true fuel (queryIds_row statement) [];
       mret (arrayFromStd ids)).

(** One turn of the [while (true)] of [unsafeQueryRaw]. *)
Definition unsafeQueryRaw_row (statement : sqlite3_stmt) (raws : list Value)
  : M (option (list Value)) :=
  done ← getNextRowOrTrue statement;
  if done : bool then mret None
  else
    raw ← resultDictionary statement;
    mret (Some (raws ++ [raw])%list).

Definition unsafeQueryRaw (fuel : nat) (sql : string) (arguments : list Value) : M Value :=
  executeQuery sql arguments
    (λ statement,
       raws ← while_true fuel (unsafeQueryRaw_row statement) [];
       mret (arrayFromStd raws)).

Definition getLocal (key : string) : M Value :=
  executeQuery "select value from local_storage where key = ?" [JsString key]
    (λ statement,
       done ← getNextRowOrTrue statement;
       if done : bool then mret Null
       else
         assertM (n ← peek (sqlite3_data_count statement); mret (bool_decide (n = 1%Z)))
                 "sqlite3_data_count(statement.stmt) == 1";;
         text ← peek (sqlite3_column_text statement 0);
         match text with
         | None => mret Null
         | Some text => mret (JsString text)
         end).

(** [Database::~Database]: every statement of the statement cache is
    finalized, then the cache is emptied.  The order in which the
    container hands out its entries is the container's; [map_to_list]
    stands for it.  (The connection is closed afterwards by the
    destructor of [SqliteDb], which is not among the sources.) *)
Definition Database_destructor : M unit :=
  d ← get;
  for_each (map_to_list (cachedStatements_ d))
    (λ cachedStatement _,
       let statement := snd cachedStatement in
       call_ (call_finalize statement) (sqlite3_finalize statement)) tt;;
  modify (set_cachedStatements_ ∅).

(** ** Descriptions used by the further statements *)

(** The [try] block of [migrate]. *)
Definition migrate_try (migrationSql : string) (fromVersion toVersion : Z) : M unit :=
  assertM (version ← getUserVersion; mret (bool_decide (version = fromVersion)))
          "getUserVersion() == fromVersion && Incompatible migration set";;
  executeMultiple migrationSql;;
  setUserVersion toVersion;;
  commit.

(** A text without the [$] sign. *)
Fixpoint no_dollar (s : string) : bool :=
  match s with
  | EmptyString => true
  | String c rest => negb (Ascii.eqb c "$"%char) && no_dollar rest
  end.

(** No statement that is not null has left the statement cache or changed
    its key. *)
Definition statements_kept : relation Database :=
  λ d d', ∀ sql statement,
    cachedStatements_ d !! sql = Some statement →
    statement ≠ nullptr →
    cachedStatements_ d' !! sql = Some statement.

(** The call that binds [value] to the placeholder of argument [i], for a
    value of a kind that can be bound. *)
Definition bind_call (statement : sqlite3_stmt) (i : Z) (value : Value)
  : option sqlite3_call :=
  match value with
  | Null | Undefined => Some (call_bind_null statement (i + 1))
  | JsString s => Some (call_bind_text statement (i + 1) s)
  | Number n => Some (call_bind_double statement (i + 1) n)
  | Bool b => Some (call_bind_int statement (i + 1) (if b then 1 else 0))
  | Object _ | Array _ | Symbol => None
  end%Z.

(** The calls that bind the arguments of a list, from argument [i] on, in
    the order of the list. *)
Fixpoint bind_calls (statement : sqlite3_stmt) (i : Z) (arguments : list Value)
  : list sqlite3_call :=
  match arguments with
  | [] => []
  | value :: rest =>
      match bind_call statement i value with
      | Some c => c :: bind_calls statement (i + 1) rest
      | None => bind_calls statement (i + 1) rest
      end
  end%Z.

(** The error [bindArgs] throws for a value that cannot be bound. *)
Definition InvalidArgType (value : Value) : exception :=
  match value with
  | Symbol => InvalidArgType_unknown
  | _ => InvalidArgType_object
  end.

(** A method whose every thrown error is the last line printed on the
    console. *)
Definition logs_what_it_throws {A} (m : M A) : Prop :=
  ∀ d ex d', m d = (Throw ex, d') → head (console d') = Some (what ex).

(** The console has only been printed to. *)
Definition console_grows : relation Database :=
  λ d d', ∃ l, console d' = (l ++ console d)%list.

(** Steps that each give a row: from [e], over the connection at each of
    [rows] in turn; the last of them is [e']. *)
Inductive stepped (statement : sqlite3_stmt) : E → list E → E → Prop :=
| stepped_nil e : stepped statement e [] e
| stepped_row e e1 rows e' :
    sqlite3_step statement e = (SQLITE_ROW, e1) →
    stepped statement e1 rows e' →
    stepped statement e (e1 :: rows) e'.

(** The Dictionary of a row: the column values under the column names, set
    in column order; [None] when a name is null or a type not supported. *)
Definition dictionary_of (statement : sqlite3_stmt) (e : E) : option Value :=
  names ← mapM (λ i, sqlite3_column_name statement i e) (column_indices statement e);
  values ← mapM (column_value statement e) (column_indices statement e);
  Some (Object (setProperties [] (zip names values))).

(** What [query] pushes for the rows [rows], and the identity cache it
    leaves, from the cache [cached]. *)
Fixpoint record_rows (tableName : string) (statement : sqlite3_stmt)
    (cached : gset string) (rows : list E) : option (list Value * gset string) :=
  match rows with
  | [] => Some ([], cached)
  | e :: rest =>
      id ← sqlite3_column_text statement 0 e;
      if bool_decide (cacheKey tableName id ∈ cached) then
        '(items, cached') ← record_rows tableName statement cached rest;
        Some (JsString id :: items, cached')
      else
        record ← dictionary_of statement e;
        '(items, cached') ←
          record_rows tableName statement ({[cacheKey tableName id]} ∪ cached) rest;
        Some (record :: items, cached')
  end.

(** An element of the result of [query] beside the element of the result
    of [queryAsArray] for the same row: the same id string, or a
    Dictionary beside a Positional Array. *)
Definition same_row_shape (record item : Value) : Prop :=
  match record, item with
  | JsString id, JsString id' => id = id'
  | Object _, Array _ => True
  | _, _ => False
  end.

End Bridge.

Arguments Value : clear implicits.
Arguments Database : clear implicits.
Arguments operation : clear implicits.

(** ** A small engine to run the bridge on

    A connection that answers from a catalog of known statements: enough
    of an engine to evaluate the methods above on concrete inputs.  Host
    numbers are integers here. *)
Module Toy.

Inductive cell : Type :=
| CInteger (n : Z)
| CFloat (d : Z)
| CText (s : string)
| CNull
| CBlob.

(** What the catalog knows about an SQL text. *)
Inductive statement_kind : Type :=
| Select (columns : list string) (rows : list (list cell))
| Update.

Record conn : Type := mkConn {
  (* another connection holds the write lock of the database file *)
  locked : bool;
  catalog : list (string * statement_kind);
  user_version : Z;
  (* statement handle [h] is the [h]-th entry: its text and how many rows were stepped *)
  statements : list (string * nat);
  (* scripts run by sqlite3_exec, most recent first *)
  executed : list string;
  (* the user version and scripts saved by [begin] *)
  transaction : option (Z * list string)
}.

Definition version_pragma : string := "pragma user_version = ".

Definition parse_version (sql : string) : option Z :=
  if String.prefix version_pragma sql then
    option_map Z.of_int
      (NilZero.int_of_string
         (substring (String.length version_pragma)
                    (String.length sql - String.length version_pragma) sql))
  else None.

Fixpoint lookup_catalog (c : list (string * statement_kind)) (sql : string)
  : option statement_kind :=
  match c with
  | [] => None
  | (s, k) :: rest => if String.eqb s sql then Some k else lookup_catalog rest sql
  end.

Definition kind_of (e : conn) (sql : string) : option statement_kind :=
  if String.eqb sql "begin exclusive transaction" then Some Update
  else if String.eqb sql "commit transaction" then Some Update
  else if String.eqb sql "rollback transaction" then Some Update
  else if String.eqb sql "pragma user_version" then
    Some (Select ["user_version"] [[CInteger (user_version e)]])
  else match parse_version sql with
       | Some _ => Some Update
       | None => lookup_catalog (catalog e) sql
       end.

Definition statement_at (e : conn) (h : sqlite3_stmt) : option (string * nat) :=
  if bool_decide (h = nullptr) then None else statements e !! (N.to_nat h - 1)%nat.

Definition set_cursor (h : sqlite3_stmt) (n : nat) (e : conn) : conn :=
  match statement_at e h with
  | Some (sql, _) =>
      mkConn (locked e) (catalog e) (user_version e)
             (<[(N.to_nat h - 1)%nat := (sql, n)]> (statements e))
             (executed e) (transaction e)
  | None => e
  end.

Definition prepare_v2 (sql : string) (e : conn) : (Z * sqlite3_stmt) * conn :=
  match kind_of e sql with
  | Some _ =>
      ((SQLITE_OK, N.of_nat (S (length (statements e)))),
       mkConn (locked e) (catalog e) (user_version e) (statements e ++ [(sql, 0%nat)])%list
              (executed e) (transaction e))
  | None => ((1%Z, nullptr), e)
  end.

Fixpoint count_placeholders (sql : string) : Z :=
  match sql with
  | EmptyString => 0
  | String c rest =>
      ((if Ascii.eqb c "?"%char then 1 else 0) + count_placeholders rest)%Z
  end.

Definition bind_parameter_count (h : sqlite3_stmt) (e : conn) : Z :=
  match statement_at e h with
  | Some (sql, _) => count_placeholders sql
  | None => 0%Z
  end.

Definition bind_any (h : sqlite3_stmt) (e : conn) : Z * conn :=
  match statement_at e h with
  | Some _ => (SQLITE_OK, e)
  | None => (21%Z, e)
  end.

(** The effect of a statement that ran to [SQLITE_DONE]. *)
Definition run_update (sql : string) (e : conn) : Z * conn :=
  if String.eqb sql "begin exclusive transaction" then
    if locked e then (SQLITE_BUSY, e) else
    match transaction e with
    | None => (SQLITE_DONE,
               mkConn (locked e) (catalog e) (user_version e) (statements e) (executed e)
                      (Some (user_version e, executed e)))
    | Some _ => (1%Z, e)
    end
  else if String.eqb sql "commit transaction" then
    match transaction e with
    | Some _ => (SQLITE_DONE,
                 mkConn (locked e) (catalog e) (user_version e) (statements e) (executed e) None)
    | None => (1%Z, e)
    end
  else if String.eqb sql "rollback transaction" then
    match transaction e with
    | Some (v, x) => (SQLITE_DONE, mkConn (locked e) (catalog e) v (statements e) x None)
    | None => (1%Z, e)
    end
  else match parse_version sql with
       | Some v => (SQLITE_DONE,
                    mkConn (locked e) (catalog e) v (statements e) (executed e) (transaction e))
       | None => (SQLITE_DONE, e)
       end.

Definition step (h : sqlite3_stmt) (e : conn) : Z * conn :=
  match statement_at e h with
  | None => (21%Z, e)
  | Some (sql, cursor) =>
      match kind_of e sql with
      | Some (Select _ rows) =>
          if bool_decide (cursor < length rows)%nat
          then (SQLITE_ROW, set_cursor h (S cursor) e)
          else (SQLITE_DONE, e)
      | Some Update => run_update sql e
      | None => (1%Z, e)
      end
  end.

Definition exec (sql : string) (e : conn) : (Z * option string) * conn :=
  match lookup_catalog (catalog e) sql with
  | Some Update =>
      ((SQLITE_OK, None),
       mkConn (locked e) (catalog e) (user_version e) (statements e) (sql :: executed e)
              (transaction e))
  | _ => ((1%Z, Some "syntax error"), e)
  end.

(** The columns of a statement and the row it stands on. *)
Definition columns_of (h : sqlite3_stmt) (e : conn) : list string :=
  match statement_at e h with
  | Some (sql, _) =>
      match kind_of e sql with Some (Select columns _) => columns | _ => [] end
  | None => []
  end.

Definition current_row (h : sqlite3_stmt) (e : conn) : list cell :=
  match statement_at e h with
  | Some (sql, cursor) =>
      match kind_of e sql with
      | Some (Select _ rows) => default [] (rows !! (cursor - 1)%nat)
      | _ => []
      end
  | None => []
  end.

Definition cell_at (h : sqlite3_stmt) (i : Z) (e : conn) : cell :=
  default CNull (current_row h e !! Z.to_nat i).

Definition column_type (h : sqlite3_stmt) (i : Z) (e : conn) : Z :=
  match cell_at h i e with
  | CInteger _ => SQLITE_INTEGER
  | CFloat _ => SQLITE_FLOAT
  | CText _ => SQLITE_TEXT
  | CNull => SQLITE_NULL
  | CBlob => SQLITE_BLOB
  end.

Definition column_int64 (h : sqlite3_stmt) (i : Z) (e : conn) : Z :=
  match cell_at h i e with CInteger n | CFloat n => n | _ => 0%Z end.

Definition column_text (h : sqlite3_stmt) (i : Z) (e : conn) : option string :=
  match cell_at h i e with
  | CText s => Some s
  | CInteger n | CFloat n => Some (to_string n)
  | CNull | CBlob => None
  end.

#[global] Instance number : HostNumber Z := {| cast_double := λ n, n |}.

#[global] Instance engine : Sqlite3 (double := Z) conn := {|
  sqlite3_prepare_v2 := prepare_v2;
  sqlite3_finalize := λ _ e, e;
  sqlite3_reset := λ h e, set_cursor h 0 e;
  sqlite3_bind_parameter_count := bind_parameter_count;
  sqlite3_bind_null := λ h _ e, bind_any h e;
  sqlite3_bind_text := λ h _ _ e, bind_any h e;
  sqlite3_bind_double := λ h _ _ e, bind_any h e;
  sqlite3_bind_int := λ h _ _ e, bind_any h e;
  sqlite3_step := step;
  sqlite3_exec := exec;
  sqlite3_db_config := λ _ _ e, (SQLITE_OK, e);
  sqlite3_column_count := λ h e, Z.of_nat (length (columns_of h e));
  sqlite3_data_count := λ h e, Z.of_nat (length (current_row h e));
  sqlite3_column_name := λ h i e, columns_of h e !! Z.to_nat i;
  sqlite3_column_type := column_type;
  sqlite3_column_int := column_int64;
  sqlite3_column_int64 := column_int64;
  sqlite3_column_double := column_int64;
  sqlite3_column_text := column_text;
  sqlite3_errmsg := λ _, "toy engine error";
  sqlite3_extended_errcode := λ _, 1%Z
|}.

Definition debug : Build := {| NDEBUG := false |}.
Definition release : Build := {| NDEBUG := true |}.

(** A table [t(id, v)] with two rows, and the statements the examples use. *)
Definition t_rows : list (list cell) :=
  [[CText "a"; CText "x"]; [CText "b"; CInteger 7]].

Definition sample_catalog : list (string * statement_kind) :=
  [("select * from `t` where id == ? limit 1", Select ["id"; "v"] (take 1 t_rows));
   ("select * from t", Select ["id"; "v"] t_rows);
   ("select * from t where id=?", Select ["id"; "v"] (take 1 t_rows));
   ("select * from t where 0", Select ["id"; "v"] []);
   ("select count(*) from t", Select ["count(*)"] [[CInteger 2]]);
   ("select id from t", Select ["id"] [[CText "a"]; [CText "b"]]);
   ("insert into t values(?, ?)", Update);
   ("delete from t where id=?", Update);
   ("create table t(id text primary key, v text);", Update);
   ("alter table t add column w text;", Update);
   ("vacuum", Update);
   ("select * from files",
    Select ["id"; "data"] [[CText "a"; CText "x"]; [CText "b"; CBlob]]);
   ("select n from counts", Select ["n"] [[CInteger 4]; [CInteger 9]]);
   ("select t.id, u.id from t join u", Select ["id"; "id"] [[CText "a"; CText "b"]])].

Definition open (version : Z) : conn := mkConn false sample_catalog version [] [] None.

Definition fresh (version : Z) (cached : list string) : Database Z conn :=
  mkDatabase (open version) ∅ (list_to_set cached) [] [].

(** The object state with the statement for [sql] prepared and bound to no
    argument, then standing on its first row. *)
Definition prepared (sql : string) : Database Z conn :=
  snd (bindArgs 1%N [] (snd (prepareQuery (build := release) sql (fresh 3 [])))).

Definition on_first_row (sql : string) : Database Z conn :=
  snd (getNextRowOrTrue 1%N (prepared sql)).



Definition delete_then_insert : list (operation Z) :=
  [mkOperation (-1)%Z "t" "delete from t where id=?" [[JsString "a"]];
   mkOperation 1%Z "t" "insert into t values(?, ?)" [[JsString "a"; JsString "x"]]].

Definition insert_a : list (operation Z) :=
  [mkOperation 1%Z "t" "insert into t values(?, ?)" [[JsString "a"; JsString "x"]]].

(** A transaction begun, and the user version read in it. *)
Definition begun : Database Z conn :=
  snd (beginTransaction (build := debug) (fresh 3 [])).

Definition version_read : Database Z conn :=
  snd (getUserVersion (build := debug) begun).




(** The first turn of [query] over [files], whose second row holds a blob. *)
Definition files_first_turn : outcome (option (list (Value Z))) * Database Z conn :=
  query_row (build := release) "files" 1%N [] (prepared "select * from files").

Definition files_records : list (Value Z) :=
  match fst files_first_turn with
  | Ret (Some records) => records
  | _ => []
  end.

(** More statements: a key-value table, and a table with a row whose id
    is null. *)
Definition storage_catalog : list (string * statement_kind) :=
  (sample_catalog ++
   [("select value from local_storage where key = ?", Select ["value"] [[CText "dark"]]);
    ("select id from orphans", Select ["id"] [[CText "a"]; [CNull]; [CText "c"]])])%list.

Definition fresh_storage (cached : list string) : Database Z conn :=
  mkDatabase (mkConn false storage_catalog 3 [] [] None) ∅ (list_to_set cached) [] [].

(** The object state with the statement for [sql] prepared, from [d]. *)
Definition prepared_from (sql : string) (d : Database Z conn) : Database Z conn :=
  snd (prepareQuery (build := release) sql d).

End Toy.

(** * Properties *)

Section Properties.

Context {double : Type} {host_number : HostNumber double}.
Context {E : Type} {engine : Sqlite3 (double := double) E} {build : Build}.

Local Abbreviation Database := (Database double E).
Local Abbreviation Value := (Value double).
Local Abbreviation M := (@M double E).
Local Abbreviation operation := (operation double).
Local Abbreviation same_cache := (@same_cache double E).
Local Abbreviation calls_added := (@calls_added double E).
Local Abbreviation cache_grows := (@cache_grows double E).

Local Set Warnings "-clear-no-such-hyp".

(** Unfolds the monad of methods. *)
Ltac unfold_M :=
  unfold mbind, M_bind, mret, M_ret, bind, ret, throw, abort, get, modify, peek, call_,
    call, consoleError, try_catch in *.

(** Splits the run of [m] in the goal or in a hypothesis by its outcome. *)
Ltac run_cases m d :=
  let a := fresh "a" in
  let ex := fresh "ex" in
  let w := fresh "w" in
  let d1 := fresh "d" in
  let Hm := fresh "Hrun" in
  destruct (m d) as [[a | ex | w |] d1] eqn:Hm.

(** ** Sequencing *)

Lemma bind_Ret {A B} (m : M A) (k : A → M B) d a d1 :
  m d = (Ret a, d1) → (m ≫= k) d = k a d1.
Proof. intros H. unfold mbind, M_bind, bind. rewrite H. reflexivity. Qed.

Lemma bind_Throw {A B} (m : M A) (k : A → M B) d ex d1 :
  m d = (Throw ex, d1) → (m ≫= k) d = (Throw ex, d1).
Proof. intros H. unfold mbind, M_bind, bind. rewrite H. reflexivity. Qed.

Lemma bind_Abort {A B} (m : M A) (k : A → M B) d w d1 :
  m d = (Abort w, d1) → (m ≫= k) d = (Abort w, d1).
Proof. intros H. unfold mbind, M_bind, bind. rewrite H. reflexivity. Qed.

Lemma bind_Ret_inv {A B} (m : M A) (k : A → M B) d b d' :
  (m ≫= k) d = (Ret b, d') → ∃ a d1, m d = (Ret a, d1) ∧ k a d1 = (Ret b, d').
Proof.
  unfold mbind, M_bind, bind. run_cases m d; intros H; try discriminate. eauto.
Qed.

Lemma bind_Throw_inv {A B} (m : M A) (k : A → M B) d ex d' :
  (m ≫= k) d = (Throw ex, d') →
  m d = (Throw ex, d') ∨ ∃ a d1, m d = (Ret a, d1) ∧ k a d1 = (Throw ex, d').
Proof.
  unfold mbind, M_bind, bind. run_cases m d; intros H; try discriminate.
  - right. eauto.
  - left. inversion H. reflexivity.
Qed.

(** ** State relations respected by the methods *)

Section Respects.

Variable R : relation Database.
Context {R_pre : PreOrder R}.

Lemma respects_ret {A} (a : A) : respects R (mret a : M A).
Proof. intros d o d' H. unfold_M. inversion H. reflexivity. Qed.

Lemma respects_throw {A} ex : respects R (throw ex : M A).
Proof. intros d o d' H. unfold_M. inversion H. reflexivity. Qed.

Lemma respects_abort {A} w : respects R (abort w : M A).
Proof. intros d o d' H. unfold_M. inversion H. reflexivity. Qed.

Lemma respects_get : respects R (get : M Database).
Proof. intros d o d' H. unfold_M. inversion H. reflexivity. Qed.

Lemma respects_peek {A} (f : E → A) : respects R (peek f : M A).
Proof. intros d o d' H. unfold_M. inversion H. reflexivity. Qed.

Lemma respects_bind {A B} (m : M A) (k : A → M B) :
  respects R m → (∀ a, respects R (k a)) → respects R (m ≫= k).
Proof.
  intros Hm Hk d o d' H. unfold mbind, M_bind, bind in H.
  run_cases m d; try (inversion H; subst; eapply Hm; eassumption).
  etransitivity; [eapply Hm | eapply Hk]; eassumption.
Qed.

Lemma respects_try_catch {A} (body : M A) handler :
  respects R body → (∀ ex, respects R (handler ex)) → respects R (try_catch body handler).
Proof.
  intros Hm Hk d o d' H. unfold try_catch in H.
  run_cases body d; try (inversion H; subst; eapply Hm; eassumption).
  etransitivity; [eapply Hm | eapply Hk]; eassumption.
Qed.

Lemma respects_for_each {A S} (l : list A) (body : A → S → M S) s :
  (∀ x s, respects R (body x s)) → respects R (for_each l body s).
Proof.
  intros Hbody. revert s. induction l as [| x l IH]; intros s; simpl.
  - apply respects_ret.
  - apply respects_bind; auto.
Qed.

Lemma respects_while_true {S} fuel (turn : S → M (option S)) s :
  (∀ s, respects R (turn s)) → respects R (while_true fuel turn s).
Proof.
  intros Hturn. revert s. induction fuel as [| fuel IH]; intros s; simpl.
  - intros d o d' H. inversion H. reflexivity.
  - apply respects_bind; auto. intros [s' |]; auto using respects_ret.
Qed.

Lemma respects_assertM cond text : respects R cond → respects R (assertM cond text).
Proof.
  intros Hc. unfold assertM. destruct NDEBUG.
  - apply respects_ret.
  - apply respects_bind; auto. intros []; [apply respects_ret | apply respects_abort].
Qed.

Lemma respects_assert cond text : respects R (assert cond text).
Proof. apply respects_assertM, (respects_ret (A := bool)). Qed.

(** What is left to show for a relation: the primitive steps.  Calls on
    the connection other than [sqlite3_exec], console output and updates
    of the statement cache. *)
Hypothesis R_call : ∀ c A (f : E → A * E), ¬ is_exec c → respects R (call c f).
Hypothesis R_console : ∀ message, respects R (consoleError message).
Hypothesis R_statements : ∀ f, respects R (modify (λ d, set_cachedStatements_ (f d) d)).

Lemma respects_call_ c f : ¬ is_exec c → respects R (call_ c f).
Proof. apply R_call. Qed.

Lemma respects_SqliteStatement {A} stmt (scope : M A) :
  respects R scope → respects R (SqliteStatement stmt scope).
Proof.
  intros Hs d o d' H. unfold SqliteStatement in H.
  run_cases scope d; inversion H; subst; try (eapply Hs; eassumption).
  - etransitivity; [eapply Hs; eassumption |].
    eapply (respects_call_ (call_reset stmt) (sqlite3_reset stmt)); [intros [] | reflexivity].
  - etransitivity; [eapply Hs; eassumption |].
    eapply (respects_call_ (call_reset stmt) (sqlite3_reset stmt)); [intros [] | reflexivity].
Qed.

(** Goes through the code of a method, one construct after the other. *)
Ltac respects_step :=
  lazymatch goal with
  | |- respects _ (mbind _ _) => apply respects_bind; [| intros ?]
  | |- respects _ (mret _) => apply respects_ret
  | |- respects _ (ret _) => apply respects_ret
  | |- respects _ (throw _) => apply respects_throw
  | |- respects _ (abort _) => apply respects_abort
  | |- respects _ get => apply respects_get
  | |- respects _ (peek _) => apply respects_peek
  | |- respects _ (assert _ _) => apply respects_assert
  | |- respects _ (assertM _ _) => apply respects_assertM
  | |- respects _ (try_catch _ _) => apply respects_try_catch; [| intros ?]
  | |- respects _ (for_each _ _ _) => apply respects_for_each; intros ? ?
  | |- respects _ (while_true _ _ _) => apply respects_while_true; intros ?
  | |- respects _ (SqliteStatement _ _) => apply respects_SqliteStatement
  | |- respects _ (call _ _) => apply R_call; intros []
  | |- respects _ (call_ _ _) => apply respects_call_; intros []
  | |- respects _ (consoleError _) => apply R_console
  | |- respects _ (modify (set_cachedStatements_ ?m)) =>
      apply (R_statements (λ _, m))
  | |- respects _ (modify (λ d, set_cachedStatements_ _ d)) => apply R_statements
  | |- respects _ (if ?b then _ else _) => destruct b
  | |- respects _ (match ?x with _ => _ end) => destruct x
  end.

Lemma respects_dbError description : respects R (dbError description).
Proof. unfold dbError. repeat respects_step. Qed.

Lemma respects_prepareQuery sql : respects R (prepareQuery sql).
Proof. unfold prepareQuery. repeat (respects_step || apply respects_dbError). Qed.

Lemma respects_bindArgs_loop statement arguments i :
  respects R (bindArgs_loop statement i arguments).
Proof.
  revert i. induction arguments as [| value rest IH]; intros i; simpl.
  - apply respects_ret.
  - apply respects_bind.
    + destruct value; repeat respects_step.
    + intros bindResult. destruct (bool_decide _); [| apply IH].
      repeat (respects_step || apply respects_dbError).
Qed.

Lemma respects_bindArgs statement arguments : respects R (bindArgs statement arguments).
Proof.
  unfold bindArgs. respects_step; [respects_step |].
  destruct (bool_decide _); [repeat respects_step | apply respects_bindArgs_loop].
Qed.

Lemma respects_executeQuery {A} sql arguments (scope : sqlite3_stmt → M A) :
  (∀ statement, respects R (scope statement)) →
  respects R (executeQuery sql arguments scope).
Proof.
  intros Hs. unfold executeQuery.
  repeat (respects_step || apply respects_prepareQuery || apply respects_bindArgs || apply Hs).
Qed.

Lemma respects_executeUpdate_stmt statement : respects R (executeUpdate_stmt statement).
Proof. unfold executeUpdate_stmt. repeat (respects_step || apply respects_dbError). Qed.

Lemma respects_executeUpdate_args sql args : respects R (executeUpdate_args sql args).
Proof.
  unfold executeUpdate_args.
  repeat (respects_step || apply respects_prepareQuery || apply respects_bindArgs
          || apply respects_executeUpdate_stmt).
Qed.

Lemma respects_executeUpdate sql : respects R (executeUpdate sql).
Proof.
  unfold executeUpdate.
  repeat (respects_step || apply respects_prepareQuery || apply respects_executeUpdate_stmt).
Qed.

Lemma respects_getRow stmt : respects R (getRow stmt).
Proof. unfold getRow. repeat (respects_step || apply respects_dbError). Qed.

Lemma respects_getNextRowOrTrue stmt : respects R (getNextRowOrTrue stmt).
Proof. unfold getNextRowOrTrue. repeat (respects_step || apply respects_dbError). Qed.

Lemma respects_resultDictionary statement : respects R (resultDictionary statement).
Proof.
  unfold resultDictionary, resultDictionary_column, setProperty_cstr. repeat respects_step.
Qed.

Lemma respects_resultArray statement : respects R (resultArray statement).
Proof. unfold resultArray, resultArray_column. repeat respects_step. Qed.

Lemma respects_resultColumns statement : respects R (resultColumns statement).
Proof. unfold resultColumns, resultColumns_column. repeat respects_step. Qed.

Lemma respects_assert_first_column_is_id statement :
  respects R (assert_first_column_is_id statement).
Proof. unfold assert_first_column_is_id. repeat respects_step. Qed.

Lemma respects_rollback : respects R rollback.
Proof. unfold rollback. repeat (respects_step || apply respects_executeUpdate). Qed.

Lemma respects_getUserVersion : respects R getUserVersion.
Proof.
  unfold getUserVersion. apply respects_executeQuery. intros statement.
  repeat (respects_step || apply respects_getRow).
Qed.

End Respects.

(** ** The identity cache is only written by its own methods *)

#[local] Instance same_cache_preorder : PreOrder same_cache.
Proof.
  split.
  - intros d. reflexivity.
  - intros d1 d2 d3 H12 H23. unfold same_cache in *. congruence.
Qed.

Lemma same_cache_call c A (f : E → A * E) : respects same_cache (call c f).
Proof.
  intros d o d' H. unfold call in H. destruct (f (db_ d)) as [a e'].
  inversion H. reflexivity.
Qed.

Lemma same_cache_console message : respects same_cache (consoleError message).
Proof. intros d o d' H. inversion H. reflexivity. Qed.

Lemma same_cache_statements f :
  respects same_cache (modify (λ d, set_cachedStatements_ (f d) d)).
Proof. intros d o d' H. inversion H. reflexivity. Qed.

(** Discharges the three primitive steps for [same_cache]. *)
Ltac same_cache_prims :=
  first [ typeclasses eauto
        | intros; apply same_cache_call
        | apply same_cache_console
        | apply same_cache_statements ].

Lemma same_cache_executeUpdate sql : respects same_cache (executeUpdate sql).
Proof. apply respects_executeUpdate; same_cache_prims. Qed.

Lemma same_cache_executeUpdate_args sql args :
  respects same_cache (executeUpdate_args sql args).
Proof. apply respects_executeUpdate_args; same_cache_prims. Qed.

Lemma same_cache_rollback : respects same_cache rollback.
Proof. apply respects_rollback; same_cache_prims. Qed.

Lemma same_cache_executeMultiple sql : respects same_cache (executeMultiple sql).
Proof.
  unfold executeMultiple. apply (respects_bind same_cache).
  - apply same_cache_call.
  - intros [resultExec [message |]]; [apply (respects_throw same_cache) |].
    destruct (bool_decide _); [| apply (respects_ret same_cache)].
    apply (respects_bind same_cache); [| intros; apply (respects_throw same_cache)].
    apply respects_dbError; same_cache_prims.
Qed.

Lemma same_cache_first_arg_string args : respects same_cache (first_arg_string args).
Proof.
  destruct args as [| [] rest]; simpl;
    first [ apply (respects_throw same_cache)
          | apply (respects_abort same_cache)
          | apply (respects_ret same_cache) ].
Qed.

Lemma same_cache_batch_args c table sql args ids :
  respects same_cache (batch_args c table sql args ids).
Proof.
  unfold batch_args. destruct ids as [addedIds removedIds].
  apply (respects_bind same_cache); [apply same_cache_executeUpdate_args |].
  intros _. destruct (bool_decide (c ≠ _)); [| apply (respects_ret same_cache)].
  apply (respects_bind same_cache); [apply same_cache_first_arg_string |].
  intros id. repeat destruct (bool_decide _); apply (respects_ret same_cache).
Qed.

Lemma same_cache_batch_try operations : respects same_cache (batch_try operations).
Proof.
  unfold batch_try. apply (respects_bind same_cache).
  - apply (respects_for_each same_cache). intros op ids.
    unfold batch_operation. apply (respects_for_each same_cache).
    intros args ids'. apply same_cache_batch_args.
  - intros ids. apply (respects_bind same_cache); [apply same_cache_executeUpdate |].
    intros _. apply (respects_ret same_cache).
Qed.

(** ** Batch *)

Lemma isCached_run k (d : Database) :
  isCached k d = (Ret (bool_decide (k ∈ cachedRecords_ d)), d).
Proof. reflexivity. Qed.

(** The keys collected by the loops of [batch] are those of
    [addedIds_of] and [removedIds_of]. *)
Lemma batch_args_ids c table sql batches : ∀ a r ids' (d d' : Database),
  for_each batches (batch_args c table sql) (a, r) d = (Ret ids', d') →
  ids' = ((a ++ if bool_decide (c = 1%Z) then omap (key_of_args table) batches else [])%list,
          (r ++ if bool_decide (c = (-1)%Z) then omap (key_of_args table) batches else [])%list).
Proof.
  induction batches as [| args batches IH]; intros a r ids' d d' H; simpl in H.
  - inversion H. repeat case_bool_decide; rewrite !app_nil_r; reflexivity.
  - apply bind_Ret_inv in H as ([a1 r1] & d1 & Hargs & Hrest).
    apply IH in Hrest. subst ids'.
    unfold batch_args in Hargs.
    apply bind_Ret_inv in Hargs as ([] & d2 & _ & Hargs).
    destruct (bool_decide (c ≠ 0%Z)) eqn:Hc.
    + apply bind_Ret_inv in Hargs as (id & d3 & Hid & Hargs).
      assert (Hkey : key_of_args table args = Some (cacheKey table id)).
      { destruct args as [| [] ?]; simpl in Hid; inversion Hid; reflexivity. }
      simpl. rewrite Hkey.
      repeat case_bool_decide; try lia; inversion Hargs; subst;
        rewrite <- ?app_assoc, ?app_nil_r; reflexivity.
    + apply bool_decide_eq_false in Hc.
      inversion Hargs; subst.
      repeat case_bool_decide; try lia; rewrite ?app_nil_r; try reflexivity; tauto.
Qed.

Lemma batch_operation_ids op a r ids' (d d' : Database) :
  batch_operation op (a, r) d = (Ret ids', d') →
  ids' = ((a ++ keys_of_operation 1 op)%list, (r ++ keys_of_operation (-1) op)%list).
Proof.
  unfold batch_operation, keys_of_operation. intros H.
  apply batch_args_ids in H. subst ids'.
  repeat case_bool_decide; try lia; try reflexivity; congruence.
Qed.

Lemma batch_operations_ids operations : ∀ a r ids' (d d' : Database),
  for_each operations batch_operation (a, r) d = (Ret ids', d') →
  ids' = ((a ++ addedIds_of operations)%list, (r ++ removedIds_of operations)%list).
Proof.
  unfold addedIds_of, removedIds_of.
  induction operations as [| op operations IH]; intros a r ids' d d' H; simpl in H.
  - inversion H. simpl. rewrite !app_nil_r. reflexivity.
  - apply bind_Ret_inv in H as ([a1 r1] & d1 & Hop & Hrest).
    apply batch_operation_ids in Hop. inversion Hop; subst.
    apply IH in Hrest. subst ids'. simpl. rewrite <- !app_assoc. reflexivity.
Qed.

Lemma batch_try_ids operations ids' (d d' : Database) :
  batch_try operations d = (Ret ids', d') →
  ids' = (addedIds_of operations, removedIds_of operations).
Proof.
  unfold batch_try. intros H.
  apply bind_Ret_inv in H as (ids & d1 & Hloop & H).
  apply bind_Ret_inv in H as ([] & d2 & _ & H).
  inversion H; subst. apply batch_operations_ids in Hloop. exact Hloop.
Qed.

(** The two loops that follow the commit. *)
Lemma markAsCached_all keys : ∀ d : Database,
  for_each keys (λ key _, markAsCached key) tt d
  = (Ret tt, set_cachedRecords_ (list_to_set keys ∪ cachedRecords_ d) d).
Proof.
  induction keys as [| key keys IH]; intros d; simpl.
  - unfold_M. f_equal. destruct d; unfold set_cachedRecords_; simpl. f_equal. set_solver.
  - erewrite bind_Ret by reflexivity. rewrite IH.
    f_equal. unfold set_cachedRecords_; simpl. f_equal. set_solver.
Qed.

Lemma removeFromCache_all keys : ∀ d : Database,
  for_each keys (λ key _, removeFromCache key) tt d
  = (Ret tt, set_cachedRecords_ (cachedRecords_ d ∖ list_to_set keys) d).
Proof.
  induction keys as [| key keys IH]; intros d; simpl.
  - unfold_M. f_equal. destruct d; unfold set_cachedRecords_; simpl. f_equal. set_solver.
  - erewrite bind_Ret by reflexivity. rewrite IH.
    f_equal. unfold set_cachedRecords_; simpl. f_equal. set_solver.
Qed.

Lemma rollback_never_throws ex (d d' : Database) : rollback d ≠ (Throw ex, d').
Proof.
  unfold rollback. intros H.
  apply bind_Throw_inv in H as [H | ([] & d1 & _ & H)]; [discriminate |].
  unfold try_catch in H.
  run_cases (executeUpdate "rollback transaction") d1; discriminate.
Qed.

(** A [try] block whose handler rolls back and rethrows: what it makes of
    the outcome of its body. *)
Lemma try_rollback_Ret {A} (body : M A) a (d d' : Database) :
  try_catch body (λ ex, rollback;; throw ex) d = (Ret a, d') → body d = (Ret a, d').
Proof.
  unfold try_catch. run_cases body d; intros H; try discriminate; [exact H |].
  apply bind_Ret_inv in H as ([] & d1 & _ & H). discriminate.
Qed.

Lemma try_rollback_Throw {A} (body : M A) ex (d d' : Database) :
  try_catch body (λ ex, rollback;; throw ex) d = (Throw ex, d') →
  ∃ d1, body d = (Throw ex, d1) ∧ rollback d1 = (Ret tt, d').
Proof.
  unfold try_catch. run_cases body d; intros H; try discriminate.
  apply bind_Throw_inv in H as [H | ([] & d1 & Hroll & H)].
  - exfalso. eapply rollback_never_throws. exact H.
  - inversion H; subst. eauto.
Qed.

Local Abbreviation console_grows := (@console_grows double E).

#[local] Instance console_grows_preorder : PreOrder console_grows.
Proof.
  split.
  - intros d. exists []. reflexivity.
  - intros d1 d2 d3 [l1 H1] [l2 H2]. exists (l2 ++ l1)%list.
    rewrite H2, H1, app_assoc. reflexivity.
Qed.

Lemma console_grows_call c A (f : E → A * E) : respects console_grows (call c f).
Proof.
  intros d o d' H. unfold call in H. destruct (f (db_ d)) as [a e'].
  inversion H. exists []. reflexivity.
Qed.

Lemma console_grows_console message : respects console_grows (consoleError message).
Proof. intros d o d' H. inversion H. exists [message]. reflexivity. Qed.

Lemma console_grows_statements f :
  respects console_grows (modify (λ d, set_cachedStatements_ (f d) d)).
Proof. intros d o d' H. inversion H. exists []. reflexivity. Qed.

Lemma console_grows_executeUpdate sql : respects console_grows (executeUpdate sql).
Proof.
  apply respects_executeUpdate;
    first [ typeclasses eauto | intros; apply console_grows_call
          | apply console_grows_console | apply console_grows_statements ].
Qed.



(** The identity cache a batch that commits leaves. *)
Lemma batch_commit_cachedRecords operations (d d' : Database) :
  batch operations d = (Ret tt, d') →
  cachedRecords_ d'
  = (list_to_set (addedIds_of operations) ∪ cachedRecords_ d)
      ∖ list_to_set (removedIds_of operations).
Proof.
  intros H. unfold batch in H.
  apply bind_Ret_inv in H as ([] & d1 & Hbegin & H).
  apply bind_Ret_inv in H as ([addedIds removedIds] & d2 & Htry & H).
  apply try_rollback_Ret in Htry.
  pose proof (batch_try_ids _ _ _ _ Htry) as Hids. inversion Hids; subst. clear Hids.
  erewrite bind_Ret in H by apply markAsCached_all.
  rewrite removeFromCache_all in H. inversion H; subst. clear H.
  pose proof (same_cache_executeUpdate _ _ _ _ Hbegin) as H1.
  pose proof (same_cache_batch_try _ _ _ _ Htry) as H2.
  unfold same_cache in *. simpl. rewrite H2, H1. reflexivity.
Qed.

Lemma elem_of_batch_cache (added removed : list string) (cached : gset string) k :
  k ∈ (list_to_set added ∪ cached) ∖ list_to_set removed ↔
  (k ∉ removed) ∧ (k ∈ added ∨ k ∈ cached).
Proof.
  rewrite elem_of_difference, elem_of_union, !elem_of_list_to_set. tauto.
Qed.

(** C2, as the code has it.  After a batch that commits, [isCached k] is
    true exactly when no operation with cacheBehavior -1 mentions [k] and
    either an operation with cacheBehavior +1 mentions it or it was cached
    before the batch: the insertions are applied first and the removals
    after them, whatever the order of the operations. *)
Theorem batch_commit_cache operations (d d' : Database) :
  batch operations d = (Ret tt, d') →
  ∀ k, fst (isCached k d') = Ret true ↔
       (k ∉ removedIds_of operations) ∧
       (k ∈ addedIds_of operations ∨ k ∈ cachedRecords_ d).
Proof.
  intros H k. apply batch_commit_cachedRecords in H.
  rewrite isCached_run. simpl. rewrite H, <- elem_of_batch_cache.
  split.
  - intros Hk. inversion Hk as [Hb]. apply bool_decide_eq_true in Hb. exact Hb.
  - intros Hk. f_equal. apply bool_decide_eq_true. exact Hk.
Qed.

(** ** Calls made on the connection *)

#[local] Instance calls_added_preorder P : PreOrder (calls_added P).
Proof.
  split.
  - intros d. exists []. split; [reflexivity | constructor].
  - intros d1 d2 d3 (l1 & H1 & HP1) (l2 & H2 & HP2).
    exists (l2 ++ l1)%list. split.
    + rewrite H2, H1. apply app_assoc.
    + apply Forall_app. split; assumption.
Qed.

Lemma calls_added_call (P : sqlite3_call → Prop) c A (f : E → A * E) :
  P c → respects (calls_added P) (call c f).
Proof.
  intros HP d o d' H. unfold call in H. destruct (f (db_ d)) as [a e'].
  inversion H. exists [c]. split; [reflexivity | repeat constructor; exact HP].
Qed.

Lemma calls_added_console P message : respects (calls_added P) (consoleError message).
Proof. intros d o d' H. inversion H. exists []. split; [reflexivity | constructor]. Qed.

Lemma calls_added_statements P f :
  respects (calls_added P) (modify (λ d, set_cachedStatements_ (f d) d)).
Proof. intros d o d' H. inversion H. exists []. split; [reflexivity | constructor]. Qed.

(** Discharges the primitive steps for calls other than [sqlite3_exec]. *)
Ltac no_exec_prims :=
  first [ typeclasses eauto
        | intros; apply calls_added_call; assumption
        | apply calls_added_console
        | apply calls_added_statements ].

Lemma no_exec_executeUpdate sql :
  respects (calls_added (λ c, ¬ is_exec c)) (executeUpdate sql).
Proof. apply respects_executeUpdate; no_exec_prims. Qed.

Lemma no_exec_getUserVersion :
  respects (calls_added (λ c, ¬ is_exec c)) getUserVersion.
Proof. apply respects_getUserVersion; no_exec_prims. Qed.

(** ** Stepping a statement *)

Lemma dbError_run description (d : Database) :
  dbError description d
  = (Ret (DbError description (db_ d)),
     set_console (what (DbError description (db_ d)) :: console d) d).
Proof. reflexivity. Qed.

Lemma getRow_run stmt rc e' (d : Database) :
  sqlite3_step stmt (db_ d) = (rc, e') →
  getRow stmt d =
  let d1 := after_call (call_step stmt) e' d in
  if bool_decide (rc ≠ SQLITE_ROW)
  then (Throw (DbError "Failed to get a row for query" e'),
        set_console (what (DbError "Failed to get a row for query" e') :: console d1) d1)
  else (Ret tt, d1).
Proof.
  intros Hstep. unfold getRow, call, mbind, M_bind, bind. rewrite Hstep. simpl.
  destruct (bool_decide (rc ≠ SQLITE_ROW)); reflexivity.
Qed.

Lemma getNextRowOrTrue_run stmt rc e' (d : Database) :
  sqlite3_step stmt (db_ d) = (rc, e') →
  getNextRowOrTrue stmt d =
  let d1 := after_call (call_step stmt) e' d in
  if bool_decide (rc = SQLITE_DONE) then (Ret true, d1)
  else if bool_decide (rc ≠ SQLITE_ROW)
  then (Throw (DbError "Failed to get a row for query" e'),
        set_console (what (DbError "Failed to get a row for query" e') :: console d1) d1)
  else (Ret false, d1).
Proof.
  intros Hstep. unfold getNextRowOrTrue, call, mbind, M_bind, bind. rewrite Hstep. simpl.
  destruct (bool_decide (rc = SQLITE_DONE)); [reflexivity |].
  destruct (bool_decide (rc ≠ SQLITE_ROW)); reflexivity.
Qed.

(** ** Migration *)

Lemma calls_grow_executeUpdate sql :
  respects (calls_added (λ _, True)) (executeUpdate sql).
Proof.
  apply respects_executeUpdate;
    first [ typeclasses eauto
          | intros; apply calls_added_call; exact I
          | apply calls_added_console
          | apply calls_added_statements ].
Qed.

Lemma calls_grow_rollback : respects (calls_added (λ _, True)) rollback.
Proof.
  apply respects_rollback;
    first [ typeclasses eauto
          | intros; apply calls_added_call; exact I
          | apply calls_added_console
          | apply calls_added_statements ].
Qed.

(** C3, as the code has it.  [migrate] checks the user version by an
    [assert] only.  In a build with assertions (no [NDEBUG]), a call made
    while the user version differs from [fromVersion] ends the process at
    the assertion: the final state is the one in which the version was
    read, so [migrationSql] is not executed, the user version is not set
    and neither [commit] nor [rollback] is run; no call of [sqlite3_exec]
    has been made.  No error is thrown to the host.  In a build with
    [NDEBUG] the version is not read: once the transaction is open the
    call is the [try] block without the assertion (the script, the new
    version, the commit), whatever [fromVersion] is, and the first call
    made on the connection after [begin] is the [sqlite3_exec] of the
    migration script. *)
Theorem migrate_version_assertion migrationSql fromVersion toVersion (d d1 : Database) :
  beginTransaction d = (Ret tt, d1) →
  (NDEBUG = false →
   ∀ version d2,
     getUserVersion d1 = (Ret version, d2) →
     version ≠ fromVersion →
     migrate migrationSql fromVersion toVersion d
     = (Abort (assertion_failed
                 "getUserVersion() == fromVersion && Incompatible migration set"), d2)
     ∧ calls_added (λ c, ¬ is_exec c) d d2) ∧
  (NDEBUG = true →
   migrate migrationSql fromVersion toVersion d
   = try_catch (executeMultiple migrationSql;; setUserVersion toVersion;; commit)
               (λ ex, rollback;; throw ex) d1 ∧
   ∃ l, calls (snd (migrate migrationSql fromVersion toVersion d))
        = (l ++ call_exec migrationSql :: calls d1)%list).
Proof.
  intros Hbegin. split.
  - intros Hdebug version d2 Hversion Hne. split.
    + unfold migrate. erewrite bind_Ret by exact Hbegin.
      unfold try_catch, assertM. rewrite Hdebug.
      unfold mbind, M_bind, bind. rewrite Hversion. simpl.
      rewrite bool_decide_eq_false_2 by exact Hne. reflexivity.
    + transitivity d1.
      * eapply no_exec_executeUpdate. exact Hbegin.
      * eapply no_exec_getUserVersion. exact Hversion.
  - intros Hrelease.
    assert (Heq : migrate migrationSql fromVersion toVersion d
                  = try_catch
                      (executeMultiple migrationSql;; setUserVersion toVersion;; commit)
                      (λ ex, rollback;; throw ex) d1).
    { unfold migrate. erewrite bind_Ret by exact Hbegin.
      unfold try_catch, assertM. rewrite Hrelease. reflexivity. }
    split; [exact Heq |]. rewrite Heq.
    destruct (sqlite3_exec migrationSql (db_ d1)) as [[rc message] e] eqn:Hexec.
    set (checked := match message with
                    | Some message => throw (JSError message)
                    | None =>
                        if bool_decide (rc ≠ SQLITE_OK) then
                          ex ← dbError "Failed to execute statements"; throw ex
                        else mret tt
                    end : M unit).
    assert (Hrun : try_catch
                     (executeMultiple migrationSql;; setUserVersion toVersion;; commit)
                     (λ ex, rollback;; throw ex) d1
                   = try_catch (checked;; setUserVersion toVersion;; commit)
                       (λ ex, rollback;; throw ex)
                       (after_call (call_exec migrationSql) e d1)).
    { unfold try_catch, executeMultiple, mbind, M_bind, bind, call.
      rewrite Hexec. reflexivity. }
    rewrite Hrun.
    assert (Hgrow : respects (calls_added (λ _, True))
                      (try_catch (checked;; setUserVersion toVersion;; commit)
                         (λ ex, rollback;; throw ex))).
    { apply (respects_try_catch (calls_added (λ _, True))).
      - apply (respects_bind (calls_added (λ _, True))).
        + unfold checked. destruct message as [message |];
            [apply (respects_throw (calls_added (λ _, True))) |].
          destruct (bool_decide (rc ≠ SQLITE_OK));
            [| apply (respects_ret (calls_added (λ _, True)))].
          apply (respects_bind (calls_added (λ _, True))).
          * apply (respects_dbError (calls_added (λ _, True))). apply calls_added_console.
          * intros ex. apply (respects_throw (calls_added (λ _, True))).
        + intros _. apply (respects_bind (calls_added (λ _, True)));
            [apply calls_grow_executeUpdate | intros _; apply calls_grow_executeUpdate].
      - intros ex. apply (respects_bind (calls_added (λ _, True)));
          [apply calls_grow_rollback |].
        intros _. apply (respects_throw (calls_added (λ _, True))). }
    destruct (Hgrow (after_call (call_exec migrationSql) e d1) _ _ (surjective_pairing _))
      as (l & Hl & _).
    exists l. exact Hl.
Qed.

(** ** Resetting the database *)





(** ** Counting *)

(** C5, as the code has it.  [count] steps the statement once.  When that
    step does not give a row (the result is empty, or the step fails) it
    throws the database error "Failed to get a row for query".  When it
    gives a row, [count] returns column 0 of that row, read as an [int],
    as a host number; it does not step again, so rows after the first are
    not looked at: the calls it makes on the connection once the
    arguments are bound are that one step and the reset of the statement
    on the way out, and the state it leaves is the one of that step, with
    the statement reset.  That the row has one column is an [assert]
    only: a build with assertions ends the process when it has not, a
    build without them does not look. *)
Theorem count_returns_first_row sql arguments statement rc e3 (d d1 d2 : Database) :
  prepareQuery sql d = (Ret statement, d1) →
  bindArgs statement arguments d1 = (Ret tt, d2) →
  sqlite3_step statement (db_ d2) = (rc, e3) →
  fst (count sql arguments d) =
    (if bool_decide (rc ≠ SQLITE_ROW) then
       Throw (DbError "Failed to get a row for query" e3)
     else if negb NDEBUG && bool_decide (sqlite3_data_count statement e3 ≠ 1%Z) then
       Abort (assertion_failed "sqlite3_data_count(statement.stmt) == 1")
     else Ret (Number (cast_double (sqlite3_column_int statement 0 e3)))) ∧
  snd (count sql arguments d) =
    (if bool_decide (rc ≠ SQLITE_ROW) then
       after_call (call_reset statement) (sqlite3_reset statement e3)
         (set_console (what (DbError "Failed to get a row for query" e3)
                         :: console (after_call (call_step statement) e3 d2))
            (after_call (call_step statement) e3 d2))
     else if negb NDEBUG && bool_decide (sqlite3_data_count statement e3 ≠ 1%Z) then
       after_call (call_step statement) e3 d2
     else
       after_call (call_reset statement) (sqlite3_reset statement e3)
         (after_call (call_step statement) e3 d2)) ∧
  ∃ l, calls (snd (count sql arguments d)) = (l ++ call_step statement :: calls d2)%list ∧
       (l = [] ∨ l = [call_reset statement]).
Proof.
  intros Hprepare Hbind Hstep.
  assert (Hrun : count sql arguments d
    = (if bool_decide (rc ≠ SQLITE_ROW) then
         (Throw (DbError "Failed to get a row for query" e3),
          after_call (call_reset statement) (sqlite3_reset statement e3)
            (set_console (what (DbError "Failed to get a row for query" e3)
                            :: console (after_call (call_step statement) e3 d2))
               (after_call (call_step statement) e3 d2)))
       else if negb NDEBUG && bool_decide (sqlite3_data_count statement e3 ≠ 1%Z) then
         (Abort (assertion_failed "sqlite3_data_count(statement.stmt) == 1"),
          after_call (call_step statement) e3 d2)
       else
         (Ret (Number (cast_double (sqlite3_column_int statement 0 e3))),
          after_call (call_reset statement) (sqlite3_reset statement e3)
            (after_call (call_step statement) e3 d2)))).
  { unfold count, executeQuery.
    erewrite bind_Ret by exact Hprepare. erewrite bind_Ret by exact Hbind.
    unfold SqliteStatement.
    unfold mbind at 1. unfold M_bind at 1. unfold bind at 1.
    rewrite (getRow_run _ _ _ _ Hstep). cbv zeta.
    destruct (bool_decide (rc ≠ SQLITE_ROW)); [reflexivity |].
    unfold assertM. destruct NDEBUG; simpl; [reflexivity |].
    unfold mbind, M_bind, bind, peek, mret, M_ret, ret. simpl.
    destruct (bool_decide (sqlite3_data_count statement e3 = 1%Z)) eqn:Hcount.
    - apply bool_decide_eq_true in Hcount.
      rewrite bool_decide_eq_false_2 by (intros Hn; apply Hn; exact Hcount). reflexivity.
    - apply bool_decide_eq_false in Hcount.
      rewrite bool_decide_eq_true_2 by exact Hcount. reflexivity. }
  rewrite Hrun. clear Hrun.
  destruct (bool_decide (rc ≠ SQLITE_ROW)).
  - split; [reflexivity |]. split; [reflexivity |].
    exists [call_reset statement]. split; [reflexivity | right; reflexivity].
  - destruct (negb NDEBUG && bool_decide (sqlite3_data_count statement e3 ≠ 1%Z)).
    + split; [reflexivity |]. split; [reflexivity |].
      exists []. split; [reflexivity | left; reflexivity].
    + split; [reflexivity |]. split; [reflexivity |].
      exists [call_reset statement]. split; [reflexivity | right; reflexivity].
Qed.

(** ** Statement cache and binder *)

Lemma assert_Ret_inv cond text (d d' : Database) :
  assert cond text d = (Ret tt, d') → d' = d.
Proof.
  unfold assert, assertM. destruct NDEBUG; intros H; [inversion H; reflexivity |].
  apply bind_Ret_inv in H as (b & d1 & Hb & H). inversion Hb; subst.
  destruct b; inversion H. reflexivity.
Qed.

Lemma prepareQuery_caches sql statement (d d1 : Database) :
  prepareQuery sql d = (Ret statement, d1) →
  cachedStatements_ d1 !! sql = Some statement.
Proof.
  unfold prepareQuery. intros H.
  apply bind_Ret_inv in H as (d0 & d0' & Hget & H). inversion Hget; subst d0 d0'.
  apply bind_Ret_inv in H as ([] & d2 & Hmod & H). inversion Hmod; subst d2. clear Hmod Hget.
  apply bind_Ret_inv in H as (st & d3 & Hst & H).
  apply bind_Ret_inv in H as ([] & d4 & Hassert & H).
  apply assert_Ret_inv in Hassert. subst d4. inversion H; subst st d3. clear H.
  destruct (bool_decide (default nullptr (cachedStatements_ d !! sql) = nullptr)) eqn:Hnull.
  - apply bind_Ret_inv in Hst as ([resultPrepare st'] & d5 & Hcall & Hst).
    destruct (bool_decide (resultPrepare ≠ SQLITE_OK)).
    + apply bind_Ret_inv in Hst as ([] & d6 & _ & Hst).
      apply bind_Ret_inv in Hst as (ex & d7 & _ & Hst). discriminate.
    + apply bind_Ret_inv in Hst as ([] & d6 & Hmod & Hst).
      inversion Hst; subst. inversion Hmod; subst. simpl. apply lookup_insert_eq.
  - apply bind_Ret_inv in Hst as ([] & d5 & Hcall & Hst).
    inversion Hst; subst.
    unfold call_, call in Hcall. inversion Hcall; subst. simpl. apply lookup_insert_eq.
Qed.

Lemma set_cachedStatements_id (d : Database) : set_cachedStatements_ (cachedStatements_ d) d = d.
Proof. destruct d. reflexivity. Qed.

(** A statement that is in the cache is reset and handed out again. *)
Lemma prepareQuery_cached sql statement (d : Database) :
  cachedStatements_ d !! sql = Some statement →
  statement ≠ nullptr →
  prepareQuery sql d
  = (Ret statement, after_call (call_reset statement) (sqlite3_reset statement (db_ d)) d).
Proof.
  intros Hcached Hnonnull. unfold prepareQuery.
  erewrite bind_Ret by reflexivity. rewrite Hcached. simpl.
  rewrite insert_id by exact Hcached.
  erewrite bind_Ret by reflexivity. rewrite set_cachedStatements_id.
  rewrite (bool_decide_eq_false_2 _ Hnonnull).
  erewrite bind_Ret by reflexivity.
  unfold assert, assertM. destruct NDEBUG; [reflexivity |].
  unfold mbind, M_bind, bind, ret. simpl.
  rewrite (bool_decide_eq_true_2 _ Hnonnull). reflexivity.
Qed.

Lemma bindArgs_mismatch statement arguments (d : Database) :
  size_t_of_int (sqlite3_bind_parameter_count statement (db_ d))
    ≠ Z.of_nat (length arguments) →
  bindArgs statement arguments d
  = (Throw ArgMismatch,
     after_call (call_reset statement) (sqlite3_reset statement (db_ d)) d).
Proof.
  intros Hne. unfold bindArgs.
  erewrite bind_Ret by reflexivity.
  rewrite (bool_decide_eq_true_2 _ Hne). reflexivity.
Qed.

(** When the engine takes every argument the loop of the binder ends well,
    on the connection the engine has left. *)
Lemma bindArgs_loop_accepts statement arguments : ∀ i e' (d : Database),
  bind_arguments statement i arguments (db_ d) = Some e' →
  ∃ d', bindArgs_loop statement i arguments d = (Ret tt, d') ∧
        db_ d' = e' ∧
        cachedStatements_ d' = cachedStatements_ d ∧
        cachedRecords_ d' = cachedRecords_ d.
Proof.
  induction arguments as [| value rest IH]; intros i e' d H; simpl in H.
  - inversion H; subst. exists d. repeat split; reflexivity.
  - destruct value; simpl in H; try discriminate.
    all: match type of H with
         | (if bool_decide (fst ?r = _) then _ else _) = _ =>
             destruct r as [rc e1] eqn:Hr; simpl in H;
             destruct (bool_decide (rc = SQLITE_OK)) eqn:Hrc; [| discriminate];
             apply bool_decide_eq_true in Hrc
         end.
    all: simpl; unfold mbind, M_bind, bind, call; rewrite Hr; simpl.
    all: rewrite bool_decide_eq_false_2 by (intros Hn; apply Hn; exact Hrc).
    all: exact (IH _ _ (after_call _ e1 d) H).
Qed.

Lemma bindArgs_accepts statement arguments e' (d : Database) :
  sqlite3_bind_parameter_count statement (db_ d) = Z.of_nat (length arguments) →
  (Z.of_nat (length arguments) < 2 ^ 64)%Z →
  bind_arguments statement 0 arguments (db_ d) = Some e' →
  ∃ d', bindArgs statement arguments d = (Ret tt, d') ∧ db_ d' = e' ∧
        cachedStatements_ d' = cachedStatements_ d ∧
        cachedRecords_ d' = cachedRecords_ d.
Proof.
  intros Hcount Hsmall Hbind. unfold bindArgs.
  erewrite bind_Ret by reflexivity. rewrite Hcount.
  assert (Hsize : size_t_of_int (Z.of_nat (length arguments)) = Z.of_nat (length arguments)).
  { unfold size_t_of_int. apply Z.mod_small. lia. }
  rewrite bool_decide_eq_false_2 by (intros Hn; apply Hn; exact Hsize).
  rewrite Nat2Z.id, firstn_all.
  apply bindArgs_loop_accepts. exact Hbind.
Qed.

(** C8. When the number of arguments differs from the number of
    placeholders of the prepared statement, [bindArgs] resets the
    statement and throws the mismatch error, and so does the query that
    called it.  The statement stays in the statement cache: the next call
    with the same SQL gets the same statement back (reset, not prepared
    again), and with an argument list of the right length that the engine
    takes it goes on to run its body on it.  (The statement is not null
    but in a build without assertions, when the engine prepared an empty
    SQL text.) *)
Theorem bind_mismatch_leaves_statement_reusable {A} sql arguments statement
    (scope : sqlite3_stmt → M A) (d d1 : Database) :
  prepareQuery sql d = (Ret statement, d1) →
  size_t_of_int (sqlite3_bind_parameter_count statement (db_ d1))
    ≠ Z.of_nat (length arguments) →
  ∃ d2,
    bindArgs statement arguments d1 = (Throw ArgMismatch, d2) ∧
    calls d2 = call_reset statement :: calls d1 ∧
    db_ d2 = sqlite3_reset statement (db_ d1) ∧
    executeQuery sql arguments scope d = (Throw ArgMismatch, d2) ∧
    cachedStatements_ d2 !! sql = Some statement ∧
    ∀ arguments' e4,
      statement ≠ nullptr →
      sqlite3_bind_parameter_count statement (sqlite3_reset statement (db_ d2))
        = Z.of_nat (length arguments') →
      (Z.of_nat (length arguments') < 2 ^ 64)%Z →
      bind_arguments statement 0 arguments' (sqlite3_reset statement (db_ d2)) = Some e4 →
      prepareQuery sql d2
      = (Ret statement,
         after_call (call_reset statement) (sqlite3_reset statement (db_ d2)) d2) ∧
      ∃ d4, db_ d4 = e4 ∧
            executeQuery sql arguments' scope d2
            = SqliteStatement statement (scope statement) d4.
Proof.
  intros Hprepare Hmismatch.
  exists (after_call (call_reset statement) (sqlite3_reset statement (db_ d1)) d1).
  pose proof (bindArgs_mismatch _ _ _ Hmismatch) as Hbind.
  pose proof (prepareQuery_caches _ _ _ _ Hprepare) as Hcached.
  split; [exact Hbind |]. split; [reflexivity |]. split; [reflexivity |].
  split; [| split; [exact Hcached |]].
  - unfold executeQuery. erewrite bind_Ret by exact Hprepare.
    apply bind_Throw. exact Hbind.
  - intros arguments' e4 Hnonnull Hcount Hsmall Haccept.
    set (d2 := after_call (call_reset statement) (sqlite3_reset statement (db_ d1)) d1) in *.
    pose proof (prepareQuery_cached sql statement d2 Hcached Hnonnull) as Hagain.
    set (d3 := after_call (call_reset statement) (sqlite3_reset statement (db_ d2)) d2) in *.
    destruct (bindArgs_accepts statement arguments' e4 d3 Hcount Hsmall Haccept)
      as (d4 & Hbind' & He4 & _ & _).
    split; [exact Hagain |].
    exists d4. split; [exact He4 |].
    unfold executeQuery. erewrite bind_Ret by exact Hagain.
    erewrite bind_Ret by exact Hbind'. reflexivity.
Qed.

(** ** Result shapers *)

(** One column of a row, for each shaper. *)
Lemma resultArray_column_run statement i result (d : Database) :
  resultArray_column statement i result d
  = (match column_value statement (db_ d) i with
     | Some v => Ret (setValueAtIndex result (Z.to_nat i) v)
     | None => Throw UnsupportedColumnType
     end, d).
Proof.
  unfold resultArray_column, column_value, mbind, M_bind, bind, peek, mret, M_ret, ret, throw.
  simpl. repeat (destruct (bool_decide _); [try reflexivity |]); [| reflexivity].
  destruct (sqlite3_column_text statement i (db_ d)); reflexivity.
Qed.

Lemma resultDictionary_column_run statement i name dictionary (d : Database) :
  sqlite3_column_name statement i (db_ d) = Some name →
  resultDictionary_column statement i dictionary d
  = (match column_value statement (db_ d) i with
     | Some v => Ret (setProperty dictionary name v)
     | None => Throw UnsupportedColumnType
     end, d).
Proof.
  intros Hname.
  unfold resultDictionary_column, column_value, assert, assertM.
  unfold mbind, M_bind, bind, peek, mret, M_ret, ret, throw. simpl. rewrite Hname.
  assert (Hassert : (if NDEBUG then (Ret tt, d)
                     else if bool_decide (Some name ≠ None) then (Ret tt, d)
                          else abort (assertion_failed "column") d) = (Ret tt, d)).
  { destruct NDEBUG; [reflexivity |]. rewrite bool_decide_eq_true_2 by discriminate.
    reflexivity. }
  destruct NDEBUG; simpl;
    repeat (destruct (bool_decide (sqlite3_column_type _ _ _ = _)); [try reflexivity |]);
    try reflexivity;
    destruct (sqlite3_column_text statement i (db_ d)); reflexivity.
Qed.

Lemma seqZ_to_nat m len : seqZ m len = seqZ m (Z.of_nat (Z.to_nat len)).
Proof. unfold seqZ. rewrite Nat2Z.id. reflexivity. Qed.

(** A loop that fills the array [prefix ++ replicate k Undefined] from
    index [length prefix] on. *)
Lemma fill_array_loop (body : Z → list Value → M (list Value)) (f : Z → option Value)
    (fail : outcome (list Value)) (d : Database) :
  (∀ vs, fail ≠ Ret vs) →
  (∀ i result, body i result d
               = (match f i with
                  | Some v => Ret (setValueAtIndex result (Z.to_nat i) v)
                  | None => fail
                  end, d)) →
  ∀ k j prefix, length prefix = j →
    for_each (seqZ (Z.of_nat j) (Z.of_nat k)) body (prefix ++ replicate k Undefined)%list d
    = (match mapM f (seqZ (Z.of_nat j) (Z.of_nat k)) with
       | Some vs => Ret (prefix ++ vs)%list
       | None => fail
       end, d).
Proof.
  intros Hfail Hbody. induction k as [| k IH]; intros j prefix Hlen.
  - simpl. rewrite !app_nil_r. reflexivity.
  - rewrite seqZ_cons by lia.
    replace (Z.succ (Z.of_nat j)) with (Z.of_nat (S j)) by lia.
    replace (Z.pred (Z.of_nat (S k))) with (Z.of_nat k) by lia.
    simpl for_each. unfold mbind at 1. unfold M_bind, bind. rewrite Hbody.
    change (mapM f (Z.of_nat j :: seqZ (Z.of_nat (S j)) (Z.of_nat k)))
      with (y ← f (Z.of_nat j); ys ← mapM f (seqZ (Z.of_nat (S j)) (Z.of_nat k)); mret (y :: ys)).
    destruct (f (Z.of_nat j)) as [v |]; simpl;
      [| destruct fail; [exfalso; eapply Hfail; reflexivity | reflexivity ..]].
    unfold setValueAtIndex. rewrite Nat2Z.id.
    replace (<[j:=v]> (prefix ++ Undefined :: replicate k Undefined)%list)
      with ((prefix ++ [v]) ++ replicate k Undefined)%list.
    + rewrite (IH (S j) (prefix ++ [v])%list) by (rewrite length_app; simpl; lia).
      destruct (mapM f (seqZ (Z.of_nat (S j)) (Z.of_nat k))) as [vs |]; simpl;
        [rewrite <- app_assoc |]; reflexivity.
    + rewrite <- app_assoc. simpl. subst j.
      rewrite insert_app_r_alt by lia. rewrite Nat.sub_diag. reflexivity.
Qed.

Lemma resultArray_run statement (d : Database) :
  resultArray statement d
  = (match positional_array statement (db_ d) with
     | Some record => Ret record
     | None => Throw UnsupportedColumnType
     end, d).
Proof.
  unfold resultArray, positional_array, column_indices.
  erewrite bind_Ret by reflexivity.
  rewrite (seqZ_to_nat 0 (sqlite3_column_count statement (db_ d))).
  unfold mbind at 1. unfold M_bind, bind.
  pose proof (fill_array_loop (resultArray_column statement)
                (column_value statement (db_ d)) (Throw UnsupportedColumnType) d
                (λ vs, ltac:(discriminate))
                (λ i result, resultArray_column_run statement i result d)
                (Z.to_nat (sqlite3_column_count statement (db_ d))) 0%nat [] eq_refl) as Hloop.
  change (Z.of_nat 0) with 0%Z in Hloop. simpl app in Hloop.
  unfold newArray. rewrite Hloop.
  destruct (mapM _ _); reflexivity.
Qed.

Lemma resultColumns_column_run statement i columns (d : Database) :
  resultColumns_column statement i columns d
  = (match JsString <$> sqlite3_column_name statement i (db_ d) with
     | Some v => Ret (setValueAtIndex columns (Z.to_nat i) v)
     | None => Abort (if NDEBUG then "createFromUtf8: null string"
                      else assertion_failed "column")
     end, d).
Proof.
  unfold resultColumns_column, assert, assertM.
  unfold mbind, M_bind, bind, peek, mret, M_ret, ret, abort. simpl.
  destruct (sqlite3_column_name statement i (db_ d)) as [name |]; simpl.
  - destruct NDEBUG; reflexivity.
  - destruct NDEBUG; reflexivity.
Qed.

Lemma resultColumns_run statement header (d : Database) :
  column_header statement (db_ d) = Some header →
  resultColumns statement d = (Ret header, d).
Proof.
  unfold resultColumns, column_header, column_indices. intros Hheader.
  erewrite bind_Ret by reflexivity.
  rewrite (seqZ_to_nat 0 (sqlite3_column_count statement (db_ d))) in *.
  unfold mbind at 1. unfold M_bind, bind.
  pose proof (fill_array_loop (resultColumns_column statement)
                (λ i, JsString <$> sqlite3_column_name statement i (db_ d))
                (Abort (if NDEBUG then "createFromUtf8: null string"
                        else assertion_failed "column")) d
                (λ vs, ltac:(discriminate))
                (λ i result, resultColumns_column_run statement i result d)
                (Z.to_nat (sqlite3_column_count statement (db_ d))) 0%nat [] eq_refl) as Hloop.
  change (Z.of_nat 0) with 0%Z in Hloop. simpl app in Hloop.
  unfold newArray. rewrite Hloop.
  destruct (mapM _ _); simpl in Hheader; inversion Hheader. reflexivity.
Qed.

Lemma resultDictionary_loop statement (d : Database) : ∀ indices names props,
  (λ i, sqlite3_column_name statement i (db_ d)) <$> indices = Some <$> names →
  for_each indices (resultDictionary_column statement) props d
  = (match mapM (column_value statement (db_ d)) indices with
     | Some values => Ret (setProperties props (zip names values))
     | None => Throw UnsupportedColumnType
     end, d).
Proof.
  induction indices as [| i indices IH]; intros names props Hnames.
  - destruct names; [reflexivity | discriminate].
  - destruct names as [| name names]; [discriminate |].
    inversion Hnames as [[Hname Hrest]].
    simpl for_each. unfold mbind at 1. unfold M_bind, bind.
    rewrite (resultDictionary_column_run _ _ _ _ _ Hname).
    change (mapM (column_value statement (db_ d)) (i :: indices))
      with (y ← column_value statement (db_ d) i;
            ys ← mapM (column_value statement (db_ d)) indices; mret (y :: ys)).
    destruct (column_value statement (db_ d) i) as [v |]; simpl; [| reflexivity].
    rewrite (IH names _ Hrest).
    destruct (mapM (column_value statement (db_ d)) indices); reflexivity.
Qed.

Lemma resultDictionary_run statement names (d : Database) :
  column_names statement (db_ d) = Some <$> names →
  resultDictionary statement d
  = (match mapM (column_value statement (db_ d)) (column_indices statement (db_ d)) with
     | Some values => Ret (Object (setProperties [] (zip names values)))
     | None => Throw UnsupportedColumnType
     end, d).
Proof.
  unfold column_names, column_indices. intros Hnames.
  unfold resultDictionary. erewrite bind_Ret by reflexivity.
  unfold mbind at 1. unfold M_bind, bind.
  rewrite (resultDictionary_loop _ _ _ _ _ Hnames).
  destruct (mapM _ _); reflexivity.
Qed.

(** Reading a property back. *)
Lemma getProperty_setProperty_eq (props : list (string * Value)) name v :
  getProperty (setProperty props name v) name = Some v.
Proof.
  induction props as [| [n w] props IH]; simpl.
  - rewrite String.eqb_refl. reflexivity.
  - destruct (String.eqb n name) eqn:Hn; simpl; rewrite Hn; [reflexivity | exact IH].
Qed.

Lemma getProperty_setProperty_ne (props : list (string * Value)) name name' v :
  name ≠ name' → getProperty (setProperty props name v) name' = getProperty props name'.
Proof.
  intros Hne. induction props as [| [n w] props IH]; simpl.
  - apply String.eqb_neq in Hne. rewrite Hne. reflexivity.
  - destruct (String.eqb n name) eqn:Hn; simpl.
    + apply String.eqb_eq in Hn. subst n.
      apply String.eqb_neq in Hne. rewrite Hne. reflexivity.
    + destruct (String.eqb n name'); [reflexivity | exact IH].
Qed.

Lemma getProperty_setProperties_other names : ∀ (values : list Value) props name,
  name ∉ names →
  getProperty (setProperties props (zip names values)) name = getProperty props name.
Proof.
  induction names as [| n names IH]; intros values props name Hnotin; [reflexivity |].
  destruct values as [| v values]; [reflexivity |].
  apply not_elem_of_cons in Hnotin as [Hne Hnotin].
  unfold setProperties in *. simpl. rewrite IH by exact Hnotin.
  apply getProperty_setProperty_ne. congruence.
Qed.

Lemma getProperty_setProperties_last names : ∀ (values : list Value) props i name v,
  names !! i = Some name →
  values !! i = Some v →
  (∀ j, (i < j)%nat → names !! j ≠ Some name) →
  getProperty (setProperties props (zip names values)) name = Some v.
Proof.
  induction names as [| n names IH]; intros values props i name v Hname Hvalue Hlast;
    [discriminate |].
  destruct values as [| v0 values]; [discriminate |].
  change (setProperties props (zip (n :: names) (v0 :: values)))
    with (setProperties (setProperty props n v0) (zip names values)).
  destruct i as [| i]; simpl in Hname, Hvalue.
  - inversion Hname; inversion Hvalue; subst.
    rewrite getProperty_setProperties_other.
    + apply getProperty_setProperty_eq.
    + intros Hin. apply list_elem_of_lookup in Hin as [j Hj].
      apply (Hlast (S j)); [lia | exact Hj].
  - eapply IH; [exact Hname | exact Hvalue |].
    intros j Hj. apply (Hlast (S j)). lia.
Qed.

(** C7, as the code has it.  The two shapers apply the same column-type
    mapping [column_value] (INTEGER and FLOAT to a host number, TEXT to a
    host string or to null for a null text pointer, NULL to null) and both
    throw the unsupported-column error when a column has another type.
    When they succeed, entry [i] of the Positional Array is the value the
    Dictionary holds under the name of column [i], for every column [i]
    whose name is not the name of a later column as well: so for every
    column of a row whose column names are pairwise distinct.  (A later
    column of the same name overwrites the property.) *)
Theorem shapers_agree_on_last_name statement names (d : Database) :
  column_names statement (db_ d) = Some <$> names →
  match mapM (column_value statement (db_ d)) (column_indices statement (db_ d)) with
  | Some values =>
      ∃ props,
        resultDictionary statement d = (Ret (Object props), d) ∧
        resultArray statement d = (Ret (Array values), d) ∧
        ∀ i name,
          names !! i = Some name →
          (∀ j, (i < j)%nat → names !! j ≠ Some name) →
          is_Some (values !! i) ∧ getProperty props name = values !! i
  | None =>
      resultDictionary statement d = (Throw UnsupportedColumnType, d) ∧
      resultArray statement d = (Throw UnsupportedColumnType, d)
  end.
Proof.
  intros Hnames.
  pose proof (resultDictionary_run statement names d Hnames) as Hdict.
  pose proof (resultArray_run statement d) as Harray.
  unfold positional_array in Harray.
  destruct (mapM (column_value statement (db_ d)) (column_indices statement (db_ d)))
    as [values |] eqn:Hvalues; simpl in Harray.
  - exists (setProperties [] (zip names values)).
    split; [exact Hdict |]. split; [exact Harray |].
    intros i name Hname Hlast.
    assert (Hlen : length names = length values).
    { apply length_mapM in Hvalues. rewrite <- Hvalues.
      unfold column_names in Hnames.
      apply (f_equal length) in Hnames. rewrite !length_fmap in Hnames. lia. }
    destruct (values !! i) as [v |] eqn:Hv.
    + split; [eauto |]. eapply getProperty_setProperties_last; eassumption.
    + exfalso. apply lookup_ge_None in Hv. apply lookup_lt_Some in Hname. lia.
  - split; assumption.
Qed.

(** ** Finding a record *)

Lemma same_cache_prepareQuery sql : respects same_cache (prepareQuery sql).
Proof. apply respects_prepareQuery; same_cache_prims. Qed.

Lemma same_cache_bindArgs statement arguments :
  respects same_cache (bindArgs statement arguments).
Proof. apply respects_bindArgs; same_cache_prims. Qed.

Lemma find_cached tableName id (d : Database) :
  cacheKey tableName id ∈ cachedRecords_ d →
  find tableName id d = (Ret (JsString id), d).
Proof.
  intros Hcached. unfold find. erewrite bind_Ret by apply isCached_run.
  rewrite bool_decide_eq_true_2 by exact Hcached. reflexivity.
Qed.

(** C4, as the code has it.  [find] on a key that is in the identity
    cache returns the id as a host string and touches nothing: no call is
    made on the connection.  On a key that is not cached it runs the
    select; when the first step says [SQLITE_DONE] it returns null and the
    cache is as before; when it gives a row it returns what
    [resultDictionary] makes of the row and the key is cached afterwards.
    After a batch that commits, [find] on a key that the batch mentions
    with cacheBehavior +1, and with no cacheBehavior -1, returns the id
    string. *)
Theorem find_cases tableName id (d : Database) :
  let key := cacheKey tableName id in
  let sql := "select * from `" ++ tableName ++ "` where id == ? limit 1" in
  (key ∈ cachedRecords_ d → find tableName id d = (Ret (JsString id), d)) ∧
  (key ∉ cachedRecords_ d →
   ∀ statement rc e3 d1 d2,
     prepareQuery sql d = (Ret statement, d1) →
     bindArgs statement [JsString id] d1 = (Ret tt, d2) →
     sqlite3_step statement (db_ d2) = (rc, e3) →
     (rc = SQLITE_DONE →
      fst (find tableName id d) = Ret Null ∧
      cachedRecords_ (snd (find tableName id d)) = cachedRecords_ d) ∧
     (rc = SQLITE_ROW →
      ∀ record,
        fst (resultDictionary statement (after_call (call_step statement) e3 d2))
        = Ret record →
        fst (find tableName id d) = Ret record ∧
        cachedRecords_ (snd (find tableName id d)) = {[key]} ∪ cachedRecords_ d)) ∧
  (∀ operations d0,
     batch operations d0 = (Ret tt, d) →
     key ∈ addedIds_of operations →
     key ∉ removedIds_of operations →
     find tableName id d = (Ret (JsString id), d)).
Proof.
  intros key sql. split; [apply find_cached |]. split.
  - intros Hfresh statement rc e3 d1 d2 Hprepare Hbind Hstep.
    assert (Hcache : cachedRecords_ d2 = cachedRecords_ d).
    { pose proof (same_cache_prepareQuery _ _ _ _ Hprepare) as H1.
      pose proof (same_cache_bindArgs _ _ _ _ _ Hbind) as H2.
      unfold same_cache in *. congruence. }
    assert (Hfind : find tableName id d
                    = SqliteStatement statement
                        (done ← getNextRowOrTrue statement;
                         if done : bool then mret Null
                         else record ← resultDictionary statement;
                              markAsCached key;; mret record) d2).
    { unfold find. erewrite bind_Ret by apply isCached_run.
      rewrite bool_decide_eq_false_2 by exact Hfresh.
      unfold executeQuery. fold sql.
      erewrite bind_Ret by exact Hprepare. erewrite bind_Ret by exact Hbind. reflexivity. }
    rewrite Hfind. clear Hfind. unfold SqliteStatement.
    match goal with
    | |- context [(getNextRowOrTrue statement ≫= ?k) d2] =>
        set (body := getNextRowOrTrue statement ≫= k)
    end.
    assert (Hbody : body d2
                    = match getNextRowOrTrue statement d2 with
                      | (Ret true, d3) => (Ret Null, d3)
                      | (Ret false, d3) =>
                          (record ← resultDictionary statement;
                           markAsCached key;; mret record) d3
                      | (Throw ex, d3) => (Throw ex, d3)
                      | (Abort w, d3) => (Abort w, d3)
                      | (OutOfFuel, d3) => (OutOfFuel, d3)
                      end).
    { unfold body, mbind at 1. unfold M_bind at 1. unfold bind at 1.
      destruct (getNextRowOrTrue statement d2) as [[[] | | |] d3]; reflexivity. }
    rewrite (getNextRowOrTrue_run _ _ _ _ Hstep) in Hbody. cbv zeta in Hbody.
    split.
    + intros ->. simpl in Hbody. rewrite Hbody. simpl.
      split; [reflexivity | exact Hcache].
    + intros -> record Hrecord. simpl in Hbody.
      destruct (resultDictionary statement (after_call (call_step statement) e3 d2))
        as [o d3] eqn:Hshape.
      pose proof (respects_resultDictionary eq statement _ _ _ Hshape) as Hsame.
      subst d3. simpl in Hrecord. subst o.
      erewrite bind_Ret in Hbody by exact Hshape.
      rewrite Hbody. simpl.
      split; [reflexivity |]. rewrite Hcache. reflexivity.
  - intros operations d0 Hbatch Hadded Hremoved. apply find_cached.
    rewrite (batch_commit_cachedRecords _ _ _ Hbatch).
    apply elem_of_batch_cache. fold key. tauto.
Qed.

(** ** Queries over many rows *)

Lemma arrayFromStd_fill (rest : list Value) : ∀ prefix,
  foldl (λ '(array, i) value, (setValueAtIndex array i value, S i))
        ((prefix ++ replicate (length rest) Undefined)%list, length prefix) rest
  = ((prefix ++ rest)%list, length (prefix ++ rest)%list).
Proof.
  induction rest as [| v rest IH]; intros prefix; simpl.
  - rewrite !app_nil_r. reflexivity.
  - unfold setValueAtIndex.
    rewrite insert_app_r_alt by lia. rewrite Nat.sub_diag. simpl.
    replace (prefix ++ v :: replicate (length rest) Undefined)%list
      with ((prefix ++ [v]) ++ replicate (length rest) Undefined)%list
      by (rewrite <- app_assoc; reflexivity).
    replace (S (length prefix)) with (length (prefix ++ [v])%list)
      by (rewrite length_app; simpl; lia).
    rewrite IH. rewrite <- app_assoc. reflexivity.
Qed.

Lemma arrayFromStd_spec (vector : list Value) : arrayFromStd vector = Array vector.
Proof.
  unfold arrayFromStd, newArray.
  pose proof (arrayFromStd_fill vector []) as H. simpl in H. rewrite H. reflexivity.
Qed.

Lemma assert_first_column_run statement (d : Database) :
  (NDEBUG = false → sqlite3_column_name statement 0 (db_ d) = Some "id") →
  assert_first_column_is_id statement d = (Ret tt, d).
Proof.
  intros Hid. unfold assert_first_column_is_id, assertM.
  destruct NDEBUG; [reflexivity |].
  unfold mbind, M_bind, bind, peek, mret, M_ret, ret. simpl.
  rewrite Hid by reflexivity. rewrite bool_decide_eq_true_2 by reflexivity. reflexivity.
Qed.

Lemma queryAsArray_row_done tableName statement results e' (d : Database) :
  sqlite3_step statement (db_ d) = (SQLITE_DONE, e') →
  queryAsArray_row tableName statement results d
  = (Ret None, after_call (call_step statement) e' d).
Proof.
  intros Hstep. unfold queryAsArray_row.
  erewrite bind_Ret by (rewrite (getNextRowOrTrue_run _ _ _ _ Hstep); reflexivity).
  reflexivity.
Qed.

(** One turn of the loop of [queryAsArray] on a row. *)
Lemma queryAsArray_row_on_row tableName statement results e1 id hdr (d : Database) :
  sqlite3_step statement (db_ d) = (SQLITE_ROW, e1) →
  (NDEBUG = false → sqlite3_column_name statement 0 e1 = Some "id") →
  sqlite3_column_text statement 0 e1 = Some id →
  match results with
  | [] => header ← column_header statement e1; Some [header]
  | _ :: _ => Some []
  end = Some hdr →
  queryAsArray_row tableName statement results d
  = let d1 := after_call (call_step statement) e1 d in
    let marked := set_cachedRecords_ ({[cacheKey tableName id]} ∪ cachedRecords_ d) d1 in
    if bool_decide (cacheKey tableName id ∈ cachedRecords_ d)
    then (Ret (Some (results ++ hdr ++ [JsString id])%list), d1)
    else match positional_array statement e1 with
         | Some record => (Ret (Some (results ++ hdr ++ [record])%list), marked)
         | None => (Throw UnsupportedColumnType, marked)
         end.
Proof.
  intros Hstep Hname Hid Hhdr. cbv zeta. unfold queryAsArray_row.
  erewrite bind_Ret by (rewrite (getNextRowOrTrue_run _ _ _ _ Hstep); reflexivity).
  cbv iota.
  erewrite bind_Ret by (apply assert_first_column_run; exact Hname).
  erewrite bind_Ret by reflexivity.
  change (db_ (after_call (call_step statement) e1 d)) with e1. rewrite Hid.
  set (d1 := after_call (call_step statement) e1 d).
  assert (Hpush : (if bool_decide (length results = 0%nat)
                   then columns ← resultColumns statement;
                        mret (results ++ [columns])%list
                   else mret results) d1
                  = (Ret (results ++ hdr)%list, d1)).
  { destruct results as [| r results]; simpl in Hhdr |- *.
    - destruct (column_header statement e1) as [header |] eqn:Hheader; [| discriminate].
      inversion Hhdr; subst hdr.
      erewrite bind_Ret by (apply resultColumns_run; exact Hheader). reflexivity.
    - inversion Hhdr; subst hdr. rewrite app_nil_r. reflexivity. }
  erewrite bind_Ret by exact Hpush.
  erewrite bind_Ret by apply isCached_run.
  change (cachedRecords_ d1) with (cachedRecords_ d).
  destruct (bool_decide (cacheKey tableName id ∈ cachedRecords_ d)).
  - rewrite <- app_assoc. reflexivity.
  - erewrite bind_Ret by reflexivity.
    unfold mbind, M_bind, bind. rewrite resultArray_run.
    change (db_ (set_cachedRecords_ ({[cacheKey tableName id]} ∪ cachedRecords_ d1) d1))
      with e1.
    destruct (positional_array statement e1); [rewrite <- app_assoc |]; reflexivity.
Qed.

(** The loop of [queryAsArray] over the rows a statement yields. *)
Lemma queryAsArray_loop tableName statement e rows e' :
  yields statement e rows e' →
  ∀ fuel results hdr items cached' (d : Database),
    db_ d = e →
    (NDEBUG = false →
     Forall (λ e1, sqlite3_column_name statement 0 e1 = Some "id") rows) →
    match results with
    | [] => array_header statement rows
    | _ :: _ => Some []
    end = Some hdr →
    array_rows tableName statement (cachedRecords_ d) rows = Some (items, cached') →
    (length rows < fuel)%nat →
    ∃ d', while_true fuel (queryAsArray_row tableName statement) results d
          = (Ret (results ++ hdr ++ items)%list, d') ∧
          cachedRecords_ d' = cached' ∧ db_ d' = e'.
Proof.
  induction 1 as [e e' Hstep | e e1 rows e' Hstep Hyields IH];
    intros fuel results hdr items cached' d Hdb Hnames Hhdr Hrows Hfuel; subst e.
  - destruct fuel as [| fuel]; [simpl in Hfuel; lia |].
    simpl in Hrows. inversion Hrows; subst items cached'.
    assert (hdr = []) by (destruct results; simpl in Hhdr; congruence). subst hdr.
    simpl while_true.
    erewrite bind_Ret by (apply queryAsArray_row_done; exact Hstep).
    eexists. split; [rewrite !app_nil_r; reflexivity |]. split; reflexivity.
  - destruct fuel as [| fuel]; [simpl in Hfuel; lia |]. simpl in Hfuel.
    simpl in Hrows.
    destruct (sqlite3_column_text statement 0 e1) as [id |] eqn:Hid; [| discriminate].
    simpl in Hrows.
    assert (Hname1 : NDEBUG = false → sqlite3_column_name statement 0 e1 = Some "id").
    { intros Hdebug. specialize (Hnames Hdebug). inversion Hnames; assumption. }
    assert (Hnames' : NDEBUG = false →
                      Forall (λ e1, sqlite3_column_name statement 0 e1 = Some "id") rows).
    { intros Hdebug. specialize (Hnames Hdebug). inversion Hnames; assumption. }
    pose proof (queryAsArray_row_on_row tableName statement results e1 id hdr d
                  Hstep Hname1 Hid) as Hturn.
    simpl while_true.
    destruct (bool_decide (cacheKey tableName id ∈ cachedRecords_ d)) eqn:Hcached.
    + destruct (array_rows tableName statement (cachedRecords_ d) rows)
        as [[items' cached''] |] eqn:Hrest; [| discriminate].
      simpl in Hrows. inversion Hrows; subst items cached'.
      erewrite bind_Ret
        by (apply Hturn; destruct results; simpl in Hhdr |- *; exact Hhdr).
      destruct (IH fuel (results ++ hdr ++ [JsString id])%list [] items' cached''
                  (after_call (call_step statement) e1 d) eq_refl Hnames')
        as (d' & Hloop & Hc & He); [| exact Hrest | lia |].
      { destruct results, hdr; reflexivity. }
      exists d'. split; [| split; assumption].
      rewrite Hloop. simpl. rewrite <- !app_assoc. reflexivity.
    + destruct (positional_array statement e1) as [record |] eqn:Hrecord; [| discriminate].
      simpl in Hrows.
      destruct (array_rows tableName statement
                  ({[cacheKey tableName id]} ∪ cachedRecords_ d) rows)
        as [[items' cached''] |] eqn:Hrest; [| discriminate].
      simpl in Hrows. inversion Hrows; subst items cached'.
      erewrite bind_Ret
        by (apply Hturn; destruct results; simpl in Hhdr |- *; exact Hhdr).
      destruct (IH fuel (results ++ hdr ++ [record])%list [] items' cached''
                  (set_cachedRecords_ ({[cacheKey tableName id]} ∪ cachedRecords_ d)
                     (after_call (call_step statement) e1 d)) eq_refl Hnames')
        as (d' & Hloop & Hc & He); [| exact Hrest | lia |].
      { destruct results, hdr; reflexivity. }
      exists d'. split; [| split; assumption].
      rewrite Hloop. simpl. rewrite <- !app_assoc. reflexivity.
Qed.

Lemma array_rows_length tableName statement rows : ∀ cached items cached',
  array_rows tableName statement cached rows = Some (items, cached') →
  length items = length rows.
Proof.
  induction rows as [| e rows IH]; intros cached items cached' H; simpl in H.
  - inversion H. reflexivity.
  - destruct (sqlite3_column_text statement 0 e) as [id |]; [| discriminate]. simpl in H.
    destruct (bool_decide _).
    + destruct (array_rows tableName statement cached rows) as [[items' c] |] eqn:Hrest;
        [| discriminate].
      inversion H; subst. simpl. f_equal. eapply IH. exact Hrest.
    + destruct (positional_array statement e); [| discriminate]. simpl in H.
      destruct (array_rows tableName statement _ rows) as [[items' c] |] eqn:Hrest;
        [| discriminate].
      inversion H; subst. simpl. f_equal. eapply IH. exact Hrest.
Qed.

(** C6, as the code has it.  When the statement yields the rows [rows]
    and then is done, [queryAsArray] returns the array [hdr ++ items]:
    [items] has one element for each row, in order, the id string for a
    row whose key is cached when the row is reached and else the
    Positional Array of the row, whose key is then cached ([array_rows]);
    [hdr] is the Column Header Array, taken from the first row.  The
    header is pushed when the first row is reached, so a query without
    rows returns the empty array, with no header. *)
Theorem queryAsArray_header_and_rows fuel tableName sql arguments statement rows e'
    hdr items cached' (d d1 d2 : Database) :
  prepareQuery sql d = (Ret statement, d1) →
  bindArgs statement arguments d1 = (Ret tt, d2) →
  yields statement (db_ d2) rows e' →
  (NDEBUG = false → Forall (λ e1, sqlite3_column_name statement 0 e1 = Some "id") rows) →
  array_header statement rows = Some hdr →
  array_rows tableName statement (cachedRecords_ d) rows = Some (items, cached') →
  (length rows < fuel)%nat →
  (∃ d', queryAsArray fuel tableName sql arguments d = (Ret (Array (hdr ++ items)), d') ∧
         cachedRecords_ d' = cached') ∧
  match rows with
  | [] => (hdr ++ items)%list = []
  | e1 :: _ => ∃ header, column_header statement e1 = Some header ∧
                         hdr = [header] ∧ length items = length rows
  end.
Proof.
  intros Hprepare Hbind Hyields Hnames Hhdr Hrows Hfuel.
  assert (Hcache : cachedRecords_ d2 = cachedRecords_ d).
  { pose proof (same_cache_prepareQuery _ _ _ _ Hprepare) as H1.
    pose proof (same_cache_bindArgs _ _ _ _ _ Hbind) as H2.
    unfold same_cache in *. congruence. }
  split.
  - rewrite <- Hcache in Hrows.
    destruct (queryAsArray_loop tableName statement _ rows e' Hyields fuel [] hdr items
                cached' d2 eq_refl Hnames Hhdr Hrows Hfuel) as (d' & Hloop & Hc & He).
    simpl in Hloop.
    eexists. split.
    + unfold queryAsArray, executeQuery.
      erewrite bind_Ret by exact Hprepare. erewrite bind_Ret by exact Hbind.
      unfold SqliteStatement. erewrite bind_Ret by exact Hloop.
      rewrite arrayFromStd_spec. reflexivity.
    + exact Hc.
  - destruct rows as [| e1 rows].
    + simpl in Hhdr, Hrows. inversion Hhdr. inversion Hrows. reflexivity.
    + simpl in Hhdr.
      destruct (column_header statement e1) as [header |]; [| discriminate].
      inversion Hhdr; subst hdr. exists header.
      split; [reflexivity |]. split; [reflexivity |].
      eapply array_rows_length. exact Hrows.
Qed.

(** ** A query that fails partway *)

#[local] Instance cache_grows_preorder : PreOrder cache_grows.
Proof.
  split.
  - intros d. unfold cache_grows. reflexivity.
  - intros d1 d2 d3 H12 H23. unfold cache_grows in *. set_solver.
Qed.

Lemma same_cache_grows (d d' : Database) : same_cache d d' → cache_grows d d'.
Proof. unfold same_cache, cache_grows. intros ->. reflexivity. Qed.

Lemma same_cache_respects_grows {A} (m : M A) :
  respects same_cache m → respects cache_grows m.
Proof. intros Hm d o d' H. apply same_cache_grows. eapply Hm. exact H. Qed.

(** Discharges the primitive steps for [cache_grows]. *)
Ltac cache_grows_prims :=
  first [ typeclasses eauto
        | intros; apply same_cache_respects_grows;
          first [ apply same_cache_call | apply same_cache_console
                | apply same_cache_statements ] ].

Lemma cache_grows_query_row tableName statement records :
  respects cache_grows (query_row tableName statement records).
Proof.
  unfold query_row.
  apply (respects_bind cache_grows);
    [apply respects_getNextRowOrTrue; cache_grows_prims | intros done].
  destruct done; [apply (respects_ret cache_grows) |].
  apply (respects_bind cache_grows);
    [apply respects_assert_first_column_is_id; cache_grows_prims | intros _].
  apply (respects_bind cache_grows); [apply (respects_peek cache_grows) | intros id].
  destruct id as [id |]; [| apply (respects_throw cache_grows)].
  apply (respects_bind cache_grows).
  { intros d o d' H. inversion H. reflexivity. }
  intros cached. destruct cached; [apply (respects_ret cache_grows) |].
  apply (respects_bind cache_grows).
  { intros d o d' H. inversion H. unfold cache_grows. simpl. set_solver. }
  intros _. apply (respects_bind cache_grows);
    [apply respects_resultDictionary; cache_grows_prims | intros record].
  apply (respects_ret cache_grows).
Qed.

(** A turn that goes on has pushed one element for a row with an id, and
    the key of that row is in the identity cache. *)
Lemma query_row_Some tableName statement records records1 (d d1 : Database) :
  query_row tableName statement records d = (Ret (Some records1), d1) →
  ∃ id item,
    sqlite3_column_text statement 0 (db_ d1) = Some id ∧
    records1 = (records ++ [item])%list ∧
    cacheKey tableName id ∈ cachedRecords_ d1.
Proof.
  unfold query_row. intros H.
  apply bind_Ret_inv in H as (done & da & Hnext & H).
  destruct done; [discriminate |].
  apply bind_Ret_inv in H as ([] & db & Hassert & H).
  apply (respects_assert_first_column_is_id eq) in Hassert. subst db.
  apply bind_Ret_inv in H as (ido & dc & Hpeek & H).
  inversion Hpeek; subst ido dc. clear Hpeek.
  destruct (sqlite3_column_text statement 0 (db_ da)) as [id |] eqn:Hid; [| discriminate].
  apply bind_Ret_inv in H as (cached & dd & Hcached & H).
  rewrite isCached_run in Hcached. inversion Hcached; subst cached dd. clear Hcached.
  destruct (bool_decide (cacheKey tableName id ∈ cachedRecords_ da)) eqn:Hin.
  - inversion H; subst. exists id, (JsString id).
    apply bool_decide_eq_true in Hin. repeat split; assumption.
  - apply bind_Ret_inv in H as ([] & de & Hmark & H).
    inversion Hmark; subst de. clear Hmark.
    apply bind_Ret_inv in H as (record & df & Hshape & H).
    apply (respects_resultDictionary eq) in Hshape. subst df.
    inversion H; subst. exists id, record.
    split; [exact Hid |]. split; [reflexivity |]. simpl. set_solver.
Qed.

Lemma query_turns_marks tableName statement records d rows records' d' :
  query_turns tableName statement records d rows records' d' →
  cache_grows d d' ∧
  length records' = (length records + length rows)%nat ∧
  length (row_keys tableName statement rows) = length rows ∧
  ∀ k, k ∈ row_keys tableName statement rows → k ∈ cachedRecords_ d'.
Proof.
  induction 1 as [records d | records d records1 d1 rows records2 d2 Hturn Hturns IH].
  - split; [reflexivity |]. split; [simpl; lia |]. split; [reflexivity |].
    intros k Hk. simpl in Hk. inversion Hk.
  - destruct IH as (Hgrows & Hlen & Hkeys & Hmarks).
    pose proof (cache_grows_query_row _ _ _ _ _ _ Hturn) as Hgrow1.
    destruct (query_row_Some _ _ _ _ _ _ Hturn) as (id & item & Hid & Hrecords & Hin).
    assert (Hrow_keys : row_keys tableName statement (db_ d1 :: rows)
                        = cacheKey tableName id :: row_keys tableName statement rows).
    { unfold row_keys. simpl. rewrite Hid. reflexivity. }
    split; [etransitivity; eassumption |].
    split; [subst records1; rewrite length_app in Hlen; simpl in *; lia |].
    split; [rewrite Hrow_keys; simpl; lia |].
    intros k Hk. rewrite Hrow_keys in Hk. apply elem_of_cons in Hk as [-> | Hk].
    + apply Hgrows. exact Hin.
    + apply Hmarks. exact Hk.
Qed.

Lemma while_true_query_turns tableName statement records d rows records' d' :
  query_turns tableName statement records d rows records' d' →
  ∀ fuel ex df,
    query_row tableName statement records' d' = (Throw ex, df) →
    (length rows < fuel)%nat →
    while_true fuel (query_row tableName statement) records d = (Throw ex, df).
Proof.
  induction 1 as [records d | records d records1 d1 rows records2 d2 Hturn Hturns IH];
    intros fuel ex df Hfail Hfuel.
  - destruct fuel as [| fuel]; [simpl in Hfuel; lia |].
    simpl. apply bind_Throw. exact Hfail.
  - destruct fuel as [| fuel]; [simpl in Hfuel; lia |]. simpl in Hfuel.
    simpl. erewrite bind_Ret by exact Hturn. apply IH; [exact Hfail | lia].
Qed.

(** C10. When [query] fails partway through its rows (the turn of the
    loop that follows the rows [rows] throws, for a null id, a column of
    a type that is not supported or a failed step), the call throws that
    error, and the key of every row it went through before is in the
    identity cache afterwards: the marks are made row by row and nothing
    takes them back. *)
Theorem query_failure_keeps_marks fuel tableName sql arguments statement rows records ex
    (d d1 d2 dn df : Database) :
  prepareQuery sql d = (Ret statement, d1) →
  bindArgs statement arguments d1 = (Ret tt, d2) →
  query_turns tableName statement [] d2 rows records dn →
  query_row tableName statement records dn = (Throw ex, df) →
  (length rows < fuel)%nat →
  ∃ d', query fuel tableName sql arguments d = (Throw ex, d') ∧
        length records = length rows ∧
        length (row_keys tableName statement rows) = length rows ∧
        (∀ k, k ∈ row_keys tableName statement rows → k ∈ cachedRecords_ d') ∧
        cachedRecords_ d ⊆ cachedRecords_ d'.
Proof.
  intros Hprepare Hbind Hturns Hfail Hfuel.
  pose proof (while_true_query_turns _ _ _ _ _ _ _ Hturns fuel ex df Hfail Hfuel) as Hloop.
  destruct (query_turns_marks _ _ _ _ _ _ _ Hturns) as (Hgrows & Hlen & Hkeys & Hmarks).
  pose proof (cache_grows_query_row _ _ _ _ _ _ Hfail) as Hgrow_fail.
  assert (Hcache : cachedRecords_ d2 = cachedRecords_ d).
  { pose proof (same_cache_prepareQuery _ _ _ _ Hprepare) as H1.
    pose proof (same_cache_bindArgs _ _ _ _ _ Hbind) as H2.
    unfold same_cache in *. congruence. }
  eexists. split.
  - unfold query, executeQuery.
    erewrite bind_Ret by exact Hprepare. erewrite bind_Ret by exact Hbind.
    unfold SqliteStatement. erewrite bind_Throw by exact Hloop. reflexivity.
  - simpl. unfold cache_grows in *.
    split; [simpl in Hlen; exact Hlen |]. split; [exact Hkeys |]. split.
    + intros k Hk. apply Hgrow_fail. apply Hmarks. exact Hk.
    + rewrite <- Hcache. set_solver.
Qed.

(** * Further properties *)

(** ** What every method keeps *)

Section Frames.

Variable R : relation Database.
Context {R_pre : PreOrder R}.

(** What is left to show for a relation: calls on the connection, console
    output and [prepareQuery]. *)
Hypothesis R_call : ∀ c A (f : E → A * E), respects R (call c f).
Hypothesis R_console : ∀ message, respects R (consoleError message).
Hypothesis R_prepare : ∀ sql, respects R (prepareQuery sql).

Lemma frame_SqliteStatement {A} stmt (scope : M A) :
  respects R scope → respects R (SqliteStatement stmt scope).
Proof. apply (respects_SqliteStatement R (λ c A f _, R_call c A f)). Qed.

Lemma frame_dbError description : respects R (dbError description).
Proof. apply (respects_dbError R R_console). Qed.

Lemma frame_bindArgs statement arguments : respects R (bindArgs statement arguments).
Proof. apply (respects_bindArgs R (λ c A f _, R_call c A f) R_console). Qed.

Lemma frame_getRow stmt : respects R (getRow stmt).
Proof. apply (respects_getRow R (λ c A f _, R_call c A f) R_console). Qed.

Lemma frame_getNextRowOrTrue stmt : respects R (getNextRowOrTrue stmt).
Proof. apply (respects_getNextRowOrTrue R (λ c A f _, R_call c A f) R_console). Qed.

Lemma frame_executeUpdate_stmt stmt : respects R (executeUpdate_stmt stmt).
Proof. apply (respects_executeUpdate_stmt R (λ c A f _, R_call c A f) R_console). Qed.

(** Goes through the code of a method, one construct after the other. *)
Ltac frame_step :=
  lazymatch goal with
  | |- respects _ (mbind _ _) => apply (respects_bind R); [| intros ?]
  | |- respects _ (mret _) => apply (respects_ret R)
  | |- respects _ (ret _) => apply (respects_ret R)
  | |- respects _ (throw _) => apply (respects_throw R)
  | |- respects _ (abort _) => apply (respects_abort R)
  | |- respects _ get => apply (respects_get R)
  | |- respects _ (peek _) => apply (respects_peek R)
  | |- respects _ (assert _ _) => apply (respects_assert R)
  | |- respects _ (assertM _ _) => apply (respects_assertM R)
  | |- respects _ (try_catch _ _) => apply (respects_try_catch R); [| intros ?]
  | |- respects _ (for_each _ _ _) => apply (respects_for_each R); intros ? ?
  | |- respects _ (while_true _ _ _) => apply (respects_while_true R); intros ?
  | |- respects _ (SqliteStatement _ _) => apply frame_SqliteStatement
  | |- respects _ (call _ _) => apply R_call
  | |- respects _ (call_ _ _) => apply R_call
  | |- respects _ (consoleError _) => apply R_console
  | |- respects _ (prepareQuery _) => apply R_prepare
  | |- respects _ (dbError _) => apply frame_dbError
  | |- respects _ (bindArgs _ _) => apply frame_bindArgs
  | |- respects _ (getRow _) => apply frame_getRow
  | |- respects _ (getNextRowOrTrue _) => apply frame_getNextRowOrTrue
  | |- respects _ (executeUpdate_stmt _) => apply frame_executeUpdate_stmt
  | |- respects _ (resultDictionary _) => apply (respects_resultDictionary R)
  | |- respects _ (resultArray _) => apply (respects_resultArray R)
  | |- respects _ (resultColumns _) => apply (respects_resultColumns R)
  | |- respects _ (assert_first_column_is_id _) =>
      apply (respects_assert_first_column_is_id R)
  | |- respects _ (if ?b then _ else _) => destruct b
  | |- respects _ (match ?x with _ => _ end) => destruct x
  end.

Lemma frame_executeQuery {A} sql arguments (scope : sqlite3_stmt → M A) :
  (∀ statement, respects R (scope statement)) →
  respects R (executeQuery sql arguments scope).
Proof. intros Hs. unfold executeQuery. repeat (frame_step || apply Hs). Qed.

Lemma frame_executeUpdate sql : respects R (executeUpdate sql).
Proof. unfold executeUpdate. repeat frame_step. Qed.

Lemma frame_executeUpdate_args sql args : respects R (executeUpdate_args sql args).
Proof. unfold executeUpdate_args. repeat frame_step. Qed.

Lemma frame_executeMultiple sql : respects R (executeMultiple sql).
Proof. unfold executeMultiple. repeat frame_step. Qed.

Lemma frame_rollback : respects R rollback.
Proof. unfold rollback. repeat (frame_step || apply frame_executeUpdate). Qed.

Lemma frame_getUserVersion : respects R getUserVersion.
Proof.
  unfold getUserVersion. apply frame_executeQuery. intros statement. repeat frame_step.
Qed.

Lemma frame_setUserVersion newVersion : respects R (setUserVersion newVersion).
Proof. apply frame_executeUpdate. Qed.

Lemma frame_count sql arguments : respects R (count sql arguments).
Proof. unfold count. apply frame_executeQuery. intros statement. repeat frame_step. Qed.

Lemma frame_getLocal key : respects R (getLocal key).
Proof. unfold getLocal. apply frame_executeQuery. intros statement. repeat frame_step. Qed.

Lemma frame_queryIds fuel sql arguments : respects R (queryIds fuel sql arguments).
Proof.
  unfold queryIds, queryIds_row. apply frame_executeQuery. intros statement.
  repeat frame_step.
Qed.

Lemma frame_unsafeQueryRaw fuel sql arguments :
  respects R (unsafeQueryRaw fuel sql arguments).
Proof.
  unfold unsafeQueryRaw, unsafeQueryRaw_row. apply frame_executeQuery. intros statement.
  repeat frame_step.
Qed.

Lemma frame_migrate_try migrationSql fromVersion toVersion :
  respects R (migrate_try migrationSql fromVersion toVersion).
Proof.
  unfold migrate_try, commit.
  repeat (frame_step || apply frame_getUserVersion || apply frame_executeMultiple
          || apply frame_setUserVersion || apply frame_executeUpdate).
Qed.

Lemma frame_migrate migrationSql fromVersion toVersion :
  respects R (migrate migrationSql fromVersion toVersion).
Proof.
  change (migrate migrationSql fromVersion toVersion)
    with (beginTransaction;;
          try_catch (migrate_try migrationSql fromVersion toVersion)
                    (λ ex, rollback;; throw ex)).
  unfold beginTransaction.
  repeat (frame_step || apply frame_executeUpdate || apply frame_migrate_try
          || apply frame_rollback).
Qed.

Lemma frame_batch_try operations : respects R (batch_try operations).
Proof.
  unfold batch_try, batch_operation, batch_args, first_arg_string, commit.
  repeat (frame_step || apply frame_executeUpdate || apply frame_executeUpdate_args).
Qed.

(** The methods that write the identity cache. *)
Hypothesis R_records : ∀ f, respects R (modify (λ d, set_cachedRecords_ (f d) d)).

Lemma frame_markAsCached key : respects R (markAsCached key).
Proof. apply R_records. Qed.

Lemma frame_removeFromCache key : respects R (removeFromCache key).
Proof. apply R_records. Qed.

Lemma frame_isCached key : respects R (isCached key).
Proof. unfold isCached. repeat frame_step. Qed.

Lemma frame_find tableName id : respects R (find tableName id).
Proof.
  unfold find.
  repeat (frame_step || apply frame_isCached || apply frame_markAsCached
          || (apply frame_executeQuery; intros ?)).
Qed.

Lemma frame_query fuel tableName sql arguments :
  respects R (query fuel tableName sql arguments).
Proof.
  unfold query, query_row. apply frame_executeQuery. intros statement.
  repeat (frame_step || apply frame_isCached || apply frame_markAsCached).
Qed.

Lemma frame_queryAsArray fuel tableName sql arguments :
  respects R (queryAsArray fuel tableName sql arguments).
Proof.
  unfold queryAsArray, queryAsArray_row. apply frame_executeQuery. intros statement.
  repeat (frame_step || apply frame_isCached || apply frame_markAsCached).
Qed.

Lemma frame_batch operations : respects R (batch operations).
Proof.
  unfold batch, beginTransaction.
  repeat (frame_step || apply frame_executeUpdate || apply frame_batch_try
          || apply frame_rollback || apply frame_markAsCached
          || apply frame_removeFromCache).
Qed.

Lemma frame_unsafeResetDatabase schema schemaVersion :
  respects R (unsafeResetDatabase schema schemaVersion).
Proof.
  unfold unsafeResetDatabase, unsafeResetDatabase_open, unsafeResetDatabase_try,
    beginTransaction, commit.
  repeat (frame_step || apply frame_executeUpdate || apply frame_executeMultiple
          || apply frame_setUserVersion || apply frame_rollback
          || apply (R_records (λ _, ∅))).
Qed.

End Frames.

(** ** Cache keys *)

(** X1.  [cacheKey] is the table name, a [$] sign and the record id.  For
    table names without a [$] sign two keys are equal only when both the
    table names and the record ids are: records of different tables, or
    different records of one table, never share an entry of the identity
    cache.  The record ids may hold any character. *)
Theorem cacheKey_injective tableName1 recordId1 tableName2 recordId2 :
  no_dollar tableName1 = true →
  no_dollar tableName2 = true →
  cacheKey tableName1 recordId1 = cacheKey tableName2 recordId2 →
  tableName1 = tableName2 ∧ recordId1 = recordId2.
Proof.
  unfold cacheKey. revert tableName2.
  assert (Hnil : ∀ s, String.append EmptyString s = s) by reflexivity.
  assert (Hcons : ∀ c s t, String.append (String c s) t = String c (String.append s t))
    by reflexivity.
  induction tableName1 as [| c1 t1 IH]; intros [| c2 t2] H1 H2 H;
    rewrite ?Hcons, ?Hnil in H; simpl in H1, H2.
  - inversion H. split; reflexivity.
  - inversion H; subst c2. discriminate.
  - inversion H; subst c1. discriminate.
  - inversion H; subst c2.
    apply andb_prop in H1 as [_ H1]. apply andb_prop in H2 as [_ H2].
    destruct (IH t2 H1 H2) as [-> ->]; [assumption |]. split; reflexivity.
Qed.

(** ** The statement cache *)

Local Abbreviation statements_kept := (@statements_kept double E).

#[local] Instance statements_kept_preorder : PreOrder statements_kept.
Proof.
  split.
  - intros d sql statement H _. exact H.
  - intros d1 d2 d3 H12 H23 sql statement H Hn. apply H23; [apply H12 |]; assumption.
Qed.

Lemma statements_kept_call c A (f : E → A * E) : respects statements_kept (call c f).
Proof.
  intros d o d' H. unfold call in H. destruct (f (db_ d)) as [a e'].
  inversion H. intros sql statement Hl _. exact Hl.
Qed.

Lemma statements_kept_console message : respects statements_kept (consoleError message).
Proof. intros d o d' H. inversion H. intros sql statement Hl _. exact Hl. Qed.

Lemma statements_kept_records f :
  respects statements_kept (modify (λ d, set_cachedRecords_ (f d) d)).
Proof. intros d o d' H. inversion H. intros sql statement Hl _. exact Hl. Qed.

Lemma statements_kept_insert sql statement (d d' : Database) :
  default nullptr (cachedStatements_ d !! sql) = nullptr →
  cachedStatements_ d' = <[sql := statement]> (cachedStatements_ d) →
  statements_kept d d'.
Proof.
  intros Hnull Hd' sql' statement' Hl Hn. rewrite Hd'.
  destruct (decide (sql = sql')) as [<- | Hne].
  - rewrite Hl in Hnull. simpl in Hnull. contradiction.
  - rewrite lookup_insert_ne by exact Hne. exact Hl.
Qed.

Lemma statements_kept_same (d d' : Database) :
  cachedStatements_ d' = cachedStatements_ d → statements_kept d d'.
Proof. intros Hd' sql statement Hl _. rewrite Hd'. exact Hl. Qed.

Lemma statements_kept_prepareQuery sql : respects statements_kept (prepareQuery sql).
Proof.
  intros d o d' H. unfold prepareQuery in H.
  erewrite bind_Ret in H by reflexivity.
  erewrite bind_Ret in H by reflexivity.
  destruct (bool_decide (default nullptr (cachedStatements_ d !! sql) = nullptr)) eqn:Hnull.
  - apply bool_decide_eq_true in Hnull.
    unfold mbind, M_bind, bind, call in H.
    destruct (sqlite3_prepare_v2 sql _) as [[rc statement] e1] eqn:Hprepare.
    simpl in H. rewrite Hnull in H.
    destruct (bool_decide (rc ≠ SQLITE_OK)); simpl in H.
    + inversion H; subst. apply (statements_kept_insert sql nullptr); [exact Hnull |].
      reflexivity.
    + unfold assert, assertM in H.
      assert (Hkept : ∀ d2 : Database,
                cachedStatements_ d2
                = <[sql := statement]> (<[sql := nullptr]> (cachedStatements_ d)) →
                statements_kept d d2).
      { intros d2 Hd2. apply (statements_kept_insert sql statement); [exact Hnull |].
        rewrite Hd2. apply insert_insert_eq. }
      destruct NDEBUG; simpl in H.
      * inversion H; subst. apply Hkept. reflexivity.
      * unfold ret, abort in H. destruct (bool_decide (statement ≠ nullptr));
          inversion H; subst; apply Hkept; reflexivity.
  - apply bool_decide_eq_false in Hnull.
    destruct (cachedStatements_ d !! sql) as [statement |] eqn:Hl;
      [| exfalso; apply Hnull; reflexivity].
    simpl in H. rewrite insert_id in H by exact Hl.
    rewrite set_cachedStatements_id in H.
    erewrite bind_Ret in H by reflexivity.
    unfold assert, assertM in H.
    destruct NDEBUG; simpl in H.
    + inversion H; subst. apply statements_kept_same. reflexivity.
    + unfold mbind, M_bind, bind, ret, abort in H.
      destruct (bool_decide (statement ≠ nullptr));
        inversion H; subst; apply statements_kept_same; reflexivity.
Qed.

(** Discharges the primitive steps for [statements_kept]. *)
Ltac statements_kept_prims :=
  first [ typeclasses eauto
        | intros; apply statements_kept_call
        | apply statements_kept_console
        | apply statements_kept_prepareQuery
        | apply statements_kept_records ].

(** X2.  No method of the class takes a statement out of the statement
    cache or puts another one under its SQL text: a statement that is in
    the cache (and is not null) before a call of [find], [query],
    [queryAsArray], [queryIds], [unsafeQueryRaw], [count], [batch],
    [unsafeResetDatabase], [migrate] or [getLocal] is in it, under the
    same SQL text, after the call, however the call ends.  The cache only
    loses statements when the object is destroyed. *)
Theorem statement_cache_never_evicts (d : Database) :
  (∀ tableName id, statements_kept d (snd (find tableName id d))) ∧
  (∀ fuel tableName sql arguments,
     statements_kept d (snd (query fuel tableName sql arguments d))) ∧
  (∀ fuel tableName sql arguments,
     statements_kept d (snd (queryAsArray fuel tableName sql arguments d))) ∧
  (∀ fuel sql arguments, statements_kept d (snd (queryIds fuel sql arguments d))) ∧
  (∀ fuel sql arguments, statements_kept d (snd (unsafeQueryRaw fuel sql arguments d))) ∧
  (∀ sql arguments, statements_kept d (snd (count sql arguments d))) ∧
  (∀ operations, statements_kept d (snd (batch operations d))) ∧
  (∀ schema schemaVersion,
     statements_kept d (snd (unsafeResetDatabase schema schemaVersion d))) ∧
  (∀ migrationSql fromVersion toVersion,
     statements_kept d (snd (migrate migrationSql fromVersion toVersion d))) ∧
  (∀ key, statements_kept d (snd (getLocal key d))).
Proof.
  repeat split; intros.
  - eapply (frame_find statements_kept); [statements_kept_prims .. | apply surjective_pairing].
  - eapply (frame_query statements_kept);
      [statements_kept_prims .. | apply surjective_pairing].
  - eapply (frame_queryAsArray statements_kept);
      [statements_kept_prims .. | apply surjective_pairing].
  - eapply (frame_queryIds statements_kept);
      [statements_kept_prims .. | apply surjective_pairing].
  - eapply (frame_unsafeQueryRaw statements_kept);
      [statements_kept_prims .. | apply surjective_pairing].
  - eapply (frame_count statements_kept);
      [statements_kept_prims .. | apply surjective_pairing].
  - eapply (frame_batch statements_kept);
      [statements_kept_prims .. | apply surjective_pairing].
  - eapply (frame_unsafeResetDatabase statements_kept);
      [statements_kept_prims .. | apply surjective_pairing].
  - eapply (frame_migrate statements_kept);
      [statements_kept_prims .. | apply surjective_pairing].
  - eapply (frame_getLocal statements_kept);
      [statements_kept_prims .. | apply surjective_pairing].
Qed.

(** X3.  A statement that [prepareQuery] has handed out is handed out
    again for the same SQL text, whatever the object has done in between
    that kept the statement cache ([statements_kept], which every method
    does): the later call prepares nothing, it resets the statement and
    returns it. *)
Theorem prepareQuery_hands_out_cached_statement sql statement (d d1 d2 : Database) :
  prepareQuery sql d = (Ret statement, d1) →
  statement ≠ nullptr →
  statements_kept d1 d2 →
  prepareQuery sql d2
  = (Ret statement, after_call (call_reset statement) (sqlite3_reset statement (db_ d2)) d2).
Proof.
  intros Hprepare Hnonnull Hkept.
  apply prepareQuery_cached; [| exact Hnonnull].
  apply Hkept; [| exact Hnonnull].
  eapply prepareQuery_caches. exact Hprepare.
Qed.

(** X4.  The methods that are not about records leave the identity cache
    as it is, however they end: [queryIds], [unsafeQueryRaw], [count],
    [getLocal], [migrate], and reading or setting the user version. *)
Theorem identity_cache_untouched_by_other_methods (d : Database) :
  (∀ fuel sql arguments,
     cachedRecords_ (snd (queryIds fuel sql arguments d)) = cachedRecords_ d) ∧
  (∀ fuel sql arguments,
     cachedRecords_ (snd (unsafeQueryRaw fuel sql arguments d)) = cachedRecords_ d) ∧
  (∀ sql arguments, cachedRecords_ (snd (count sql arguments d)) = cachedRecords_ d) ∧
  (∀ key, cachedRecords_ (snd (getLocal key d)) = cachedRecords_ d) ∧
  (∀ migrationSql fromVersion toVersion,
     cachedRecords_ (snd (migrate migrationSql fromVersion toVersion d))
     = cachedRecords_ d) ∧
  cachedRecords_ (snd (getUserVersion d)) = cachedRecords_ d ∧
  (∀ newVersion, cachedRecords_ (snd (setUserVersion newVersion d)) = cachedRecords_ d).
Proof.
  assert (Hprims : (∀ c A (f : E → A * E), respects same_cache (call c f)) ∧
                   (∀ message, respects same_cache (consoleError message)) ∧
                   (∀ sql, respects same_cache (prepareQuery sql))).
  { split; [| split]; intros;
      [apply same_cache_call | apply same_cache_console | apply same_cache_prepareQuery]. }
  destruct Hprims as (Hcall & Hconsole & Hprepare).
  repeat split; intros.
  - eapply (frame_queryIds same_cache Hcall Hconsole Hprepare). apply surjective_pairing.
  - eapply (frame_unsafeQueryRaw same_cache Hcall Hconsole Hprepare).
    apply surjective_pairing.
  - eapply (frame_count same_cache Hcall Hconsole Hprepare). apply surjective_pairing.
  - eapply (frame_getLocal same_cache Hcall Hconsole Hprepare). apply surjective_pairing.
  - eapply (frame_migrate same_cache Hcall Hconsole Hprepare). apply surjective_pairing.
  - eapply (frame_getUserVersion same_cache Hcall Hconsole Hprepare).
    apply surjective_pairing.
  - eapply (frame_setUserVersion same_cache Hcall Hconsole Hprepare).
    apply surjective_pairing.
Qed.

(** What the guard makes of the outcome of its scope. *)
Lemma SqliteStatement_Ret_inv {A} stmt (scope : M A) a (d d' : Database) :
  SqliteStatement stmt scope d = (Ret a, d') →
  ∃ d1, scope d = (Ret a, d1) ∧
        d' = after_call (call_reset stmt) (sqlite3_reset stmt (db_ d1)) d1.
Proof.
  unfold SqliteStatement. run_cases scope d; intros H; inversion H; subst. eauto.
Qed.

Lemma SqliteStatement_Throw_inv {A} stmt (scope : M A) ex (d d' : Database) :
  SqliteStatement stmt scope d = (Throw ex, d') →
  ∃ d1, scope d = (Throw ex, d1) ∧
        d' = after_call (call_reset stmt) (sqlite3_reset stmt (db_ d1)) d1.
Proof.
  unfold SqliteStatement. run_cases scope d; intros H; inversion H; subst. eauto.
Qed.

(** [prepareQuery] on an SQL text whose entry is null or missing calls
    [sqlite3_prepare_v2]. *)
Lemma prepareQuery_null_prepares sql (d : Database) :
  default nullptr (cachedStatements_ d !! sql) = nullptr →
  ∃ l, calls (snd (prepareQuery sql d)) = (l ++ call_prepare_v2 sql :: calls d)%list.
Proof.
  intros Hnull. unfold prepareQuery.
  erewrite bind_Ret by reflexivity. erewrite bind_Ret by reflexivity.
  rewrite Hnull. rewrite bool_decide_eq_true_2 by reflexivity.
  unfold mbind, M_bind, bind, call. simpl.
  destruct (sqlite3_prepare_v2 sql (db_ d)) as [[rc statement] e1]. simpl.
  destruct (bool_decide (rc ≠ SQLITE_OK)); simpl.
  - exists [call_finalize statement]. reflexivity.
  - unfold assert, assertM. destruct NDEBUG; simpl; [exists []; reflexivity |].
    unfold ret, abort. destruct (bool_decide (statement ≠ nullptr)); exists []; reflexivity.
Qed.

(** X5.  A call of [prepareQuery] that throws has not cached a statement:
    the engine refused the SQL text, what it gave was finalized, and the
    entry of the SQL text in the statement cache is null (the entry
    itself was made by the lookup); the other entries are as before and
    the error is the last line of the console.  So the next call with
    the same SQL text asks the engine to prepare it again. *)
Theorem prepareQuery_failure_is_not_cached sql ex (d d' : Database) :
  prepareQuery sql d = (Throw ex, d') →
  cachedStatements_ d' !! sql = Some nullptr ∧
  (∀ sql', sql' ≠ sql → cachedStatements_ d' !! sql' = cachedStatements_ d !! sql') ∧
  head (console d') = Some (what ex) ∧
  (∃ statement, calls d' = call_finalize statement :: call_prepare_v2 sql :: calls d) ∧
  ∃ l, calls (snd (prepareQuery sql d')) = (l ++ call_prepare_v2 sql :: calls d')%list.
Proof.
  intros H.
  assert (Hstate : cachedStatements_ d' = <[sql := nullptr]> (cachedStatements_ d) ∧
                   head (console d') = Some (what ex) ∧
                   ∃ statement,
                     calls d' = call_finalize statement :: call_prepare_v2 sql :: calls d).
  { unfold prepareQuery in H.
    erewrite bind_Ret in H by reflexivity. erewrite bind_Ret in H by reflexivity.
    destruct (bool_decide (default nullptr (cachedStatements_ d !! sql) = nullptr))
      eqn:Hnull.
    - apply bool_decide_eq_true in Hnull.
      unfold mbind, M_bind, bind, call in H. simpl in H.
      destruct (sqlite3_prepare_v2 sql (db_ d)) as [[rc statement] e1]. simpl in H.
      rewrite Hnull in H.
      destruct (bool_decide (rc ≠ SQLITE_OK)); simpl in H.
      + inversion H; subst. simpl. split; [reflexivity |]. split; [reflexivity |].
        exists statement. reflexivity.
      + unfold assert, assertM in H. destruct NDEBUG; simpl in H; [discriminate |].
        unfold ret, abort in H. destruct (bool_decide (statement ≠ nullptr)); discriminate.
    - unfold mbind, M_bind, bind, call_, call in H. simpl in H.
      unfold assert, assertM in H. destruct NDEBUG; simpl in H; [discriminate |].
      unfold ret, abort in H.
      destruct (bool_decide (default nullptr (cachedStatements_ d !! sql) ≠ nullptr));
        discriminate. }
  destruct Hstate as (Hmap & Hconsole & Hcalls).
  split; [rewrite Hmap; apply lookup_insert_eq |].
  split; [intros sql' Hne; rewrite Hmap; apply lookup_insert_ne; congruence |].
  split; [exact Hconsole |]. split; [exact Hcalls |].
  apply prepareQuery_null_prepares. rewrite Hmap, lookup_insert_eq. reflexivity.
Qed.

(** ** Errors on the console *)

Lemma logs_executeUpdate_stmt statement : logs_what_it_throws (executeUpdate_stmt statement).
Proof.
  intros d ex d' H. unfold executeUpdate_stmt, mbind, M_bind, bind, call in H.
  destruct (sqlite3_step statement (db_ d)) as [rc e1]. simpl in H.
  destruct (bool_decide (rc ≠ SQLITE_DONE)); simpl in H; inversion H; subst. reflexivity.
Qed.

Lemma logs_prepareQuery sql : logs_what_it_throws (prepareQuery sql).
Proof.
  intros d ex d' H. unfold prepareQuery in H.
  erewrite bind_Ret in H by reflexivity. erewrite bind_Ret in H by reflexivity.
  unfold assert, assertM in H.
  destruct (bool_decide (default nullptr (cachedStatements_ d !! sql) = nullptr)).
  - unfold mbind, M_bind, bind, call in H. simpl in H.
    destruct (sqlite3_prepare_v2 sql (db_ d)) as [[rc statement] e1]. simpl in H.
    destruct (bool_decide (rc ≠ SQLITE_OK)); simpl in H.
    + inversion H; subst. reflexivity.
    + destruct NDEBUG; simpl in H; [discriminate |].
      unfold ret, abort in H. destruct (bool_decide (statement ≠ nullptr)); discriminate.
  - unfold mbind, M_bind, bind, call_, call in H. simpl in H.
    destruct NDEBUG; simpl in H; [discriminate |].
    unfold ret, abort in H. destruct (bool_decide (_ ≠ nullptr)); discriminate.
Qed.

Lemma logs_executeUpdate sql : logs_what_it_throws (executeUpdate sql).
Proof.
  intros d ex d' H. unfold executeUpdate in H.
  apply bind_Throw_inv in H as [H | (statement & d1 & _ & H)].
  - eapply logs_prepareQuery. exact H.
  - apply SqliteStatement_Throw_inv in H as (d2 & H & ->). simpl.
    eapply logs_executeUpdate_stmt. exact H.
Qed.

(** X6.  An error that comes from the engine is printed before it is
    thrown: when [prepareQuery], [executeUpdate], [getRow],
    [getNextRowOrTrue], [beginTransaction], [commit] or [setUserVersion]
    throws, the message of the error is the last line printed on the
    console (resetting the statement on the way out prints nothing). *)
Theorem engine_errors_are_printed :
  (∀ sql, logs_what_it_throws (prepareQuery sql)) ∧
  (∀ sql, logs_what_it_throws (executeUpdate sql)) ∧
  (∀ stmt, logs_what_it_throws (getRow stmt)) ∧
  (∀ stmt, logs_what_it_throws (getNextRowOrTrue stmt)) ∧
  logs_what_it_throws beginTransaction ∧
  logs_what_it_throws commit ∧
  (∀ newVersion, logs_what_it_throws (setUserVersion newVersion)).
Proof.
  split; [exact logs_prepareQuery |]. split; [exact logs_executeUpdate |].
  split; [| split; [| split; [| split]]].
  - intros stmt d ex d' H.
    destruct (sqlite3_step stmt (db_ d)) as [rc e1] eqn:Hstep.
    rewrite (getRow_run _ _ _ _ Hstep) in H. cbv zeta in H.
    destruct (bool_decide (rc ≠ SQLITE_ROW)); inversion H; subst. reflexivity.
  - intros stmt d ex d' H.
    destruct (sqlite3_step stmt (db_ d)) as [rc e1] eqn:Hstep.
    rewrite (getNextRowOrTrue_run _ _ _ _ Hstep) in H. cbv zeta in H.
    destruct (bool_decide (rc = SQLITE_DONE)); [discriminate |].
    destruct (bool_decide (rc ≠ SQLITE_ROW)); inversion H; subst. reflexivity.
  - apply logs_executeUpdate.
  - apply logs_executeUpdate.
  - intros newVersion. apply logs_executeUpdate.
Qed.

(** X7.  [rollback] never throws.  It prints the rollback notice, runs
    [rollback transaction], and when that fails it prints the error as
    probably harmless and returns: the error is not passed on, so it
    cannot take the place of the error that made the caller roll back. *)
Theorem rollback_swallows_errors (d : Database) :
  (∀ ex d', rollback d ≠ (Throw ex, d')) ∧
  (∃ l, console (snd (rollback d)) = (l ++ rollback_notice :: console d)%list) ∧
  (∀ ex d1,
     executeUpdate "rollback transaction" (set_console (rollback_notice :: console d) d)
     = (Throw ex, d1) →
     rollback d
     = (Ret tt,
        set_console
          (("Error while attempting to roll back transaction, probably harmless: "
            ++ what ex) :: console d1) d1)).
Proof.
  split; [intros ex d'; apply rollback_never_throws |].
  set (d0 := set_console (rollback_notice :: console d) d).
  assert (Hrun : rollback d
                 = try_catch (executeUpdate "rollback transaction")
                     (λ ex,
                        consoleError
                          ("Error while attempting to roll back transaction, probably harmless: "
                           ++ what ex)) d0) by reflexivity.
  split.
  - rewrite Hrun. unfold try_catch.
    run_cases (executeUpdate "rollback transaction") d0;
      pose proof (console_grows_executeUpdate _ _ _ _ Hrun0) as [l Hl]; simpl.
    + exists l. exact Hl.
    + exists (("Error while attempting to roll back transaction, probably harmless: "
              ++ what ex) :: l). rewrite Hl. reflexivity.
    + exists l. exact Hl.
    + exists l. exact Hl.
  - intros ex d1 Hfail. rewrite Hrun. unfold try_catch. rewrite Hfail. reflexivity.
Qed.

(** ** The binder *)

Lemma bindArgs_loop_binds statement arguments : ∀ i e' (d : Database),
  bind_arguments statement i arguments (db_ d) = Some e' →
  bindArgs_loop statement i arguments d
  = (Ret tt, set_calls (rev (bind_calls statement i arguments) ++ calls d) (set_db_ e' d)) ∧
  length (bind_calls statement i arguments) = length arguments ∧
  ∀ j value, arguments !! j = Some value →
             bind_calls statement i arguments !! j
             = bind_call statement (i + Z.of_nat j) value ∧
             is_Some (bind_call statement (i + Z.of_nat j) value).
Proof.
  induction arguments as [| value rest IH]; intros i e' d H; simpl in H.
  - inversion H; subst. split; [destruct d; reflexivity |]. split; [reflexivity |].
    intros j v Hj. inversion Hj.
  - destruct value; simpl in H; try discriminate.
    all: match type of H with
         | (if bool_decide (fst ?r = _) then _ else _) = _ =>
             destruct r as [rc e1] eqn:Hr; simpl in H;
             destruct (bool_decide (rc = SQLITE_OK)) eqn:Hrc; [| discriminate];
             apply bool_decide_eq_true in Hrc
         end.
    all: simpl bind_calls.
    all: match goal with
         | |- context [rev (?c :: _)] =>
             destruct (IH (i + 1)%Z e' (after_call c e1 d) H) as (Hloop & Hlen & Hcalls)
         end; clear IH.
    all: split;
      [ simpl; unfold mbind, M_bind, bind, call; rewrite Hr; simpl;
        rewrite bool_decide_eq_false_2 by (intros Hn; apply Hn; exact Hrc);
        unfold after_call in Hloop; rewrite Hloop; simpl; rewrite <- app_assoc; reflexivity
      | split; [simpl; rewrite Hlen; reflexivity |];
        intros [| j] v Hj; simpl in Hj;
        [ inversion Hj; subst; simpl; rewrite Z.add_0_r; split; [reflexivity | eauto]
        | replace (i + Z.of_nat (S j))%Z with (i + 1 + Z.of_nat j)%Z by lia;
          simpl; apply (Hcalls j v Hj) ] ].
Qed.

(** X8.  When the argument list is as long as the statement has
    placeholders and the engine takes every argument, [bindArgs] makes
    one bind call for each argument, in the order of the list, argument
    [i] to placeholder [i + 1]: null and undefined as SQL NULL, a string
    as text, a number as a double, a boolean as the integer 1 or 0.  It
    makes no other call (the statement is not reset), prints nothing and
    leaves both caches as they are. *)
Theorem bindArgs_binds_in_order statement arguments e' (d : Database) :
  sqlite3_bind_parameter_count statement (db_ d) = Z.of_nat (length arguments) →
  (Z.of_nat (length arguments) < 2 ^ 64)%Z →
  bind_arguments statement 0 arguments (db_ d) = Some e' →
  bindArgs statement arguments d
  = (Ret tt, set_calls (rev (bind_calls statement 0 arguments) ++ calls d) (set_db_ e' d)) ∧
  length (bind_calls statement 0 arguments) = length arguments ∧
  ∀ i value, arguments !! i = Some value →
             bind_calls statement 0 arguments !! i
             = bind_call statement (Z.of_nat i) value ∧
             is_Some (bind_call statement (Z.of_nat i) value).
Proof.
  intros Hcount Hsmall Hbind.
  destruct (bindArgs_loop_binds statement arguments 0 e' d Hbind) as (Hloop & Hlen & Hcalls).
  split; [| split; [exact Hlen | exact Hcalls]].
  unfold bindArgs. erewrite bind_Ret by reflexivity. rewrite Hcount.
  assert (Hsize : size_t_of_int (Z.of_nat (length arguments)) = Z.of_nat (length arguments)).
  { unfold size_t_of_int. apply Z.mod_small. lia. }
  rewrite bool_decide_eq_false_2 by (intros Hn; apply Hn; exact Hsize).
  rewrite Nat2Z.id, firstn_all. exact Hloop.
Qed.

(** The loop of the binder on a list whose first value that cannot be
    bound is [value]. *)
Lemma bindArgs_loop_rejects statement before value after : ∀ i e1 (d : Database),
  bind_arguments statement i before (db_ d) = Some e1 →
  bind_call statement (i + Z.of_nat (length before)) value = None →
  bindArgs_loop statement i (before ++ value :: after) d
  = (Throw (InvalidArgType value),
     set_calls (call_reset statement :: rev (bind_calls statement i before) ++ calls d)
               (set_db_ (sqlite3_reset statement e1) d)).
Proof.
  induction before as [| v rest IH]; intros i e1 d Hbind Hnone; simpl in Hbind.
  - inversion Hbind; subst e1. clear Hbind. simpl.
    destruct value; simpl in Hnone; try discriminate; destruct d; reflexivity.
  - destruct v; simpl in Hbind; try discriminate.
    all: match type of Hbind with
         | (if bool_decide (fst ?r = _) then _ else _) = _ =>
             destruct r as [rc e2] eqn:Hr; simpl in Hbind;
             destruct (bool_decide (rc = SQLITE_OK)) eqn:Hrc; [| discriminate];
             apply bool_decide_eq_true in Hrc
         end.
    all: simpl bind_calls.
    all: match goal with
         | |- context [rev (?c :: _)] =>
             pose proof (IH (i + 1)%Z e1 (after_call c e2 d) Hbind) as Hloop
         end; clear IH.
    all: simpl length in Hnone;
      replace (i + Z.of_nat (S (length rest)))%Z
        with (i + 1 + Z.of_nat (length rest))%Z in Hnone by lia;
      specialize (Hloop Hnone).
    all: simpl; unfold mbind, M_bind, bind, call; rewrite Hr; simpl;
      rewrite bool_decide_eq_false_2 by (intros Hn; apply Hn; exact Hrc);
      unfold after_call in Hloop; rewrite Hloop; simpl; rewrite <- app_assoc; reflexivity.
Qed.

(** X9.  An argument that is an object or an array (or of a kind the
    binder does not know) makes [bindArgs] throw the invalid-argument
    error when it comes to it: the arguments before it have been bound,
    the statement is then reset, and nothing is printed.  No argument
    after it is looked at. *)
Theorem bindArgs_rejects_unbindable statement before value after e1 (d : Database) :
  sqlite3_bind_parameter_count statement (db_ d)
    = Z.of_nat (length (before ++ value :: after)) →
  (Z.of_nat (length (before ++ value :: after)) < 2 ^ 64)%Z →
  bind_arguments statement 0 before (db_ d) = Some e1 →
  bind_call statement (Z.of_nat (length before)) value = None →
  bindArgs statement (before ++ value :: after) d
  = (Throw (InvalidArgType value),
     set_calls (call_reset statement :: rev (bind_calls statement 0 before) ++ calls d)
               (set_db_ (sqlite3_reset statement e1) d)).
Proof.
  intros Hcount Hsmall Hbind Hnone.
  - unfold bindArgs. erewrite bind_Ret by reflexivity. rewrite Hcount.
    assert (Hsize : size_t_of_int (Z.of_nat (length (before ++ value :: after)))
                    = Z.of_nat (length (before ++ value :: after))).
    { unfold size_t_of_int. apply Z.mod_small. lia. }
    rewrite bool_decide_eq_false_2 by (intros Hn; apply Hn; exact Hsize).
    rewrite Nat2Z.id, firstn_all.
    apply bindArgs_loop_rejects; [exact Hbind | exact Hnone].
Qed.

(** ** Queries that return ids or raw rows *)

Lemma mapM_cons_Some {A B} (f : A → option B) x l ys :
  mapM f (x :: l) = Some ys →
  ∃ y ys', f x = Some y ∧ mapM f l = Some ys' ∧ ys = y :: ys'.
Proof.
  intros H. apply mapM_Some_1 in H. inversion H as [| ? y ? ys' Hy Hrest]; subst.
  exists y, ys'. split; [exact Hy |]. split; [| reflexivity].
  apply mapM_Some_2. exact Hrest.
Qed.

Lemma mapM_fmap_Some {A B} (f : A → option B) l ys :
  mapM f l = Some ys → f <$> l = Some <$> ys.
Proof.
  intros H. apply mapM_Some_1 in H.
  induction H as [| x y l ys Hy _ IH]; [reflexivity |].
  rewrite !fmap_cons, Hy, IH. reflexivity.
Qed.

Lemma while_true_S {S} fuel (turn : S → M (option S)) s :
  while_true (Datatypes.S fuel) turn s
  = (r ← turn s; match r with None => mret s | Some s' => while_true fuel turn s' end).
Proof. reflexivity. Qed.

Lemma yields_stepped statement e rows e' :
  yields statement e rows e' →
  ∃ e1, stepped statement e rows e1 ∧ sqlite3_step statement e1 = (SQLITE_DONE, e').
Proof.
  induction 1 as [e e' Hstep | e e1 rows e' Hstep _ (e2 & Hstepped & Hdone)].
  - exists e. split; [constructor | exact Hstep].
  - exists e2. split; [econstructor; eassumption | exact Hdone].
Qed.

Lemma resultDictionary_of statement record (d : Database) :
  dictionary_of statement (db_ d) = Some record →
  resultDictionary statement d = (Ret record, d).
Proof.
  unfold dictionary_of. intros H.
  destruct (mapM (λ i, sqlite3_column_name statement i (db_ d)) _) as [names |] eqn:Hnames;
    [| discriminate].
  simpl in H.
  destruct (mapM (column_value statement (db_ d)) _) as [values |] eqn:Hvalues;
    [| discriminate].
  simpl in H. inversion H; subst record.
  rewrite (resultDictionary_run statement names d).
  - rewrite Hvalues. reflexivity.
  - unfold column_names. apply mapM_fmap_Some. exact Hnames.
Qed.

Lemma queryIds_row_done statement ids e' (d : Database) :
  sqlite3_step statement (db_ d) = (SQLITE_DONE, e') →
  queryIds_row statement ids d = (Ret None, after_call (call_step statement) e' d).
Proof.
  intros Hstep. unfold queryIds_row.
  erewrite bind_Ret by (rewrite (getNextRowOrTrue_run _ _ _ _ Hstep); reflexivity).
  reflexivity.
Qed.

Lemma queryIds_row_on_row statement ids e1 (d : Database) :
  sqlite3_step statement (db_ d) = (SQLITE_ROW, e1) →
  (NDEBUG = false → sqlite3_column_name statement 0 e1 = Some "id") →
  queryIds_row statement ids d
  = (match sqlite3_column_text statement 0 e1 with
     | Some idText => Ret (Some (ids ++ [JsString idText])%list)
     | None => Throw MissingId
     end, after_call (call_step statement) e1 d).
Proof.
  intros Hstep Hname. unfold queryIds_row.
  erewrite bind_Ret by (rewrite (getNextRowOrTrue_run _ _ _ _ Hstep); reflexivity).
  cbv iota.
  erewrite bind_Ret by (apply assert_first_column_run; exact Hname).
  erewrite bind_Ret by reflexivity.
  change (db_ (after_call (call_step statement) e1 d)) with e1.
  destruct (sqlite3_column_text statement 0 e1); reflexivity.
Qed.

(** The turns of the loop of [queryIds] over rows that have an id. *)
Lemma queryIds_loop statement e rows e1 :
  stepped statement e rows e1 →
  ∀ fuel ids texts (d : Database),
    db_ d = e →
    (NDEBUG = false →
     Forall (λ e, sqlite3_column_name statement 0 e = Some "id") rows) →
    mapM (sqlite3_column_text statement 0) rows = Some texts →
    ∃ d1, db_ d1 = e1 ∧ cachedRecords_ d1 = cachedRecords_ d ∧
          console d1 = console d ∧
          while_true (length rows + fuel) (queryIds_row statement) ids d
          = while_true fuel (queryIds_row statement) (ids ++ (JsString <$> texts))%list d1.
Proof.
  induction 1 as [e | e e1 rows e' Hstep Hrest IH];
    intros fuel ids texts d Hdb Hnames Htexts; subst e.
  - inversion Htexts; subst texts. exists d. rewrite app_nil_r. repeat split; reflexivity.
  - apply mapM_cons_Some in Htexts as (text & texts' & Htext & Htexts & ->).
    assert (Hname1 : NDEBUG = false → sqlite3_column_name statement 0 e1 = Some "id").
    { intros Hdebug. specialize (Hnames Hdebug). inversion Hnames; assumption. }
    assert (Hnames' : NDEBUG = false →
                      Forall (λ e, sqlite3_column_name statement 0 e = Some "id") rows).
    { intros Hdebug. specialize (Hnames Hdebug). inversion Hnames; assumption. }
    destruct (IH fuel (ids ++ [JsString text])%list texts'
                (after_call (call_step statement) e1 d) eq_refl Hnames' Htexts)
      as (d1 & Hdb1 & Hcache & Hconsole & Hloop).
    exists d1. split; [exact Hdb1 |]. split; [exact Hcache |]. split; [exact Hconsole |].
    change (length (e1 :: rows) + fuel)%nat with (S (length rows + fuel)).
    rewrite while_true_S. erewrite bind_Ret
      by (rewrite (queryIds_row_on_row _ _ _ _ Hstep Hname1), Htext; reflexivity).
    cbv beta iota. rewrite Hloop, <- app_assoc. reflexivity.
Qed.

(** X10.  When the statement yields the rows [rows] and then is done,
    each with a text in column 0, [queryIds] returns the array of those
    texts as host strings, one for each row, in order.  It does not look
    at the identity cache and does not write it; the statement is reset
    at the end. *)
Theorem queryIds_returns_ids fuel sql arguments statement rows e' texts
    (d d1 d2 : Database) :
  prepareQuery sql d = (Ret statement, d1) →
  bindArgs statement arguments d1 = (Ret tt, d2) →
  yields statement (db_ d2) rows e' →
  (NDEBUG = false → Forall (λ e1, sqlite3_column_name statement 0 e1 = Some "id") rows) →
  mapM (sqlite3_column_text statement 0) rows = Some texts →
  (length rows < fuel)%nat →
  ∃ d', queryIds fuel sql arguments d = (Ret (Array (JsString <$> texts)), d') ∧
        cachedRecords_ d' = cachedRecords_ d ∧
        db_ d' = sqlite3_reset statement e' ∧
        head (calls d') = Some (call_reset statement).
Proof.
  intros Hprepare Hbind Hyields Hnames Htexts Hfuel.
  assert (Hcache : cachedRecords_ d2 = cachedRecords_ d).
  { pose proof (same_cache_prepareQuery _ _ _ _ Hprepare) as H1.
    pose proof (same_cache_bindArgs _ _ _ _ _ Hbind) as H2.
    unfold same_cache in *. congruence. }
  apply yields_stepped in Hyields as (e1 & Hstepped & Hdone).
  destruct (queryIds_loop _ _ _ _ Hstepped (fuel - length rows)%nat [] texts d2
              eq_refl Hnames Htexts) as (d3 & Hdb3 & Hcache3 & _ & Hloop).
  replace (length rows + (fuel - length rows))%nat with fuel in Hloop by lia.
  destruct (fuel - length rows)%nat as [| fuel'] eqn:Hrest; [lia |].
  rewrite while_true_S in Hloop. subst e1.
  erewrite bind_Ret in Hloop by (apply queryIds_row_done; exact Hdone).
  eexists. split; [| split; [| split]].
  - unfold queryIds, executeQuery.
    erewrite bind_Ret by exact Hprepare. erewrite bind_Ret by exact Hbind.
    unfold SqliteStatement. erewrite bind_Ret by exact Hloop.
    rewrite arrayFromStd_spec. reflexivity.
  - simpl. congruence.
  - reflexivity.
  - reflexivity.
Qed.

(** X11.  A row whose column 0 is null makes [queryIds] throw "Failed to
    get ID of a record": the ids of the rows before it are dropped with
    the call, whatever comes after that row is not stepped to, and the
    statement is reset on the way out.  This error is not an engine
    error: nothing is printed on the console. *)
Theorem queryIds_null_id_fails fuel sql arguments statement rows e1 e2 texts
    (d d1 d2 : Database) :
  prepareQuery sql d = (Ret statement, d1) →
  bindArgs statement arguments d1 = (Ret tt, d2) →
  stepped statement (db_ d2) rows e1 →
  sqlite3_step statement e1 = (SQLITE_ROW, e2) →
  (NDEBUG = false →
   Forall (λ e, sqlite3_column_name statement 0 e = Some "id") (rows ++ [e2])) →
  mapM (sqlite3_column_text statement 0) rows = Some texts →
  sqlite3_column_text statement 0 e2 = None →
  (length rows < fuel)%nat →
  ∃ d', queryIds fuel sql arguments d = (Throw MissingId, d') ∧
        db_ d' = sqlite3_reset statement e2 ∧
        console d' = console d2.
Proof.
  intros Hprepare Hbind Hstepped Hstep Hnames Htexts Hnull Hfuel.
  assert (Hnames' : NDEBUG = false →
                    Forall (λ e, sqlite3_column_name statement 0 e = Some "id") rows).
  { intros Hdebug. specialize (Hnames Hdebug). apply Forall_app in Hnames as [H _].
    exact H. }
  assert (Hname2 : NDEBUG = false → sqlite3_column_name statement 0 e2 = Some "id").
  { intros Hdebug. specialize (Hnames Hdebug). apply Forall_app in Hnames as [_ H].
    inversion H; assumption. }
  destruct (queryIds_loop _ _ _ _ Hstepped (fuel - length rows)%nat [] texts d2
              eq_refl Hnames' Htexts) as (d3 & Hdb3 & _ & Hconsole & Hloop).
  replace (length rows + (fuel - length rows))%nat with fuel in Hloop by lia.
  destruct (fuel - length rows)%nat as [| fuel'] eqn:Hrest; [lia |].
  rewrite while_true_S in Hloop. subst e1.
  erewrite bind_Throw in Hloop
    by (rewrite (queryIds_row_on_row _ _ _ _ Hstep Hname2), Hnull; reflexivity).
  eexists. split; [| split].
  - unfold queryIds, executeQuery.
    erewrite bind_Ret by exact Hprepare. erewrite bind_Ret by exact Hbind.
    unfold SqliteStatement. erewrite bind_Throw by exact Hloop. reflexivity.
  - reflexivity.
  - simpl. exact Hconsole.
Qed.

Lemma unsafeQueryRaw_row_done statement raws e' (d : Database) :
  sqlite3_step statement (db_ d) = (SQLITE_DONE, e') →
  unsafeQueryRaw_row statement raws d = (Ret None, after_call (call_step statement) e' d).
Proof.
  intros Hstep. unfold unsafeQueryRaw_row.
  erewrite bind_Ret by (rewrite (getNextRowOrTrue_run _ _ _ _ Hstep); reflexivity).
  reflexivity.
Qed.

Lemma unsafeQueryRaw_row_on_row statement raws e1 raw (d : Database) :
  sqlite3_step statement (db_ d) = (SQLITE_ROW, e1) →
  dictionary_of statement e1 = Some raw →
  unsafeQueryRaw_row statement raws d
  = (Ret (Some (raws ++ [raw])%list), after_call (call_step statement) e1 d).
Proof.
  intros Hstep Hraw. unfold unsafeQueryRaw_row.
  erewrite bind_Ret by (rewrite (getNextRowOrTrue_run _ _ _ _ Hstep); reflexivity).
  cbv iota.
  erewrite bind_Ret by (apply resultDictionary_of; exact Hraw).
  reflexivity.
Qed.

Lemma unsafeQueryRaw_loop statement e rows e1 :
  stepped statement e rows e1 →
  ∀ fuel raws items (d : Database),
    db_ d = e →
    mapM (dictionary_of statement) rows = Some items →
    ∃ d1, db_ d1 = e1 ∧
          while_true (length rows + fuel) (unsafeQueryRaw_row statement) raws d
          = while_true fuel (unsafeQueryRaw_row statement) (raws ++ items)%list d1.
Proof.
  induction 1 as [e | e e1 rows e' Hstep Hrest IH];
    intros fuel raws items d Hdb Hitems; subst e.
  - inversion Hitems; subst items. exists d. rewrite app_nil_r. split; reflexivity.
  - apply mapM_cons_Some in Hitems as (raw & items' & Hraw & Hitems & ->).
    destruct (IH fuel (raws ++ [raw])%list items'
                (after_call (call_step statement) e1 d) eq_refl Hitems)
      as (d1 & Hdb1 & Hloop).
    exists d1. split; [exact Hdb1 |].
    change (length (e1 :: rows) + fuel)%nat with (S (length rows + fuel)).
    rewrite while_true_S.
    erewrite bind_Ret by (apply unsafeQueryRaw_row_on_row; eassumption).
    cbv beta iota. rewrite Hloop, <- app_assoc. reflexivity.
Qed.

(** X12.  When the statement yields the rows [rows] and then is done,
    [unsafeQueryRaw] returns the array of their Dictionaries, one for
    each row, in order.  No column has to be named [id], the rows need no
    id, and whether a record is in the identity cache changes nothing:
    every row comes back in full, and the cache is as before. *)
Theorem unsafeQueryRaw_returns_dictionaries fuel sql arguments statement rows e' raws
    (d d1 d2 : Database) :
  prepareQuery sql d = (Ret statement, d1) →
  bindArgs statement arguments d1 = (Ret tt, d2) →
  yields statement (db_ d2) rows e' →
  mapM (dictionary_of statement) rows = Some raws →
  (length rows < fuel)%nat →
  ∃ d', unsafeQueryRaw fuel sql arguments d = (Ret (Array raws), d') ∧
        length raws = length rows ∧
        cachedRecords_ d' = cachedRecords_ d.
Proof.
  intros Hprepare Hbind Hyields Hraws Hfuel.
  assert (Hcache : cachedRecords_ d2 = cachedRecords_ d).
  { pose proof (same_cache_prepareQuery _ _ _ _ Hprepare) as H1.
    pose proof (same_cache_bindArgs _ _ _ _ _ Hbind) as H2.
    unfold same_cache in *. congruence. }
  apply yields_stepped in Hyields as (e1 & Hstepped & Hdone).
  destruct (unsafeQueryRaw_loop _ _ _ _ Hstepped (fuel - length rows)%nat [] raws d2
              eq_refl Hraws) as (d3 & Hdb3 & Hloop).
  replace (length rows + (fuel - length rows))%nat with fuel in Hloop by lia.
  destruct (fuel - length rows)%nat as [| fuel'] eqn:Hrest; [lia |].
  rewrite while_true_S in Hloop. subst e1.
  erewrite bind_Ret in Hloop by (apply unsafeQueryRaw_row_done; exact Hdone).
  assert (Hrun : unsafeQueryRaw fuel sql arguments d
                 = (Ret (Array raws),
                    after_call (call_reset statement)
                      (sqlite3_reset statement e')
                      (after_call (call_step statement) e' d3))).
  { unfold unsafeQueryRaw, executeQuery.
    erewrite bind_Ret by exact Hprepare. erewrite bind_Ret by exact Hbind.
    unfold SqliteStatement. erewrite bind_Ret by exact Hloop.
    rewrite arrayFromStd_spec. reflexivity. }
  eexists. split; [exact Hrun |]. split.
  - apply length_mapM in Hraws. symmetry. exact Hraws.
  - pose proof (frame_unsafeQueryRaw same_cache same_cache_call same_cache_console
                  same_cache_prepareQuery fuel sql arguments _ _ _ Hrun) as H.
    exact H.
Qed.

(** ** Queries that return records *)

Lemma query_row_done tableName statement records e' (d : Database) :
  sqlite3_step statement (db_ d) = (SQLITE_DONE, e') →
  query_row tableName statement records d
  = (Ret None, after_call (call_step statement) e' d).
Proof.
  intros Hstep. unfold query_row.
  erewrite bind_Ret by (rewrite (getNextRowOrTrue_run _ _ _ _ Hstep); reflexivity).
  reflexivity.
Qed.

(** One turn of the loop of [query] on a row. *)
Lemma query_row_on_row tableName statement records e1 id (d : Database) :
  sqlite3_step statement (db_ d) = (SQLITE_ROW, e1) →
  (NDEBUG = false → sqlite3_column_name statement 0 e1 = Some "id") →
  sqlite3_column_text statement 0 e1 = Some id →
  (cacheKey tableName id ∈ cachedRecords_ d →
   query_row tableName statement records d
   = (Ret (Some (records ++ [JsString id])%list), after_call (call_step statement) e1 d)) ∧
  (cacheKey tableName id ∉ cachedRecords_ d →
   ∀ record, dictionary_of statement e1 = Some record →
   query_row tableName statement records d
   = (Ret (Some (records ++ [record])%list),
      set_cachedRecords_ ({[cacheKey tableName id]} ∪ cachedRecords_ d)
        (after_call (call_step statement) e1 d))).
Proof.
  intros Hstep Hname Hid.
  assert (Hrun : query_row tableName statement records d
                 = (cached ← isCached (cacheKey tableName id);
                    if cached : bool then mret (Some (records ++ [JsString id])%list)
                    else
                      markAsCached (cacheKey tableName id);;
                      record ← resultDictionary statement;
                      mret (Some (records ++ [record])%list))
                     (after_call (call_step statement) e1 d)).
  { unfold query_row.
    erewrite bind_Ret by (rewrite (getNextRowOrTrue_run _ _ _ _ Hstep); reflexivity).
    cbv iota.
    erewrite bind_Ret by (apply assert_first_column_run; exact Hname).
    erewrite bind_Ret by reflexivity.
    change (db_ (after_call (call_step statement) e1 d)) with e1. rewrite Hid.
    reflexivity. }
  rewrite Hrun. clear Hrun.
  erewrite bind_Ret by apply isCached_run.
  change (cachedRecords_ (after_call (call_step statement) e1 d)) with (cachedRecords_ d).
  split.
  - intros Hin. rewrite bool_decide_eq_true_2 by exact Hin. reflexivity.
  - intros Hnotin record Hrecord. rewrite bool_decide_eq_false_2 by exact Hnotin.
    erewrite bind_Ret by reflexivity.
    erewrite bind_Ret by (apply resultDictionary_of; exact Hrecord).
    reflexivity.
Qed.

(** The turns of the loop of [query] over rows. *)
Lemma query_loop tableName statement e rows e1 :
  stepped statement e rows e1 →
  ∀ fuel records items cached' (d : Database),
    db_ d = e →
    (NDEBUG = false →
     Forall (λ e, sqlite3_column_name statement 0 e = Some "id") rows) →
    record_rows tableName statement (cachedRecords_ d) rows = Some (items, cached') →
    ∃ d1, db_ d1 = e1 ∧ cachedRecords_ d1 = cached' ∧
          while_true (length rows + fuel) (query_row tableName statement) records d
          = while_true fuel (query_row tableName statement) (records ++ items)%list d1.
Proof.
  induction 1 as [e | e e1 rows e' Hstep Hrest IH];
    intros fuel records items cached' d Hdb Hnames Hrows; subst e.
  - inversion Hrows; subst items cached'. exists d. rewrite app_nil_r.
    repeat split; reflexivity.
  - simpl in Hrows.
    destruct (sqlite3_column_text statement 0 e1) as [id |] eqn:Hid; [| discriminate].
    simpl in Hrows.
    assert (Hname1 : NDEBUG = false → sqlite3_column_name statement 0 e1 = Some "id").
    { intros Hdebug. specialize (Hnames Hdebug). inversion Hnames; assumption. }
    assert (Hnames' : NDEBUG = false →
                      Forall (λ e, sqlite3_column_name statement 0 e = Some "id") rows).
    { intros Hdebug. specialize (Hnames Hdebug). inversion Hnames; assumption. }
    destruct (query_row_on_row tableName statement records e1 id d Hstep Hname1 Hid)
      as [Hcached Hfresh].
    change (length (e1 :: rows) + fuel)%nat with (S (length rows + fuel)).
    rewrite while_true_S.
    destruct (bool_decide (cacheKey tableName id ∈ cachedRecords_ d)) eqn:Hin.
    + apply bool_decide_eq_true in Hin.
      destruct (record_rows tableName statement (cachedRecords_ d) rows)
        as [[items' cached''] |] eqn:Hrest'; [| discriminate].
      simpl in Hrows. inversion Hrows; subst items cached'.
      destruct (IH fuel (records ++ [JsString id])%list items' cached''
                  (after_call (call_step statement) e1 d) eq_refl Hnames' Hrest')
        as (d1 & Hdb1 & Hcache & Hloop).
      exists d1. split; [exact Hdb1 |]. split; [exact Hcache |].
      erewrite bind_Ret by (apply Hcached; exact Hin).
      cbv beta iota. rewrite Hloop, <- app_assoc. reflexivity.
    + apply bool_decide_eq_false in Hin.
      destruct (dictionary_of statement e1) as [record |] eqn:Hrecord; [| discriminate].
      simpl in Hrows.
      destruct (record_rows tableName statement
                  ({[cacheKey tableName id]} ∪ cachedRecords_ d) rows)
        as [[items' cached''] |] eqn:Hrest'; [| discriminate].
      simpl in Hrows. inversion Hrows; subst items cached'.
      destruct (IH fuel (records ++ [record])%list items' cached''
                  (set_cachedRecords_ ({[cacheKey tableName id]} ∪ cachedRecords_ d)
                     (after_call (call_step statement) e1 d)) eq_refl Hnames' Hrest')
        as (d1 & Hdb1 & Hcache & Hloop).
      exists d1. split; [exact Hdb1 |]. split; [exact Hcache |].
      erewrite bind_Ret by (apply Hfresh; [exact Hin | reflexivity]).
      cbv beta iota. rewrite Hloop, <- app_assoc. reflexivity.
Qed.

Lemma record_rows_spec tableName statement rows : ∀ cached items cached',
  record_rows tableName statement cached rows = Some (items, cached') →
  length items = length rows ∧
  cached' = list_to_set (row_keys tableName statement rows) ∪ cached.
Proof.
  induction rows as [| e rows IH]; intros cached items cached' H; simpl in H.
  - inversion H. split; [reflexivity |]. unfold row_keys. simpl. set_solver.
  - destruct (sqlite3_column_text statement 0 e) as [id |] eqn:Hid; [| discriminate].
    simpl in H.
    assert (Hkeys : row_keys tableName statement (e :: rows)
                    = cacheKey tableName id :: row_keys tableName statement rows).
    { unfold row_keys. simpl. rewrite Hid. reflexivity. }
    rewrite Hkeys. clear Hkeys.
    destruct (bool_decide (cacheKey tableName id ∈ cached)) eqn:Hin.
    + apply bool_decide_eq_true in Hin.
      destruct (record_rows tableName statement cached rows) as [[items' c] |] eqn:Hrest;
        [| discriminate].
      inversion H; subst. destruct (IH _ _ _ Hrest) as [Hlen ->].
      split; [simpl; f_equal; exact Hlen |]. set_solver.
    + destruct (dictionary_of statement e); [| discriminate]. simpl in H.
      destruct (record_rows tableName statement _ rows) as [[items' c] |] eqn:Hrest;
        [| discriminate].
      inversion H; subst. destruct (IH _ _ _ Hrest) as [Hlen ->].
      split; [simpl; f_equal; exact Hlen |]. set_solver.
Qed.

(** On rows whose keys are all cached, [record_rows] is the list of the
    ids. *)
Lemma record_rows_cached tableName statement rows : ∀ cached texts,
  mapM (sqlite3_column_text statement 0) rows = Some texts →
  (∀ id, id ∈ texts → cacheKey tableName id ∈ cached) →
  record_rows tableName statement cached rows = Some (JsString <$> texts, cached).
Proof.
  induction rows as [| e rows IH]; intros cached texts Htexts Hall.
  - inversion Htexts. reflexivity.
  - apply mapM_cons_Some in Htexts as (id & texts' & Hid & Htexts & ->).
    simpl. rewrite Hid. simpl.
    rewrite bool_decide_eq_true_2 by (apply Hall; left).
    rewrite (IH cached texts' Htexts) by (intros id' Hin; apply Hall; right; exact Hin).
    reflexivity.
Qed.

(** The run of [query] over the rows a statement yields. *)
Lemma query_run fuel tableName sql arguments statement rows e' items cached'
    (d d1 d2 : Database) :
  prepareQuery sql d = (Ret statement, d1) →
  bindArgs statement arguments d1 = (Ret tt, d2) →
  yields statement (db_ d2) rows e' →
  (NDEBUG = false → Forall (λ e1, sqlite3_column_name statement 0 e1 = Some "id") rows) →
  record_rows tableName statement (cachedRecords_ d) rows = Some (items, cached') →
  (length rows < fuel)%nat →
  ∃ d', query fuel tableName sql arguments d = (Ret (Array items), d') ∧
        cachedRecords_ d' = cached'.
Proof.
  intros Hprepare Hbind Hyields Hnames Hrows Hfuel.
  assert (Hcache : cachedRecords_ d2 = cachedRecords_ d).
  { pose proof (same_cache_prepareQuery _ _ _ _ Hprepare) as H1.
    pose proof (same_cache_bindArgs _ _ _ _ _ Hbind) as H2.
    unfold same_cache in *. congruence. }
  apply yields_stepped in Hyields as (e1 & Hstepped & Hdone).
  rewrite <- Hcache in Hrows.
  destruct (query_loop tableName _ _ _ _ Hstepped (fuel - length rows)%nat [] items cached'
              d2 eq_refl Hnames Hrows) as (d3 & Hdb3 & Hcache3 & Hloop).
  replace (length rows + (fuel - length rows))%nat with fuel in Hloop by lia.
  destruct (fuel - length rows)%nat as [| fuel'] eqn:Hrest; [lia |].
  rewrite while_true_S in Hloop. subst e1.
  erewrite bind_Ret in Hloop by (apply query_row_done; exact Hdone).
  eexists. split.
  - unfold query, executeQuery.
    erewrite bind_Ret by exact Hprepare. erewrite bind_Ret by exact Hbind.
    unfold SqliteStatement. erewrite bind_Ret by exact Hloop.
    rewrite arrayFromStd_spec. reflexivity.
  - simpl. exact Hcache3.
Qed.

(** The run of [queryIds] over the rows a statement yields. *)
Lemma queryIds_run fuel sql arguments statement rows e' texts (d d1 d2 : Database) :
  prepareQuery sql d = (Ret statement, d1) →
  bindArgs statement arguments d1 = (Ret tt, d2) →
  yields statement (db_ d2) rows e' →
  (NDEBUG = false → Forall (λ e1, sqlite3_column_name statement 0 e1 = Some "id") rows) →
  mapM (sqlite3_column_text statement 0) rows = Some texts →
  (length rows < fuel)%nat →
  ∃ d3, queryIds fuel sql arguments d
        = (Ret (Array (JsString <$> texts)),
           after_call (call_reset statement) (sqlite3_reset statement e')
             (after_call (call_step statement) e' d3)) ∧
        cachedRecords_ d3 = cachedRecords_ d.
Proof.
  intros Hprepare Hbind Hyields Hnames Htexts Hfuel.
  assert (Hcache : cachedRecords_ d2 = cachedRecords_ d).
  { pose proof (same_cache_prepareQuery _ _ _ _ Hprepare) as H1.
    pose proof (same_cache_bindArgs _ _ _ _ _ Hbind) as H2.
    unfold same_cache in *. congruence. }
  apply yields_stepped in Hyields as (e1 & Hstepped & Hdone).
  destruct (queryIds_loop _ _ _ _ Hstepped (fuel - length rows)%nat [] texts d2
              eq_refl Hnames Htexts) as (d3 & Hdb3 & Hcache3 & _ & Hloop).
  replace (length rows + (fuel - length rows))%nat with fuel in Hloop by lia.
  destruct (fuel - length rows)%nat as [| fuel'] eqn:Hrest; [lia |].
  rewrite while_true_S in Hloop. subst e1.
  erewrite bind_Ret in Hloop by (apply queryIds_row_done; exact Hdone).
  exists d3. split; [| congruence].
  unfold queryIds, executeQuery.
  erewrite bind_Ret by exact Hprepare. erewrite bind_Ret by exact Hbind.
  unfold SqliteStatement. erewrite bind_Ret by exact Hloop.
  rewrite arrayFromStd_spec. reflexivity.
Qed.

(** X13.  When the statement yields the rows [rows] and then is done,
    [query] returns one element for each row, in order: the id string for
    a row whose key is in the identity cache when the row is reached, and
    else the Dictionary of the row, whose key is cached from then on
    ([record_rows]).  Afterwards the identity cache is the one before the
    call with the key of every row added. *)
Theorem query_returns_records fuel tableName sql arguments statement rows e'
    items cached' (d d1 d2 : Database) :
  prepareQuery sql d = (Ret statement, d1) →
  bindArgs statement arguments d1 = (Ret tt, d2) →
  yields statement (db_ d2) rows e' →
  (NDEBUG = false → Forall (λ e1, sqlite3_column_name statement 0 e1 = Some "id") rows) →
  record_rows tableName statement (cachedRecords_ d) rows = Some (items, cached') →
  (length rows < fuel)%nat →
  ∃ d', query fuel tableName sql arguments d = (Ret (Array items), d') ∧
        length items = length rows ∧
        cachedRecords_ d'
        = list_to_set (row_keys tableName statement rows) ∪ cachedRecords_ d.
Proof.
  intros Hprepare Hbind Hyields Hnames Hrows Hfuel.
  destruct (record_rows_spec _ _ _ _ _ _ Hrows) as [Hlen Hcached'].
  destruct (query_run fuel tableName sql arguments statement rows e' items cached' d d1 d2
              Hprepare Hbind Hyields Hnames Hrows Hfuel) as (d' & Hrun & Hcache).
  exists d'. split; [exact Hrun |]. split; [exact Hlen |]. congruence.
Qed.

(** X14.  On rows that are all in the identity cache [query] returns what
    [queryIds] returns, the array of the ids, and leaves the cache as it
    is: no row is read beyond its id. *)
Theorem query_on_cached_rows_returns_ids fuel tableName sql arguments statement rows e'
    texts (d d1 d2 : Database) :
  prepareQuery sql d = (Ret statement, d1) →
  bindArgs statement arguments d1 = (Ret tt, d2) →
  yields statement (db_ d2) rows e' →
  (NDEBUG = false → Forall (λ e1, sqlite3_column_name statement 0 e1 = Some "id") rows) →
  mapM (sqlite3_column_text statement 0) rows = Some texts →
  (∀ id, id ∈ texts → cacheKey tableName id ∈ cachedRecords_ d) →
  (length rows < fuel)%nat →
  fst (query fuel tableName sql arguments d) = Ret (Array (JsString <$> texts)) ∧
  fst (query fuel tableName sql arguments d) = fst (queryIds fuel sql arguments d) ∧
  cachedRecords_ (snd (query fuel tableName sql arguments d)) = cachedRecords_ d.
Proof.
  intros Hprepare Hbind Hyields Hnames Htexts Hall Hfuel.
  pose proof (record_rows_cached tableName statement rows (cachedRecords_ d) texts Htexts
                Hall) as Hrows.
  destruct (query_run fuel tableName sql arguments statement rows e' _ _ d d1 d2
              Hprepare Hbind Hyields Hnames Hrows Hfuel) as (d' & Hquery & Hcache).
  destruct (queryIds_run fuel sql arguments statement rows e' texts d d1 d2
              Hprepare Hbind Hyields Hnames Htexts Hfuel) as (d3 & Hids & _).
  rewrite Hquery, Hids. simpl. split; [reflexivity |]. split; [reflexivity |]. exact Hcache.
Qed.

(** ** Finding a record twice *)

Lemma same_cache_getNextRowOrTrue stmt : respects same_cache (getNextRowOrTrue stmt).
Proof. apply respects_getNextRowOrTrue; same_cache_prims. Qed.

(** X15.  What [find] returns tells what it did.  An id string: the key
    was cached and nothing was touched.  Null: the key was not cached,
    the select was prepared and bound and its first step said
    [SQLITE_DONE], no row was found; the identity cache is as before.  A
    Dictionary: the key was not cached, the first step of the select gave
    a row, the Dictionary is what [resultDictionary] made of that row,
    and the key is cached now, so the next [find] of the same record
    returns the id string without a call on the connection.  It returns
    nothing else. *)
Theorem find_materialises_once tableName id v (d d' : Database) :
  find tableName id d = (Ret v, d') →
  match v with
  | JsString s => s = id ∧ d' = d ∧ cacheKey tableName id ∈ cachedRecords_ d
  | Null =>
      (cacheKey tableName id ∉ cachedRecords_ d) ∧ cachedRecords_ d' = cachedRecords_ d ∧
      ∃ statement d1 d2 e3,
        prepareQuery ("select * from `" ++ tableName ++ "` where id == ? limit 1") d
        = (Ret statement, d1) ∧
        bindArgs statement [JsString id] d1 = (Ret tt, d2) ∧
        sqlite3_step statement (db_ d2) = (SQLITE_DONE, e3) ∧
        d' = after_call (call_reset statement) (sqlite3_reset statement e3)
               (after_call (call_step statement) e3 d2)
  | Object _ =>
      (cacheKey tableName id ∉ cachedRecords_ d) ∧
      cachedRecords_ d' = {[cacheKey tableName id]} ∪ cachedRecords_ d ∧
      find tableName id d' = (Ret (JsString id), d') ∧
      ∃ statement d1 d2 e3,
        prepareQuery ("select * from `" ++ tableName ++ "` where id == ? limit 1") d
        = (Ret statement, d1) ∧
        bindArgs statement [JsString id] d1 = (Ret tt, d2) ∧
        sqlite3_step statement (db_ d2) = (SQLITE_ROW, e3) ∧
        resultDictionary statement (after_call (call_step statement) e3 d2)
        = (Ret v, after_call (call_step statement) e3 d2)
  | _ => False
  end.
Proof.
  intros H. unfold find in H.
  erewrite bind_Ret in H by apply isCached_run.
  destruct (bool_decide (cacheKey tableName id ∈ cachedRecords_ d)) eqn:Hin.
  - apply bool_decide_eq_true in Hin. inversion H; subst. auto.
  - apply bool_decide_eq_false in Hin.
    unfold executeQuery in H.
    apply bind_Ret_inv in H as (statement & d1 & Hprepare & H).
    apply bind_Ret_inv in H as ([] & d2 & Hbind & H).
    apply SqliteStatement_Ret_inv in H as (d3 & H & ->).
    apply bind_Ret_inv in H as (done & d4 & Hnext & H).
    assert (Hcache : cachedRecords_ d4 = cachedRecords_ d).
    { pose proof (same_cache_prepareQuery _ _ _ _ Hprepare) as H1.
      pose proof (same_cache_bindArgs _ _ _ _ _ Hbind) as H2.
      pose proof (same_cache_getNextRowOrTrue _ _ _ _ Hnext) as H3.
      unfold same_cache in *. congruence. }
    destruct (sqlite3_step statement (db_ d2)) as [rc e3] eqn:Hstep.
    rewrite (getNextRowOrTrue_run _ _ _ _ Hstep) in Hnext. cbv zeta in Hnext.
    destruct (bool_decide (rc = SQLITE_DONE)) eqn:Hdone.
    + apply bool_decide_eq_true in Hdone. subst rc.
      inversion Hnext; subst done d4. clear Hnext.
      inversion H; subst v d3. clear H.
      split; [exact Hin |]. split; [exact Hcache |].
      exists statement, d1, d2, e3. repeat split; assumption.
    + destruct (bool_decide (rc ≠ SQLITE_ROW)) eqn:Hrow; [discriminate |].
      apply bool_decide_eq_false in Hrow.
      assert (rc = SQLITE_ROW) by (destruct (decide (rc = SQLITE_ROW)); tauto). subst rc.
      inversion Hnext; subst done d4. clear Hnext.
      apply bind_Ret_inv in H as (record & d5 & Hshape & H).
      pose proof (respects_resultDictionary eq _ _ _ _ Hshape) as <-.
      pose proof Hshape as Hobject.
      unfold resultDictionary in Hobject.
      apply bind_Ret_inv in Hobject as (len & d6 & _ & Hobject).
      apply bind_Ret_inv in Hobject as (dictionary & d7 & _ & Hobject).
      inversion Hobject; subst record. clear Hobject.
      apply bind_Ret_inv in H as ([] & d8 & Hmark & H).
      inversion Hmark; subst d8. inversion H; subst v d3. clear H Hmark.
      assert (Hcache2 : cachedRecords_ d2 = cachedRecords_ d) by exact Hcache.
      match goal with
      | |- _ ∧ cachedRecords_ ?final = _ ∧ _ =>
          assert (Hafter : cachedRecords_ final
                           = {[cacheKey tableName id]} ∪ cachedRecords_ d)
            by (simpl; rewrite Hcache2; reflexivity)
      end.
      split; [exact Hin |]. split; [exact Hafter |]. split.
      * apply find_cached. rewrite Hafter. set_solver.
      * exists statement, d1, d2, e3. repeat split; assumption.
Qed.

(** ** Transactions and the caches *)

Lemma same_cache_try_rollback {A} (body : M A) :
  respects same_cache body →
  respects same_cache (try_catch body (λ ex, rollback;; throw ex)).
Proof.
  intros Hbody. apply (respects_try_catch same_cache); [exact Hbody |].
  intros ex. apply (respects_bind same_cache); [apply same_cache_rollback |].
  intros _. apply (respects_throw same_cache).
Qed.

Lemma batch_not_committed operations o (d d' : Database) :
  batch operations d = (o, d') → o ≠ Ret tt → cachedRecords_ d' = cachedRecords_ d.
Proof.
  intros H Hne. unfold batch in H.
  unfold mbind at 1 in H. unfold M_bind at 1 in H. unfold bind at 1 in H.
  run_cases beginTransaction d;
    try (inversion H; subst; apply (same_cache_executeUpdate _ _ _ _ Hrun)).
  pose proof (same_cache_executeUpdate _ _ _ _ Hrun) as Hbegin.
  unfold mbind at 1 in H. unfold M_bind at 1 in H. unfold bind at 1 in H.
  run_cases (try_catch (batch_try operations) (λ ex, rollback;; throw ex)) d0;
    pose proof (same_cache_try_rollback _ (same_cache_batch_try operations) _ _ _ Hrun0)
      as Htry;
    try (inversion H; subst; unfold same_cache in *; congruence).
  exfalso. destruct a0 as [addedIds removedIds].
  erewrite bind_Ret in H by apply markAsCached_all.
  rewrite removeFromCache_all in H. inversion H; subst. apply Hne. reflexivity.
Qed.

Lemma keys_of_operations_nil c (operations : list operation) :
  Forall (λ op, op_cacheBehavior op ≠ c) operations →
  concat (map (keys_of_operation c) operations) = [].
Proof.
  induction 1 as [| op operations Hop _ IH]; [reflexivity |].
  simpl. unfold keys_of_operation at 1.
  rewrite bool_decide_eq_false_2 by exact Hop. exact IH.
Qed.

(** X16.  [batch] writes the identity cache only when it has committed:
    a call that ends in any other way than a return (an error, or the
    process stopped) leaves the cache as it was.  And a batch none of
    whose operations has cacheBehavior 1 or -1 leaves the cache as it
    was even when it commits. *)
Theorem batch_writes_cache_only_on_commit operations (d : Database) :
  (fst (batch operations d) ≠ Ret tt →
   cachedRecords_ (snd (batch operations d)) = cachedRecords_ d) ∧
  (Forall (λ op, op_cacheBehavior op ≠ 1%Z ∧ op_cacheBehavior op ≠ (-1)%Z) operations →
   cachedRecords_ (snd (batch operations d)) = cachedRecords_ d).
Proof.
  destruct (batch operations d) as [o d'] eqn:H. simpl. split.
  - intros Hne. eapply batch_not_committed; eassumption.
  - intros Hnone.
    destruct o as [[] | ex | w |];
      [| eapply batch_not_committed; [eassumption | discriminate] ..].
    rewrite (batch_commit_cachedRecords _ _ _ H).
    unfold addedIds_of, removedIds_of.
    rewrite !keys_of_operations_nil.
    + set_solver.
    + eapply Forall_impl; [exact Hnone |]. intros op [_ Hop]. exact Hop.
    + eapply Forall_impl; [exact Hnone |]. intros op [Hop _]. exact Hop.
Qed.

(** X17.  A call of [migrate] that throws either could not open the
    transaction, and then nothing else was done, or failed inside it
    (running the migration script, setting the version or committing):
    then [rollback] was run, which printed its notice, and the error
    thrown is the one that was raised, not one of the rollback. *)
Theorem migrate_failure_rolls_back migrationSql fromVersion toVersion ex
    (d d' : Database) :
  migrate migrationSql fromVersion toVersion d = (Throw ex, d') →
  beginTransaction d = (Throw ex, d') ∨
  ∃ d1 d2, beginTransaction d = (Ret tt, d1) ∧
           migrate_try migrationSql fromVersion toVersion d1 = (Throw ex, d2) ∧
           rollback d2 = (Ret tt, d') ∧
           ∃ l, console d' = (l ++ rollback_notice :: console d2)%list.
Proof.
  intros H.
  change (migrate migrationSql fromVersion toVersion)
    with (beginTransaction;;
          try_catch (migrate_try migrationSql fromVersion toVersion)
                    (λ ex, rollback;; throw ex)) in H.
  apply bind_Throw_inv in H as [H | ([] & d1 & Hbegin & H)]; [left; exact H |].
  right. apply try_rollback_Throw in H as (d2 & Htry & Hroll).
  exists d1, d2. split; [exact Hbegin |]. split; [exact Htry |]. split; [exact Hroll |].
  unfold rollback in Hroll.
  apply bind_Ret_inv in Hroll as ([] & d3 & Hnotice & Hroll).
  inversion Hnotice; subst d3. clear Hnotice.
  unfold try_catch in Hroll.
  run_cases (executeUpdate "rollback transaction")
            (set_console (rollback_notice :: console d2) d2); try discriminate;
    pose proof (console_grows_executeUpdate _ _ _ _ Hrun) as [l Hl]; simpl in Hl.
  - inversion Hroll; subst. exists l. exact Hl.
  - inversion Hroll; subst. simpl. rewrite Hl.
    exists (("Error while attempting to roll back transaction, probably harmless: "
             ++ what ex0) :: l). reflexivity.
Qed.

(** X18.  [unsafeResetDatabase] empties the identity cache as soon as it
    has opened its transaction: once the reset (the [vacuum] in reset
    mode) and [begin] have gone through, the cache is empty after the
    call however the rest goes, whether the schema is installed and
    committed or the call fails and rolls back.  When the reset or the
    [begin] fails, the call ends there with that outcome and the cache
    is as it was. *)
Theorem unsafeResetDatabase_empties_cache_once_open schema schemaVersion (d : Database) :
  (fst (unsafeResetDatabase_open d) = Ret tt →
   cachedRecords_ (snd (unsafeResetDatabase schema schemaVersion d)) = ∅) ∧
  (fst (unsafeResetDatabase_open d) ≠ Ret tt →
   unsafeResetDatabase schema schemaVersion d = unsafeResetDatabase_open d ∧
   cachedRecords_ (snd (unsafeResetDatabase schema schemaVersion d)) = cachedRecords_ d).
Proof.
  assert (Hopen_cache : respects same_cache unsafeResetDatabase_open).
  { unfold unsafeResetDatabase_open, beginTransaction.
    repeat lazymatch goal with
           | |- respects _ (executeMultiple _) => apply same_cache_executeMultiple
           | |- respects _ (executeUpdate _) => apply same_cache_executeUpdate
           | |- respects _ (call _ _) => apply same_cache_call
           | |- respects _ (throw _) => apply (respects_throw same_cache)
           | |- respects _ (mret _) => apply (respects_ret same_cache)
           | |- respects _ (if ?b then _ else _) => destruct b
           | |- respects _ (mbind _ _) => apply (respects_bind same_cache); [| intros ?]
           end. }
  assert (Hrest : respects same_cache
                    (executeMultiple schema;; setUserVersion schemaVersion;; commit)).
  { unfold setUserVersion, commit.
    repeat lazymatch goal with
           | |- respects _ (executeMultiple _) => apply same_cache_executeMultiple
           | |- respects _ (executeUpdate _) => apply same_cache_executeUpdate
           | |- respects _ (mbind _ _) => apply (respects_bind same_cache); [| intros ?]
           end. }
  destruct (unsafeResetDatabase_open d) as [o d1] eqn:Hopen. simpl fst.
  assert (Hrun : unsafeResetDatabase schema schemaVersion d
                 = match o with
                   | Ret _ =>
                       try_catch (unsafeResetDatabase_try schema schemaVersion)
                                 (λ ex, rollback;; throw ex) d1
                   | _ => (o, d1)
                   end).
  { unfold unsafeResetDatabase. unfold mbind at 1. unfold M_bind at 1. unfold bind at 1.
    rewrite Hopen. destruct o as [[] | ex | w |]; reflexivity. }
  rewrite Hrun. clear Hrun.
  split.
  - intros ->. unfold try_catch, unsafeResetDatabase_try.
    erewrite bind_Ret by reflexivity.
    set (d2 := set_cachedRecords_ ∅ d1).
    run_cases (executeMultiple schema;; setUserVersion schemaVersion;; commit) d2;
      pose proof (Hrest _ _ _ Hrun) as Hsame; unfold same_cache in Hsame;
      [exact Hsame | | exact Hsame | exact Hsame].
    destruct ((rollback;; throw ex) d0) as [o' d'] eqn:Hhandler.
    assert (Hh : respects same_cache (rollback;; throw ex : M unit)).
    { apply (respects_bind same_cache); [apply same_cache_rollback |].
      intros _. apply (respects_throw same_cache). }
    pose proof (Hh _ _ _ Hhandler) as Hsame'. unfold same_cache in Hsame'.
    simpl. rewrite Hsame', Hsame. reflexivity.
  - intros Hne. pose proof (Hopen_cache _ _ _ Hopen) as Hsame. unfold same_cache in Hsame.
    destruct o as [[] | ex | w |]; [contradiction | | |];
      (split; [reflexivity | exact Hsame]).
Qed.

(** ** Destroying the object *)

Lemma finalize_all (entries : list (string * sqlite3_stmt)) : ∀ d : Database,
  for_each entries
    (λ cachedStatement _,
       let statement := snd cachedStatement in
       call_ (call_finalize statement) (sqlite3_finalize statement)) tt d
  = (Ret tt,
     set_calls (rev (call_finalize <$> (snd <$> entries)) ++ calls d)
       (set_db_ (foldl (λ e cachedStatement, sqlite3_finalize (snd cachedStatement) e)
                       (db_ d) entries) d)).
Proof.
  induction entries as [| [sql statement] entries IH]; intros d.
  - destruct d. reflexivity.
  - simpl for_each. erewrite bind_Ret by reflexivity. rewrite IH.
    simpl. rewrite <- app_assoc. reflexivity.
Qed.

(** X19.  Destroying the object finalizes the statement of every entry
    of the statement cache, each once, and makes no other call on the
    connection; the statement cache is empty afterwards.  Nothing is
    thrown. *)
Theorem destructor_finalizes_every_statement (d : Database) :
  ∃ d', Database_destructor d = (Ret tt, d') ∧
        cachedStatements_ d' = ∅ ∧
        cachedRecords_ d' = cachedRecords_ d ∧
        ∃ l, calls d' = (l ++ calls d)%list ∧
             l ≡ₚ call_finalize <$> (snd <$> map_to_list (cachedStatements_ d)).
Proof.
  eexists. split.
  - unfold Database_destructor. erewrite bind_Ret by reflexivity.
    erewrite bind_Ret by apply finalize_all. reflexivity.
  - simpl. split; [reflexivity |]. split; [reflexivity |].
    eexists. split; [reflexivity |]. symmetry. apply Permutation_rev.
Qed.

(** ** The Positional Array of a row *)

(** X20.  An array that [resultArray] returns has one element for each
    column of the row, element [i] being the value of column [i] by the
    column-type mapping: a number, a string or null.  No slot is left
    undefined, and the object state is not changed. *)
Theorem resultArray_fills_every_slot statement a (d d' : Database) :
  resultArray statement d = (Ret (Array a), d') →
  d' = d ∧
  length a = Z.to_nat (sqlite3_column_count statement (db_ d)) ∧
  ∀ i v, a !! i = Some v →
         column_value statement (db_ d) (Z.of_nat i) = Some v ∧ v ≠ Undefined.
Proof.
  intros H. rewrite resultArray_run in H. unfold positional_array in H.
  destruct (mapM (column_value statement (db_ d)) (column_indices statement (db_ d)))
    as [values |] eqn:Hvalues; simpl in H; [| discriminate].
  inversion H; subst a d'. clear H. split; [reflexivity |].
  pose proof (length_mapM _ _ _ Hvalues) as Hlen.
  unfold column_indices in Hlen, Hvalues. rewrite length_seqZ in Hlen.
  split; [symmetry; exact Hlen |].
  intros i v Hi. apply mapM_Some_1 in Hvalues.
  destruct (Forall2_lookup_r _ _ _ _ _ Hvalues Hi) as (j & Hj & Hv).
  apply lookup_seqZ in Hj as [-> _]. rewrite Z.add_0_l in Hv.
  split; [exact Hv |].
  unfold column_value in Hv.
  repeat match type of Hv with
         | (if ?b then _ else _) = _ => destruct b
         end; inversion Hv; try discriminate.
  destruct (sqlite3_column_text _ _ _); discriminate.
Qed.

(** ** Local storage *)

(** X21.  [getLocal] runs the select on [local_storage] with the key as
    its only argument and steps once.  When there is no row it returns
    null; when the step fails it throws the database error; when there is
    a row it returns column 0 as a host string, or null when the stored
    value is null.  So null is returned both for a key that is missing
    and for a key whose value is null.  That the row has one column is an
    [assert] only.  The statement is stepped once and no more: the calls
    made on the connection once the key is bound are that step and the
    reset of the statement on the way out. *)
Theorem getLocal_cases key statement rc e3 (d d1 d2 : Database) :
  prepareQuery "select value from local_storage where key = ?" d = (Ret statement, d1) →
  bindArgs statement [JsString key] d1 = (Ret tt, d2) →
  sqlite3_step statement (db_ d2) = (rc, e3) →
  fst (getLocal key d) =
    (if bool_decide (rc = SQLITE_DONE) then Ret Null
     else if bool_decide (rc ≠ SQLITE_ROW) then
       Throw (DbError "Failed to get a row for query" e3)
     else if negb NDEBUG && bool_decide (sqlite3_data_count statement e3 ≠ 1%Z) then
       Abort (assertion_failed "sqlite3_data_count(statement.stmt) == 1")
     else Ret (match sqlite3_column_text statement 0 e3 with
               | Some text => JsString text
               | None => Null
               end)) ∧
  snd (getLocal key d) =
    (if bool_decide (rc = SQLITE_DONE) then
       after_call (call_reset statement) (sqlite3_reset statement e3)
         (after_call (call_step statement) e3 d2)
     else if bool_decide (rc ≠ SQLITE_ROW) then
       after_call (call_reset statement) (sqlite3_reset statement e3)
         (set_console (what (DbError "Failed to get a row for query" e3)
                         :: console (after_call (call_step statement) e3 d2))
            (after_call (call_step statement) e3 d2))
     else if negb NDEBUG && bool_decide (sqlite3_data_count statement e3 ≠ 1%Z) then
       after_call (call_step statement) e3 d2
     else
       after_call (call_reset statement) (sqlite3_reset statement e3)
         (after_call (call_step statement) e3 d2)) ∧
  ∃ l, calls (snd (getLocal key d)) = (l ++ call_step statement :: calls d2)%list ∧
       (l = [] ∨ l = [call_reset statement]).
Proof.
  intros Hprepare Hbind Hstep.
  assert (Hrun : getLocal key d
    = (if bool_decide (rc = SQLITE_DONE) then
         (Ret Null,
          after_call (call_reset statement) (sqlite3_reset statement e3)
            (after_call (call_step statement) e3 d2))
       else if bool_decide (rc ≠ SQLITE_ROW) then
         (Throw (DbError "Failed to get a row for query" e3),
          after_call (call_reset statement) (sqlite3_reset statement e3)
            (set_console (what (DbError "Failed to get a row for query" e3)
                            :: console (after_call (call_step statement) e3 d2))
               (after_call (call_step statement) e3 d2)))
       else if negb NDEBUG && bool_decide (sqlite3_data_count statement e3 ≠ 1%Z) then
         (Abort (assertion_failed "sqlite3_data_count(statement.stmt) == 1"),
          after_call (call_step statement) e3 d2)
       else
         (Ret (match sqlite3_column_text statement 0 e3 with
               | Some text => JsString text
               | None => Null
               end),
          after_call (call_reset statement) (sqlite3_reset statement e3)
            (after_call (call_step statement) e3 d2)))).
  { unfold getLocal, executeQuery.
    erewrite bind_Ret by exact Hprepare. erewrite bind_Ret by exact Hbind.
    unfold SqliteStatement.
    unfold mbind at 1. unfold M_bind at 1. unfold bind at 1.
    rewrite (getNextRowOrTrue_run _ _ _ _ Hstep). cbv zeta.
    destruct (bool_decide (rc = SQLITE_DONE)); [reflexivity |].
    destruct (bool_decide (rc ≠ SQLITE_ROW)); [reflexivity |].
    unfold assertM. destruct NDEBUG; simpl.
    - unfold mbind, M_bind, bind, peek, mret, M_ret, ret. simpl.
      change (db_ (after_call (call_step statement) e3 d2)) with e3.
      destruct (sqlite3_column_text statement 0 e3); reflexivity.
    - unfold mbind, M_bind, bind, peek, mret, M_ret, ret. simpl.
      change (db_ (after_call (call_step statement) e3 d2)) with e3.
      destruct (bool_decide (sqlite3_data_count statement e3 = 1%Z)) eqn:Hcount.
      + apply bool_decide_eq_true in Hcount.
        rewrite bool_decide_eq_false_2 by (intros Hn; apply Hn; exact Hcount).
        simpl. change (db_ (after_call (call_step statement) e3 d2)) with e3.
        destruct (sqlite3_column_text statement 0 e3); reflexivity.
      + apply bool_decide_eq_false in Hcount.
        rewrite bool_decide_eq_true_2 by exact Hcount. reflexivity. }
  rewrite Hrun. clear Hrun.
  destruct (bool_decide (rc = SQLITE_DONE)).
  { split; [reflexivity |]. split; [reflexivity |].
    exists [call_reset statement]. split; [reflexivity | right; reflexivity]. }
  destruct (bool_decide (rc ≠ SQLITE_ROW)).
  { split; [reflexivity |]. split; [reflexivity |].
    exists [call_reset statement]. split; [reflexivity | right; reflexivity]. }
  destruct (negb NDEBUG && bool_decide (sqlite3_data_count statement e3 ≠ 1%Z)).
  - split; [reflexivity |]. split; [reflexivity |].
    exists []. split; [reflexivity | left; reflexivity].
  - split; [reflexivity |]. split; [reflexivity |].
    exists [call_reset statement]. split; [reflexivity | right; reflexivity].
Qed.

(** ** The two shapes of a query *)

Lemma queryAsArray_run fuel tableName sql arguments statement rows e' hdr items cached'
    (d d1 d2 : Database) :
  prepareQuery sql d = (Ret statement, d1) →
  bindArgs statement arguments d1 = (Ret tt, d2) →
  yields statement (db_ d2) rows e' →
  (NDEBUG = false → Forall (λ e1, sqlite3_column_name statement 0 e1 = Some "id") rows) →
  array_header statement rows = Some hdr →
  array_rows tableName statement (cachedRecords_ d) rows = Some (items, cached') →
  (length rows < fuel)%nat →
  ∃ d', queryAsArray fuel tableName sql arguments d = (Ret (Array (hdr ++ items)), d') ∧
        cachedRecords_ d' = cached'.
Proof.
  intros Hprepare Hbind Hyields Hnames Hhdr Hrows Hfuel.
  assert (Hcache : cachedRecords_ d2 = cachedRecords_ d).
  { pose proof (same_cache_prepareQuery _ _ _ _ Hprepare) as H1.
    pose proof (same_cache_bindArgs _ _ _ _ _ Hbind) as H2.
    unfold same_cache in *. congruence. }
  rewrite <- Hcache in Hrows.
  destruct (queryAsArray_loop tableName statement _ rows e' Hyields fuel [] hdr items
              cached' d2 eq_refl Hnames Hhdr Hrows Hfuel) as (d' & Hloop & Hc & He).
  simpl in Hloop.
  eexists. split.
  - unfold queryAsArray, executeQuery.
    erewrite bind_Ret by exact Hprepare. erewrite bind_Ret by exact Hbind.
    unfold SqliteStatement. erewrite bind_Ret by exact Hloop.
    rewrite arrayFromStd_spec. reflexivity.
  - exact Hc.
Qed.

Lemma record_rows_array_rows tableName statement rows :
  ∀ cached items cached' aitems cached'',
    record_rows tableName statement cached rows = Some (items, cached') →
    array_rows tableName statement cached rows = Some (aitems, cached'') →
    cached' = cached'' ∧ Forall2 same_row_shape items aitems.
Proof.
  induction rows as [| e rows IH]; intros cached items cached' aitems cached'' Hr Ha;
    simpl in Hr, Ha.
  - inversion Hr; inversion Ha; subst. split; [reflexivity | constructor].
  - destruct (sqlite3_column_text statement 0 e) as [id |]; [| discriminate].
    simpl in Hr, Ha.
    destruct (bool_decide (cacheKey tableName id ∈ cached)).
    + destruct (record_rows tableName statement cached rows) as [[items' c'] |] eqn:Hr';
        [| discriminate].
      destruct (array_rows tableName statement cached rows) as [[aitems' c''] |] eqn:Ha';
        [| discriminate].
      simpl in Hr, Ha. inversion Hr; inversion Ha; subst.
      destruct (IH _ _ _ _ _ Hr' Ha') as [-> Hshape].
      split; [reflexivity |]. constructor; [reflexivity | exact Hshape].
    + unfold dictionary_of in Hr. unfold positional_array in Ha.
      destruct (mapM (λ i, sqlite3_column_name statement i e) _) as [names |];
        [| discriminate].
      simpl in Hr.
      destruct (mapM (column_value statement e) _) as [values |]; [| discriminate].
      simpl in Hr, Ha.
      destruct (record_rows tableName statement _ rows) as [[items' c'] |] eqn:Hr';
        [| discriminate].
      destruct (array_rows tableName statement _ rows) as [[aitems' c''] |] eqn:Ha';
        [| discriminate].
      simpl in Hr, Ha. inversion Hr; inversion Ha; subst.
      destruct (IH _ _ _ _ _ Hr' Ha') as [-> Hshape].
      split; [reflexivity |]. constructor; [exact I | exact Hshape].
Qed.

(** X22.  On the same rows and from the same identity cache, [query] and
    [queryAsArray] agree row by row: where one returns the id string the
    other returns the same id string, and where one returns a Dictionary
    the other returns a Positional Array; [queryAsArray] puts the Column
    Header Array before them.  Both leave the same identity cache. *)
Theorem queryAsArray_agrees_with_query fuel tableName sql arguments statement rows e'
    items cached' hdr aitems cached'' (d d1 d2 : Database) :
  prepareQuery sql d = (Ret statement, d1) →
  bindArgs statement arguments d1 = (Ret tt, d2) →
  yields statement (db_ d2) rows e' →
  (NDEBUG = false → Forall (λ e1, sqlite3_column_name statement 0 e1 = Some "id") rows) →
  record_rows tableName statement (cachedRecords_ d) rows = Some (items, cached') →
  array_header statement rows = Some hdr →
  array_rows tableName statement (cachedRecords_ d) rows = Some (aitems, cached'') →
  (length rows < fuel)%nat →
  fst (query fuel tableName sql arguments d) = Ret (Array items) ∧
  fst (queryAsArray fuel tableName sql arguments d) = Ret (Array (hdr ++ aitems)) ∧
  Forall2 same_row_shape items aitems ∧
  cachedRecords_ (snd (query fuel tableName sql arguments d))
  = cachedRecords_ (snd (queryAsArray fuel tableName sql arguments d)).
Proof.
  intros Hprepare Hbind Hyields Hnames Hrecords Hhdr Harrays Hfuel.
  destruct (query_run fuel tableName sql arguments statement rows e' items cached' d d1 d2
              Hprepare Hbind Hyields Hnames Hrecords Hfuel) as (dq & Hquery & Hcq).
  destruct (queryAsArray_run fuel tableName sql arguments statement rows e' hdr aitems
              cached'' d d1 d2 Hprepare Hbind Hyields Hnames Hhdr Harrays Hfuel)
    as (da & Harray & Hca).
  destruct (record_rows_array_rows _ _ _ _ _ _ _ _ Hrecords Harrays) as [Heq Hshape].
  rewrite Hquery, Harray. simpl.
  split; [reflexivity |]. split; [reflexivity |]. split; [exact Hshape |]. congruence.
Qed.

(** ** Statements are left reset *)

Lemma bindArgs_loop_throw_resets statement arguments : ∀ i ex (d d' : Database),
  bindArgs_loop statement i arguments d = (Throw ex, d') →
  head (calls d') = Some (call_reset statement).
Proof.
  induction arguments as [| value rest IH]; intros i ex d d' H; simpl in H.
  - discriminate.
  - apply bind_Throw_inv in H as [H | (bindResult & d1 & _ & H)].
    + destruct value; unfold call in H;
        try (match type of H with
             | (let '(_, _) := ?r in _) = _ => destruct r; discriminate
             end).
      all: inversion H; subst; reflexivity.
    + destruct (bool_decide (bindResult ≠ SQLITE_OK)); [| eapply IH; exact H].
      inversion H; subst. reflexivity.
Qed.

Lemma bindArgs_throw_resets statement arguments ex (d d' : Database) :
  bindArgs statement arguments d = (Throw ex, d') →
  head (calls d') = Some (call_reset statement).
Proof.
  unfold bindArgs. intros H.
  erewrite bind_Ret in H by reflexivity.
  destruct (bool_decide _).
  - inversion H; subst. reflexivity.
  - eapply bindArgs_loop_throw_resets. exact H.
Qed.

(** X23.  A statement is left reset.  Once [prepareQuery] has handed out
    the statement, however [executeQuery] and the block that uses the
    statement end, by a return or by an error (of the binder, of a step,
    of a result shaper), the last call made on the connection is the
    reset of that statement: the binder resets it before each of its
    errors and the guard resets it when its scope is left. *)
Theorem executeQuery_leaves_statement_reset {A} sql arguments (scope : sqlite3_stmt → M A)
    statement o (d d1 d' : Database) :
  prepareQuery sql d = (Ret statement, d1) →
  executeQuery sql arguments scope d = (o, d') →
  match o with
  | Ret _ | Throw _ => head (calls d') = Some (call_reset statement)
  | Abort _ | OutOfFuel => True
  end.
Proof.
  intros Hprepare H. unfold executeQuery in H.
  erewrite bind_Ret in H by exact Hprepare.
  unfold mbind at 1 in H. unfold M_bind at 1 in H. unfold bind at 1 in H.
  run_cases (bindArgs statement arguments) d1.
  - unfold SqliteStatement in H.
    run_cases (scope statement) d0; inversion H; subst; try exact I; reflexivity.
  - inversion H; subst. eapply bindArgs_throw_resets. exact Hrun.
  - inversion H; subst. exact I.
  - inversion H; subst. exact I.
Qed.

End Properties.

(** * Runs on the small engine *)



Lemma batch_commit_cache_witness :
  fst (isCached "t$b" (snd (batch (build := Toy.release) Toy.delete_then_insert
                               (Toy.fresh 3 ["t$b"])))) = Ret true ↔
  ("t$b" ∉ removedIds_of Toy.delete_then_insert) ∧
  ("t$b" ∈ addedIds_of Toy.delete_then_insert ∨ "t$b" ∈ cachedRecords_ (Toy.fresh 3 ["t$b"])).
Proof.
  apply (batch_commit_cache (build := Toy.release) Toy.delete_then_insert
           (Toy.fresh 3 ["t$b"])).
  vm_compute. reflexivity.
Defined.

(** C2 as it is written fails: a batch that deletes the record [a] of [t]
    and then inserts it again commits; the last operation that mentions
    the key [t$a] has cacheBehavior +1, and yet the key is not cached
    afterwards, because the removal is applied after the insertion. *)
Lemma batch_last_mention_counterexample :
  fst (batch (build := Toy.release) Toy.delete_then_insert (Toy.fresh 3 [])) = Ret tt ∧
  last_mention "t$a" (mentions Toy.delete_then_insert) = Some 1%Z ∧
  fst (isCached "t$a" (snd (batch (build := Toy.release) Toy.delete_then_insert
                              (Toy.fresh 3 [])))) = Ret false.
Proof. vm_compute. repeat split. Qed.

Lemma migrate_version_assertion_witness :
  (migrate (build := Toy.debug) "alter table t add column w text;" 5 6 (Toy.fresh 3 [])
   = (Abort (assertion_failed
               "getUserVersion() == fromVersion && Incompatible migration set"),
      Toy.version_read)
   ∧ calls_added (λ c, ¬ is_exec c) (Toy.fresh 3 []) Toy.version_read) ∧
  (migrate (build := Toy.release) "alter table t add column w text;" 5 6 (Toy.fresh 3 [])
   = try_catch
       (executeMultiple "alter table t add column w text;";;
        setUserVersion (build := Toy.release) 6;; commit (build := Toy.release))
       (λ ex, rollback (build := Toy.release);; throw ex) Toy.begun ∧
   ∃ l, calls (snd (migrate (build := Toy.release) "alter table t add column w text;" 5 6
                      (Toy.fresh 3 [])))
        = (l ++ call_exec "alter table t add column w text;" :: calls Toy.begun)%list).
Proof.
  split.
  - destruct (migrate_version_assertion (build := Toy.debug)
                "alter table t add column w text;" 5 6 (Toy.fresh 3 []) Toy.begun)
      as [Hdebug _]; [vm_compute; reflexivity |].
    apply (Hdebug eq_refl 3%Z Toy.version_read); [vm_compute; reflexivity | discriminate].
  - destruct (migrate_version_assertion (build := Toy.release)
                "alter table t add column w text;" 5 6 (Toy.fresh 3 []) Toy.begun)
      as [_ Hrelease]; [vm_compute; reflexivity |].
    exact (Hrelease eq_refl).
Defined.

(** C3 as it is written fails: in a build with [NDEBUG] the user version
    is 3, [migrate] is called from version 5 to version 6, and it returns
    normally: the migration script has been executed and the user version
    is 6; the calls made on the connection are those of [begin], of the
    script, of setting the version and of [commit], none of them reads
    the user version.  In a build with assertions the same call ends the
    process; it does not throw. *)
Lemma migrate_unchecked_counterexample :
  fst (getUserVersion (build := Toy.release) (Toy.fresh 3 [])) = Ret 3%Z ∧
  fst (migrate (build := Toy.release) "alter table t add column w text;" 5 6
         (Toy.fresh 3 [])) = Ret tt ∧
  Toy.executed (db_ (snd (migrate (build := Toy.release)
                            "alter table t add column w text;" 5 6 (Toy.fresh 3 []))))
  = ["alter table t add column w text;"] ∧
  Toy.user_version (db_ (snd (migrate (build := Toy.release)
                                "alter table t add column w text;" 5 6 (Toy.fresh 3 []))))
  = 6%Z ∧
  calls (snd (migrate (build := Toy.release) "alter table t add column w text;" 5 6
                (Toy.fresh 3 [])))
  = [call_reset 3%N; call_step 3%N; call_prepare_v2 "commit transaction";
     call_reset 2%N; call_step 2%N; call_prepare_v2 "pragma user_version = 6";
     call_exec "alter table t add column w text;";
     call_reset 1%N; call_step 1%N; call_prepare_v2 "begin exclusive transaction"] ∧
  fst (migrate (build := Toy.debug) "alter table t add column w text;" 5 6
         (Toy.fresh 3 []))
  = Abort (assertion_failed "getUserVersion() == fromVersion && Incompatible migration set").
Proof. vm_compute. repeat split. Qed.


Lemma count_returns_first_row_witness :
  fst (count (build := Toy.debug) "select count(*) from t" [] (Toy.fresh 3 []))
  = Ret (Number 2%Z) ∧
  calls (snd (count (build := Toy.debug) "select count(*) from t" [] (Toy.fresh 3 [])))
  = [call_reset 1%N; call_step 1%N; call_prepare_v2 "select count(*) from t"].
Proof.
  destruct (count_returns_first_row (build := Toy.debug) "select count(*) from t" [] 1%N
              SQLITE_ROW (db_ (Toy.on_first_row "select count(*) from t"))
              (Toy.fresh 3 [])
              (snd (prepareQuery (build := Toy.debug) "select count(*) from t"
                      (Toy.fresh 3 [])))
              (Toy.prepared "select count(*) from t")) as (Hvalue & Hstate & _).
  - vm_compute. reflexivity.
  - vm_compute. reflexivity.
  - vm_compute. reflexivity.
  - split; [exact Hvalue |]. rewrite Hstate. reflexivity.
Defined.

(** C5 as it is written fails: the statement yields two rows of one
    column, and [count] returns the value of the first, with or without
    assertions; it asks for no more than a first row, and the one step
    that gave it is the only step it makes. *)
Lemma count_two_rows_counterexample :
  Toy.lookup_catalog Toy.sample_catalog "select n from counts"
  = Some (Toy.Select ["n"] [[Toy.CInteger 4]; [Toy.CInteger 9]]) ∧
  fst (sqlite3_step 1%N (db_ (Toy.on_first_row "select n from counts"))) = SQLITE_ROW ∧
  fst (count (build := Toy.debug) "select n from counts" [] (Toy.fresh 3 []))
  = Ret (Number 4%Z) ∧
  fst (count (build := Toy.release) "select n from counts" [] (Toy.fresh 3 []))
  = Ret (Number 4%Z) ∧
  calls (snd (count (build := Toy.debug) "select n from counts" [] (Toy.fresh 3 [])))
  = [call_reset 1%N; call_step 1%N; call_prepare_v2 "select n from counts"] ∧
  calls (snd (count (build := Toy.release) "select n from counts" [] (Toy.fresh 3 [])))
  = [call_reset 1%N; call_step 1%N; call_prepare_v2 "select n from counts"].
Proof. vm_compute. repeat split. Qed.

Lemma find_cases_witness :
  find (build := Toy.release) "t" "a" (Toy.fresh 3 ["t$a"])
  = (Ret (JsString "a"), Toy.fresh 3 ["t$a"]) ∧
  fst (find (build := Toy.release) "t" "a" (Toy.fresh 3 []))
  = Ret (Object [("id", JsString "a"); ("v", JsString "x")]) ∧
  find (build := Toy.release) "t" "a"
    (snd (batch (build := Toy.release) Toy.insert_a (Toy.fresh 3 [])))
  = (Ret (JsString "a"), snd (batch (build := Toy.release) Toy.insert_a (Toy.fresh 3 []))).
Proof.
  split; [| split].
  - apply (find_cases (build := Toy.release) "t" "a" (Toy.fresh 3 ["t$a"])).
    apply (bool_decide_unpack _). vm_compute. exact I.
  - refine (proj1 (proj2 (proj1 (proj2 (find_cases (build := Toy.release) "t" "a"
              (Toy.fresh 3 []))) _ 1%N SQLITE_ROW
              (db_ (Toy.on_first_row "select * from `t` where id == ? limit 1"))
              (snd (prepareQuery (build := Toy.release)
                      "select * from `t` where id == ? limit 1" (Toy.fresh 3 [])))
              (snd (bindArgs 1%N [JsString "a"]
                      (snd (prepareQuery (build := Toy.release)
                              "select * from `t` where id == ? limit 1" (Toy.fresh 3 [])))))
              eq_refl eq_refl eq_refl) eq_refl _ eq_refl)).
    apply (proj1 (bool_decide_eq_false _)). vm_compute. reflexivity.
  - apply (proj2 (proj2 (find_cases (build := Toy.release) "t" "a"
             (snd (batch (build := Toy.release) Toy.insert_a (Toy.fresh 3 [])))))
             Toy.insert_a (Toy.fresh 3 [])).
    + vm_compute. reflexivity.
    + apply (bool_decide_unpack _). vm_compute. exact I.
    + apply (proj1 (bool_decide_eq_false _)). vm_compute. reflexivity.
Defined.

(** The last sentence of C4 as it is written fails: the batch that deletes
    the record [a] and then writes it again with cacheBehavior +1
    commits, and the [find] that follows returns the dictionary of the
    row, not the id string. *)
Lemma find_after_batch_counterexample :
  fst (batch (build := Toy.release) Toy.delete_then_insert (Toy.fresh 3 [])) = Ret tt ∧
  "t$a" ∈ addedIds_of Toy.delete_then_insert ∧
  fst (find (build := Toy.release) "t" "a"
         (snd (batch (build := Toy.release) Toy.delete_then_insert (Toy.fresh 3 []))))
  = Ret (Object [("id", JsString "a"); ("v", JsString "x")]).
Proof.
  split; [vm_compute; reflexivity |]. split; [| vm_compute; reflexivity].
  apply (bool_decide_unpack _). vm_compute. exact I.
Qed.

Lemma shapers_agree_on_last_name_witness :
  ∃ props,
    resultDictionary (build := Toy.release) 1%N (Toy.on_first_row "select * from t")
    = (Ret (Object props), Toy.on_first_row "select * from t") ∧
    resultArray 1%N (Toy.on_first_row "select * from t")
    = (Ret (Array [JsString "a"; JsString "x"]), Toy.on_first_row "select * from t") ∧
    ∀ i name,
      ["id"; "v"] !! i = Some name →
      (∀ j, (i < j)%nat → ["id"; "v"] !! j ≠ Some name) →
      is_Some (([JsString "a"; JsString "x"] : list (Value Z)) !! i) ∧
      getProperty props name = [JsString "a"; JsString "x"] !! i.
Proof.
  exact (shapers_agree_on_last_name (build := Toy.release) 1%N ["id"; "v"]
           (Toy.on_first_row "select * from t") eq_refl).
Defined.

(** C7 as it is written fails on a row with two columns of the same name:
    entry 0 of the Positional Array is ["a"], and the Dictionary holds
    ["b"] under the name of column 0. *)
Lemma shapers_duplicate_names_counterexample :
  sqlite3_column_name 1%N 0 (db_ (Toy.on_first_row "select t.id, u.id from t join u"))
  = Some "id" ∧
  fst (resultArray 1%N (Toy.on_first_row "select t.id, u.id from t join u"))
  = Ret (Array [JsString "a"; JsString "b"]) ∧
  fst (resultDictionary (build := Toy.release) 1%N
         (Toy.on_first_row "select t.id, u.id from t join u"))
  = Ret (Object [("id", JsString "b")]).
Proof. vm_compute. repeat split. Qed.

Lemma queryAsArray_header_and_rows_witness :
  ∃ d', queryAsArray (build := Toy.debug) 10 "t" "select * from t" [] (Toy.fresh 3 ["t$a"])
        = (Ret (Array ([Array [JsString "id"; JsString "v"]]
                       ++ [JsString "a"; Array [JsString "b"; Number 7%Z]])), d') ∧
        cachedRecords_ d' = list_to_set ["t$a"; "t$b"].
Proof.
  eapply proj1.
  eapply (queryAsArray_header_and_rows (build := Toy.debug) 10 "t" "select * from t" [] 1%N
            _ _ [Array [JsString "id"; JsString "v"]]
            [JsString "a"; Array [JsString "b"; Number 7%Z]]
            (list_to_set ["t$a"; "t$b"]) (Toy.fresh 3 ["t$a"])).
  - vm_compute. reflexivity.
  - vm_compute. reflexivity.
  - eapply yields_row; [vm_compute; reflexivity |].
    eapply yields_row; [vm_compute; reflexivity |].
    eapply yields_done. vm_compute. reflexivity.
  - intros _. repeat constructor.
  - vm_compute. reflexivity.
  - vm_compute. reflexivity.
  - simpl. lia.
Defined.

(** C6 as it is written fails on a query without rows: the array returned
    is empty; it has no first element, so no Column Header Array. *)
Lemma queryAsArray_empty_counterexample :
  fst (queryAsArray (build := Toy.debug) 10 "t" "select * from t where 0" []
         (Toy.fresh 3 []))
  = Ret (Array []) ∧
  fst (queryAsArray (build := Toy.release) 10 "t" "select * from t where 0" []
         (Toy.fresh 3 []))
  = Ret (Array []).
Proof. vm_compute. split; reflexivity. Qed.

Lemma bind_mismatch_leaves_statement_reusable_witness :
  ∃ d2,
    executeQuery (build := Toy.debug) "select * from t where id=?" []
      (λ statement, getRow statement) (Toy.fresh 3 [])
    = (Throw ArgMismatch, d2) ∧
    cachedStatements_ d2 !! "select * from t where id=?" = Some 1%N ∧
    ∃ d4,
      executeQuery (build := Toy.debug) "select * from t where id=?" [JsString "a"]
        (λ statement, getRow statement) d2
      = SqliteStatement 1%N (getRow 1%N) d4.
Proof.
  pose proof (bind_mismatch_leaves_statement_reusable (build := Toy.debug)
                "select * from t where id=?" [] 1%N (λ statement, getRow statement)
                (Toy.fresh 3 [])
                (snd (prepareQuery (build := Toy.debug) "select * from t where id=?"
                        (Toy.fresh 3 [])))) as H.
  destruct H as (d2 & _ & _ & Hdb & Hquery & Hcached & Hnext);
    [vm_compute; reflexivity | vm_compute; discriminate |].
  exists d2. split; [exact Hquery |]. split; [exact Hcached |].
  destruct (Hnext [JsString "a"] (sqlite3_reset 1%N (db_ d2))) as (_ & d4 & _ & Hrun).
  - discriminate.
  - rewrite Hdb. vm_compute. reflexivity.
  - vm_compute. reflexivity.
  - rewrite Hdb. vm_compute. reflexivity.
  - exists d4. exact Hrun.
Defined.

Lemma query_failure_keeps_marks_witness :
  ∃ d', query (build := Toy.release) 10 "files" "select * from files" [] (Toy.fresh 3 [])
        = (Throw UnsupportedColumnType, d') ∧
        length Toy.files_records = 1%nat ∧
        length (row_keys "files" 1%N [db_ (snd Toy.files_first_turn)]) = 1%nat ∧
        (∀ k, k ∈ row_keys "files" 1%N [db_ (snd Toy.files_first_turn)] →
              k ∈ cachedRecords_ d') ∧
        cachedRecords_ (Toy.fresh 3 []) ⊆ cachedRecords_ d'.
Proof.
  eapply (query_failure_keeps_marks (build := Toy.release) 10 "files" "select * from files"
            [] 1%N [db_ (snd Toy.files_first_turn)] Toy.files_records
            UnsupportedColumnType (Toy.fresh 3 [])
            (snd (prepareQuery (build := Toy.release) "select * from files" (Toy.fresh 3 [])))
            (Toy.prepared "select * from files") (snd Toy.files_first_turn)).
  - vm_compute. reflexivity.
  - vm_compute. reflexivity.
  - eapply query_turns_cons; [| apply query_turns_nil]. vm_compute. reflexivity.
  - vm_compute. reflexivity.
  - simpl. lia.
Defined.

(** * Further runs on the small engine *)

Lemma cacheKey_injective_witness : "tasks" = "tasks" ∧ "a$b" = "a$b".
Proof.
  apply (cacheKey_injective "tasks" "a$b" "tasks" "a$b"); reflexivity.
Defined.

Lemma prepareQuery_hands_out_cached_statement_witness :
  prepareQuery (build := Toy.release) "select * from t"
    (snd (find (build := Toy.release) "t" "a"
            (Toy.prepared_from "select * from t" (Toy.fresh 3 []))))
  = (Ret 1%N,
     after_call (call_reset 1%N)
       (sqlite3_reset 1%N
          (db_ (snd (find (build := Toy.release) "t" "a"
                       (Toy.prepared_from "select * from t" (Toy.fresh 3 []))))))
       (snd (find (build := Toy.release) "t" "a"
               (Toy.prepared_from "select * from t" (Toy.fresh 3 []))))).
Proof.
  apply (prepareQuery_hands_out_cached_statement (build := Toy.release) "select * from t"
           1%N (Toy.fresh 3 []) (Toy.prepared_from "select * from t" (Toy.fresh 3 []))).
  - vm_compute. reflexivity.
  - discriminate.
  - eapply (frame_find (build := Toy.release) _ (R_pre := statements_kept_preorder)
              statements_kept_call statements_kept_console statements_kept_prepareQuery
              statements_kept_records "t" "a").
    apply surjective_pairing.
Defined.

Lemma prepareQuery_failure_is_not_cached_witness :
  cachedStatements_ (snd (prepareQuery (build := Toy.release) "select nonsense"
                            (Toy.fresh 3 [])))
    !! "select nonsense" = Some nullptr.
Proof.
  refine (proj1 (prepareQuery_failure_is_not_cached (build := Toy.release) "select nonsense"
            (JSError "Failed to prepare query statement - sqlite error 1 (toy engine error)")
            (Toy.fresh 3 []) _ _)).
  vm_compute. reflexivity.
Defined.

Lemma bindArgs_binds_in_order_witness :
  bindArgs 1%N [JsString "a"; Bool true]
    (Toy.prepared_from "insert into t values(?, ?)" (Toy.fresh 3 []))
  = (Ret tt,
     set_calls
       ([call_bind_int 1%N 2 1; call_bind_text 1%N 1 "a"]
        ++ calls (Toy.prepared_from "insert into t values(?, ?)" (Toy.fresh 3 [])))
       (Toy.prepared_from "insert into t values(?, ?)" (Toy.fresh 3 []))).
Proof.
  refine (proj1 (bindArgs_binds_in_order 1%N
            [JsString "a"; Bool true]
            (db_ (Toy.prepared_from "insert into t values(?, ?)" (Toy.fresh 3 [])))
            (Toy.prepared_from "insert into t values(?, ?)" (Toy.fresh 3 [])) _ _ _)).
  - vm_compute. reflexivity.
  - reflexivity.
  - vm_compute. reflexivity.
Defined.

Lemma bindArgs_rejects_unbindable_witness :
  bindArgs 1%N [JsString "a"; Object []]
    (Toy.prepared_from "insert into t values(?, ?)" (Toy.fresh 3 []))
  = (Throw InvalidArgType_object,
     set_calls
       (call_reset 1%N :: [call_bind_text 1%N 1 "a"]
        ++ calls (Toy.prepared_from "insert into t values(?, ?)" (Toy.fresh 3 [])))
       (set_db_
          (sqlite3_reset 1%N
             (db_ (Toy.prepared_from "insert into t values(?, ?)" (Toy.fresh 3 []))))
          (Toy.prepared_from "insert into t values(?, ?)" (Toy.fresh 3 [])))).
Proof.
  refine (bindArgs_rejects_unbindable 1%N
            [JsString "a"] (Object []) []
            (db_ (Toy.prepared_from "insert into t values(?, ?)" (Toy.fresh 3 [])))
            (Toy.prepared_from "insert into t values(?, ?)" (Toy.fresh 3 [])) _ _ _ _).
  - vm_compute. reflexivity.
  - reflexivity.
  - vm_compute. reflexivity.
  - reflexivity.
Defined.

Lemma queryIds_returns_ids_witness :
  ∃ d', queryIds (build := Toy.debug) 10 "select id from t" [] (Toy.fresh 3 ["t$a"])
        = (Ret (Array [JsString "a"; JsString "b"]), d') ∧
        cachedRecords_ d' = cachedRecords_ (Toy.fresh 3 ["t$a"]).
Proof.
  destruct (queryIds_returns_ids (build := Toy.debug) 10 "select id from t" [] 1%N
              [db_ (Toy.on_first_row "select id from t");
               db_ (snd (getNextRowOrTrue 1%N (Toy.on_first_row "select id from t")))]
              (db_ (snd (getNextRowOrTrue 1%N
                           (snd (getNextRowOrTrue 1%N
                                   (Toy.on_first_row "select id from t"))))))
              ["a"; "b"] (Toy.fresh 3 ["t$a"])
              (Toy.prepared_from "select id from t" (Toy.fresh 3 ["t$a"]))
              (Toy.prepared_from "select id from t" (Toy.fresh 3 ["t$a"])))
    as (d' & Hrun & Hcache & _).
  - vm_compute. reflexivity.
  - vm_compute. reflexivity.
  - eapply yields_row; [vm_compute; reflexivity |].
    eapply yields_row; [vm_compute; reflexivity |].
    eapply yields_done. vm_compute. reflexivity.
  - intros _. repeat constructor.
  - vm_compute. reflexivity.
  - simpl. lia.
  - exists d'. split; [exact Hrun | exact Hcache].
Defined.

Lemma queryIds_null_id_fails_witness :
  ∃ d', queryIds (build := Toy.debug) 10 "select id from orphans" [] (Toy.fresh_storage [])
        = (Throw MissingId, d') ∧
        db_ d'
        = sqlite3_reset 1%N
            (db_ (snd (getNextRowOrTrue 1%N
                         (snd (getNextRowOrTrue 1%N
                                 (Toy.prepared_from "select id from orphans"
                                    (Toy.fresh_storage [])))))))  ∧
        console d'
        = console (Toy.prepared_from "select id from orphans" (Toy.fresh_storage [])).
Proof.
  eapply (queryIds_null_id_fails (build := Toy.debug) 10 "select id from orphans" [] 1%N
            [db_ (snd (getNextRowOrTrue 1%N
                         (Toy.prepared_from "select id from orphans"
                            (Toy.fresh_storage []))))]
            _ _ ["a"] (Toy.fresh_storage [])
            (Toy.prepared_from "select id from orphans" (Toy.fresh_storage []))
            (Toy.prepared_from "select id from orphans" (Toy.fresh_storage []))).
  - vm_compute. reflexivity.
  - vm_compute. reflexivity.
  - eapply stepped_row; [vm_compute; reflexivity |]. apply stepped_nil.
  - vm_compute. reflexivity.
  - intros _. repeat constructor.
  - vm_compute. reflexivity.
  - vm_compute. reflexivity.
  - simpl. lia.
Defined.

Lemma unsafeQueryRaw_returns_dictionaries_witness :
  ∃ d', unsafeQueryRaw (build := Toy.debug) 10 "select n from counts" [] (Toy.fresh 3 ["t$a"])
        = (Ret (Array [Object [("n", Number 4%Z)]; Object [("n", Number 9%Z)]]), d') ∧
        length [Object [("n", Number 4%Z)]; Object [("n", Number 9%Z)]]
        = length [db_ (Toy.on_first_row "select n from counts");
                  db_ (snd (getNextRowOrTrue 1%N (Toy.on_first_row "select n from counts")))] ∧
        cachedRecords_ d' = cachedRecords_ (Toy.fresh 3 ["t$a"]).
Proof.
  eapply (unsafeQueryRaw_returns_dictionaries (build := Toy.debug) 10
            "select n from counts" [] 1%N _ _ _ (Toy.fresh 3 ["t$a"])
            (Toy.prepared_from "select n from counts" (Toy.fresh 3 ["t$a"]))
            (Toy.prepared_from "select n from counts" (Toy.fresh 3 ["t$a"]))).
  - vm_compute. reflexivity.
  - vm_compute. reflexivity.
  - eapply yields_row; [vm_compute; reflexivity |].
    eapply yields_row; [vm_compute; reflexivity |].
    eapply yields_done. vm_compute. reflexivity.
  - vm_compute. reflexivity.
  - simpl. lia.
Defined.

Lemma query_returns_records_witness :
  ∃ d', query (build := Toy.debug) 10 "t" "select * from t" [] (Toy.fresh 3 ["t$a"])
        = (Ret (Array [JsString "a"; Object [("id", JsString "b"); ("v", Number 7%Z)]]), d') ∧
        length [JsString "a"; Object [("id", JsString "b"); ("v", Number 7%Z)]]
        = length [db_ (Toy.on_first_row "select * from t");
                  db_ (snd (getNextRowOrTrue 1%N (Toy.on_first_row "select * from t")))] ∧
        cachedRecords_ d'
        = list_to_set
            (row_keys "t" 1%N
               [db_ (Toy.on_first_row "select * from t");
                db_ (snd (getNextRowOrTrue 1%N (Toy.on_first_row "select * from t")))])
          ∪ cachedRecords_ (Toy.fresh 3 ["t$a"]).
Proof.
  eapply (query_returns_records (build := Toy.debug) 10 "t" "select * from t" [] 1%N
            _ _ _ (list_to_set ["t$a"; "t$b"]) (Toy.fresh 3 ["t$a"])
            (Toy.prepared_from "select * from t" (Toy.fresh 3 ["t$a"]))
            (Toy.prepared_from "select * from t" (Toy.fresh 3 ["t$a"]))).
  - vm_compute. reflexivity.
  - vm_compute. reflexivity.
  - eapply yields_row; [vm_compute; reflexivity |].
    eapply yields_row; [vm_compute; reflexivity |].
    eapply yields_done. vm_compute. reflexivity.
  - intros _. repeat constructor.
  - vm_compute. reflexivity.
  - simpl. lia.
Defined.

Lemma query_on_cached_rows_returns_ids_witness :
  fst (query (build := Toy.debug) 10 "t" "select * from t" [] (Toy.fresh 3 ["t$a"; "t$b"]))
  = Ret (Array [JsString "a"; JsString "b"]) ∧
  fst (query (build := Toy.debug) 10 "t" "select * from t" [] (Toy.fresh 3 ["t$a"; "t$b"]))
  = fst (queryIds (build := Toy.debug) 10 "select * from t" []
           (Toy.fresh 3 ["t$a"; "t$b"])) ∧
  cachedRecords_
    (snd (query (build := Toy.debug) 10 "t" "select * from t" []
            (Toy.fresh 3 ["t$a"; "t$b"])))
  = cachedRecords_ (Toy.fresh 3 ["t$a"; "t$b"]).
Proof.
  eapply (query_on_cached_rows_returns_ids (build := Toy.debug) 10 "t" "select * from t" []
            1%N _ _ ["a"; "b"] (Toy.fresh 3 ["t$a"; "t$b"])
            (Toy.prepared_from "select * from t" (Toy.fresh 3 ["t$a"; "t$b"]))
            (Toy.prepared_from "select * from t" (Toy.fresh 3 ["t$a"; "t$b"]))).
  - vm_compute. reflexivity.
  - vm_compute. reflexivity.
  - eapply yields_row; [vm_compute; reflexivity |].
    eapply yields_row; [vm_compute; reflexivity |].
    eapply yields_done. vm_compute. reflexivity.
  - intros _. repeat constructor.
  - vm_compute. reflexivity.
  - intros id Hid.
    apply elem_of_cons in Hid as [-> | Hid];
      [| apply elem_of_cons in Hid as [-> | Hid]; [| inversion Hid]];
      apply (bool_decide_unpack _); vm_compute; exact I.
  - simpl. lia.
Defined.

Lemma find_materialises_once_witness :
  (cacheKey "t" "a" ∉ cachedRecords_ (Toy.fresh 3 [])) ∧
  cachedRecords_ (snd (find (build := Toy.release) "t" "a" (Toy.fresh 3 [])))
  = {[cacheKey "t" "a"]} ∪ cachedRecords_ (Toy.fresh 3 []) ∧
  find (build := Toy.release) "t" "a"
    (snd (find (build := Toy.release) "t" "a" (Toy.fresh 3 [])))
  = (Ret (JsString "a"), snd (find (build := Toy.release) "t" "a" (Toy.fresh 3 []))) ∧
  ∃ statement d1 d2 e3,
    prepareQuery (build := Toy.release)
      ("select * from `" ++ "t" ++ "` where id == ? limit 1") (Toy.fresh 3 [])
    = (Ret statement, d1) ∧
    bindArgs statement [JsString "a"] d1 = (Ret tt, d2) ∧
    sqlite3_step statement (db_ d2) = (SQLITE_ROW, e3) ∧
    resultDictionary (build := Toy.release) statement
      (after_call (call_step statement) e3 d2)
    = (Ret (Object [("id", JsString "a"); ("v", JsString "x")]),
       after_call (call_step statement) e3 d2).
Proof.
  apply (find_materialises_once (build := Toy.release) "t" "a"
           (Object [("id", JsString "a"); ("v", JsString "x")]) (Toy.fresh 3 [])).
  vm_compute. reflexivity.
Defined.

Lemma migrate_failure_rolls_back_witness :
  beginTransaction (build := Toy.debug) (Toy.fresh 3 [])
  = (Throw (JSError "syntax error"),
     snd (migrate (build := Toy.debug) "alter tabel" 3 4 (Toy.fresh 3 []))) ∨
  ∃ d1 d2,
    beginTransaction (build := Toy.debug) (Toy.fresh 3 []) = (Ret tt, d1) ∧
    migrate_try (build := Toy.debug) "alter tabel" 3 4 d1
    = (Throw (JSError "syntax error"), d2) ∧
    rollback (build := Toy.debug) d2
    = (Ret tt, snd (migrate (build := Toy.debug) "alter tabel" 3 4 (Toy.fresh 3 []))) ∧
    ∃ l, console (snd (migrate (build := Toy.debug) "alter tabel" 3 4 (Toy.fresh 3 [])))
         = (l ++ rollback_notice :: console d2)%list.
Proof.
  apply (migrate_failure_rolls_back (build := Toy.debug) "alter tabel" 3 4
           (JSError "syntax error") (Toy.fresh 3 [])).
  vm_compute. reflexivity.
Defined.

Lemma resultArray_fills_every_slot_witness :
  Toy.on_first_row "select * from t" = Toy.on_first_row "select * from t" ∧
  length [JsString (double := Z) "a"; JsString "x"]
  = Z.to_nat (sqlite3_column_count 1%N (db_ (Toy.on_first_row "select * from t"))) ∧
  ∀ i v, [JsString (double := Z) "a"; JsString "x"] !! i = Some v →
         column_value 1%N (db_ (Toy.on_first_row "select * from t")) (Z.of_nat i) = Some v ∧
         v ≠ Undefined.
Proof.
  apply (resultArray_fills_every_slot 1%N [JsString "a"; JsString "x"]
           (Toy.on_first_row "select * from t")).
  vm_compute. reflexivity.
Defined.

Lemma getLocal_cases_witness :
  fst (getLocal (build := Toy.debug) "theme" (Toy.fresh_storage [])) = Ret (JsString "dark") ∧
  calls (snd (getLocal (build := Toy.debug) "theme" (Toy.fresh_storage [])))
  = [call_reset 1%N; call_step 1%N; call_bind_text 1%N 1 "theme";
     call_prepare_v2 "select value from local_storage where key = ?"].
Proof.
  destruct (getLocal_cases (build := Toy.debug) "theme" 1%N SQLITE_ROW
              (db_ (snd (getNextRowOrTrue 1%N
                           (snd (bindArgs 1%N [JsString "theme"]
                                   (Toy.prepared_from
                                      "select value from local_storage where key = ?"
                                      (Toy.fresh_storage [])))))))
              (Toy.fresh_storage [])
              (Toy.prepared_from "select value from local_storage where key = ?"
                 (Toy.fresh_storage []))
              (snd (bindArgs 1%N [JsString "theme"]
                      (Toy.prepared_from "select value from local_storage where key = ?"
                         (Toy.fresh_storage []))))) as (Hvalue & Hstate & _).
  - vm_compute. reflexivity.
  - vm_compute. reflexivity.
  - vm_compute. reflexivity.
  - split; [exact Hvalue |]. rewrite Hstate. reflexivity.
Defined.

Lemma queryAsArray_agrees_with_query_witness :
  fst (query (build := Toy.debug) 10 "t" "select * from t" [] (Toy.fresh 3 ["t$a"]))
  = Ret (Array [JsString "a"; Object [("id", JsString "b"); ("v", Number 7%Z)]]) ∧
  fst (queryAsArray (build := Toy.debug) 10 "t" "select * from t" [] (Toy.fresh 3 ["t$a"]))
  = Ret (Array ([Array [JsString "id"; JsString "v"]]
                ++ [JsString "a"; Array [JsString "b"; Number 7%Z]])) ∧
  Forall2 same_row_shape
    [JsString "a"; Object [("id", JsString "b"); ("v", Number 7%Z)]]
    [JsString "a"; Array [JsString "b"; Number 7%Z]] ∧
  cachedRecords_
    (snd (query (build := Toy.debug) 10 "t" "select * from t" [] (Toy.fresh 3 ["t$a"])))
  = cachedRecords_
      (snd (queryAsArray (build := Toy.debug) 10 "t" "select * from t" []
              (Toy.fresh 3 ["t$a"]))).
Proof.
  eapply (queryAsArray_agrees_with_query (build := Toy.debug) 10 "t" "select * from t" []
            1%N _ _ _ (list_to_set ["t$a"; "t$b"]) _ _ (list_to_set ["t$a"; "t$b"])
            (Toy.fresh 3 ["t$a"])
            (Toy.prepared_from "select * from t" (Toy.fresh 3 ["t$a"]))
            (Toy.prepared_from "select * from t" (Toy.fresh 3 ["t$a"]))).
  - vm_compute. reflexivity.
  - vm_compute. reflexivity.
  - eapply yields_row; [vm_compute; reflexivity |].
    eapply yields_row; [vm_compute; reflexivity |].
    eapply yields_done. vm_compute. reflexivity.
  - intros _. repeat constructor.
  - vm_compute. reflexivity.
  - vm_compute. reflexivity.
  - vm_compute. reflexivity.
  - simpl. lia.
Defined.

Lemma executeQuery_leaves_statement_reset_witness :
  head (calls (snd (executeQuery (build := Toy.debug) "select * from t" []
                      (λ statement, getRow statement) (Toy.fresh 3 []))))
  = Some (call_reset 1%N).
Proof.
  exact (executeQuery_leaves_statement_reset (build := Toy.debug) "select * from t" []
           (λ statement, getRow statement) 1%N (Ret tt) (Toy.fresh 3 [])
           (Toy.prepared_from "select * from t" (Toy.fresh 3 []))
           (snd (executeQuery (build := Toy.debug) "select * from t" []
                   (λ statement, getRow statement) (Toy.fresh 3 [])))
           eq_refl eq_refl).
Defined.
